(** * The bill-extraction route of plum-backend (routes/extract.js)

    A shallow embedding of the handler of [POST /extract-amounts]: the
    SHA-256 fingerprint of the uploaded buffer, the JSON cache under
    [uploads/], the OCR step, the Gemini model fallback loop, the cleaning
    and parsing of the reply, and the two cache writes.  The services the
    handler talks to (sharp, Tesseract, the Gemini SDK, the failure of a
    file write, [JSON.parse] and [JSON.stringify]) are fields of an
    environment record; the handler itself is a program in a small monad
    with state, early [return] and [throw]. *)

From Stdlib Require Import ZArith List Strings.Ascii Strings.String Strings.Byte Lia.
From stdpp Require Import base option list gmap strings.

Local Open Scope string_scope.
Local Open Scope list_scope.
Local Open Scope Z_scope.

(** ** SHA-256 ([crypto.createHash('sha256').update(buf).digest('hex')]) *)

Module SHA256.

Definition w32 (x : Z) : Z := x mod 2 ^ 32.
Definition add32 (x y : Z) : Z := w32 (x + y).
Definition rotr (n x : Z) : Z :=
  Z.lor (Z.shiftr x n) (w32 (Z.shiftl x (32 - n))).
Definition shr (n x : Z) : Z := Z.shiftr x n.
Definition not32 (x : Z) : Z := Z.lxor x 4294967295.

Definition Ch (x y z : Z) : Z := Z.lxor (Z.land x y) (Z.land (not32 x) z).
Definition Maj (x y z : Z) : Z :=
  Z.lxor (Z.lxor (Z.land x y) (Z.land x z)) (Z.land y z).
Definition Sigma0 (x : Z) : Z := Z.lxor (Z.lxor (rotr 2 x) (rotr 13 x)) (rotr 22 x).
Definition Sigma1 (x : Z) : Z := Z.lxor (Z.lxor (rotr 6 x) (rotr 11 x)) (rotr 25 x).
Definition sigma0 (x : Z) : Z := Z.lxor (Z.lxor (rotr 7 x) (rotr 18 x)) (shr 3 x).
Definition sigma1 (x : Z) : Z := Z.lxor (Z.lxor (rotr 17 x) (rotr 19 x)) (shr 10 x).

(** The constants are taken from the first primes: the first 32 bits of the
    fractional part of their cube roots for the rounds, of their square
    roots for the initial state. *)
Definition primes : list Z :=
  [ 2; 3; 5; 7; 11; 13; 17; 19; 23; 29; 31; 37; 41; 43; 47; 53;
    59; 61; 67; 71; 73; 79; 83; 89; 97; 101; 103; 107; 109; 113; 127; 131;
    137; 139; 149; 151; 157; 163; 167; 173; 179; 181; 191; 193; 197; 199; 211; 223;
    227; 229; 233; 239; 241; 251; 257; 263; 269; 271; 277; 281; 283; 293; 307; 311 ].

(** The largest [r] below [2^k] above the given one with [r^3 <= n]. *)
Fixpoint cube_root (k : nat) (n r : Z) : Z :=
  match k with
  | O => r
  | S k' =>
      let r' := r + 2 ^ Z.of_nat k' in
      cube_root k' n (if r' * r' * r' <=? n then r' else r)
  end.

Definition K : list Z :=
  map (fun p => w32 (cube_root 36 (p * 2 ^ 96) 0)) primes.

Definition H0 : list Z :=
  map (fun p => w32 (Z.sqrt (p * 2 ^ 64))) (firstn 8 primes).

(** Big-endian bytes of the 64-bit bit length. *)
Definition length_bytes (bits : Z) : list Z :=
  map (fun i => Z.shiftr bits (8 * i) mod 256) [7; 6; 5; 4; 3; 2; 1; 0].

(** The message, a 1 bit, zero bytes up to 56 modulo 64, the length. *)
Definition pad (msg : list Z) : list Z :=
  let n := Z.of_nat (length msg) in
  let zeros := Z.to_nat ((55 - n) mod 64) in
  msg ++ 128 :: repeat 0 zeros ++ length_bytes (8 * n).

Fixpoint words (fuel : nat) (bs : list Z) : list Z :=
  match fuel, bs with
  | S fuel', b0 :: b1 :: b2 :: b3 :: rest =>
      (((b0 * 256 + b1) * 256 + b2) * 256 + b3) :: words fuel' rest
  | _, _ => []
  end.

(** The message schedule, most recent word first. *)
Fixpoint extend (n : nat) (rw : list Z) : list Z :=
  match n with
  | O => rw
  | S n' =>
      let w := add32 (add32 (sigma1 (nth 1 rw 0)) (nth 6 rw 0))
                     (add32 (sigma0 (nth 14 rw 0)) (nth 15 rw 0)) in
      extend n' (w :: rw)
  end.

Definition schedule (block : list Z) : list Z :=
  rev (extend 48 (rev block)).

Record regs := Regs { ra : Z; rb : Z; rc : Z; rd : Z; re : Z; rf : Z; rg : Z; rh : Z }.

Definition round (s : regs) (kw : Z * Z) : regs :=
  let '(Regs a b c d e f g h) := s in
  let t1 := add32 (add32 (add32 h (Sigma1 e)) (add32 (Ch e f g) (fst kw))) (snd kw) in
  let t2 := add32 (Sigma0 a) (Maj a b c) in
  Regs (add32 t1 t2) a b c (add32 d t1) e f g.

Definition regs_of (h : list Z) : regs :=
  Regs (nth 0 h 0) (nth 1 h 0) (nth 2 h 0) (nth 3 h 0)
       (nth 4 h 0) (nth 5 h 0) (nth 6 h 0) (nth 7 h 0).

Definition list_of (s : regs) : list Z :=
  [ra s; rb s; rc s; rd s; re s; rf s; rg s; rh s].

Definition compress (h : list Z) (block : list Z) : list Z :=
  let s := fold_left round (combine K (schedule block)) (regs_of h) in
  list_of (Regs (add32 (nth 0 h 0) (ra s)) (add32 (nth 1 h 0) (rb s))
                (add32 (nth 2 h 0) (rc s)) (add32 (nth 3 h 0) (rd s))
                (add32 (nth 4 h 0) (re s)) (add32 (nth 5 h 0) (rf s))
                (add32 (nth 6 h 0) (rg s)) (add32 (nth 7 h 0) (rh s))).

Fixpoint blocks (fuel : nat) (ws : list Z) (h : list Z) : list Z :=
  match fuel with
  | O => h
  | S fuel' =>
      match ws with
      | [] => h
      | _ => blocks fuel' (skipn 16 ws) (compress h (firstn 16 ws))
      end
  end.

Definition digest (msg : list Z) : list Z :=
  let ws := words (length (pad msg)) (pad msg) in
  blocks (length ws) ws H0.

Definition hex_digit (d : Z) : ascii :=
  ascii_of_nat (Z.to_nat (if d <? 10 then 48 + d else 87 + d)).

Definition hex_word (w : Z) : string :=
  fold_right (fun i acc => String (hex_digit (Z.shiftr w (4 * i) mod 16)) acc)
             EmptyString [7; 6; 5; 4; 3; 2; 1; 0].

Definition hex (msg : list byte) : string :=
  fold_right (fun w acc => hex_word w +:+ acc) EmptyString
             (digest (map (fun b => Z.of_N (Byte.to_N b)) msg)).

End SHA256.

(** ** JavaScript values the handler touches *)

(** A JSON value as [JSON.parse] builds it.  A number is kept as the decimal
    it was read from, [JNum m e] standing for [m * 10^e]; the handler never
    computes with the numbers of a reply.  One number has several such
    decimals ([JNum 10050 (-2)] and [JNum 1005 (-1)] are both 100.5), so
    replies are compared with [same_value] below rather than with [=].  An
    object keeps its members in order. *)
#[local] Unset Elimination Schemes.
Inductive JSON : Type :=
| JNull
| JBool (b : bool)
| JNum (m e : Z)
| JStr (s : string)
| JArr (xs : list JSON)
| JObj (members : list (string * JSON)).
#[local] Set Elimination Schemes.

(** What a [catch] clause receives.  The handler reads only [status] and
    [statusText], both through [?.], so any of them may be missing. *)
Record JsError := mkError {
  err_status : option Z;
  err_statusText : option string;
  err_message : string
}.

Inductive Try (A : Type) : Type :=
| Resolved (a : A)
| Rejected (e : JsError).
Arguments Resolved {A} a.
Arguments Rejected {A} e.

(** [x || d] on a possibly missing number and on a possibly missing string. *)
Definition num_or (x : option Z) (d : Z) : Z :=
  match x with
  | Some n => if n =? 0 then d else n
  | None => d
  end.

Definition str_or (x : option string) (d : string) : string :=
  match x with
  | Some s => if String.eqb s "" then d else s
  | None => d
  end.

Definition truthy (s : string) : bool := negb (String.eqb s "").

Definition dq : string := String (ascii_of_nat 34) EmptyString.
Definition nl : string := String (ascii_of_nat 10) EmptyString.
Definition q (s : string) : string := dq +:+ s +:+ dq.

(** [s.replace(/pat/g, '')] for a literal, non-empty [pat]: matches are
    found left to right and do not overlap.  [skip] counts the characters of
    the current match still to be dropped. *)
Fixpoint remove_all_from (pat : string) (skip : nat) (s : string) : string :=
  match s with
  | EmptyString => EmptyString
  | String c rest =>
      match skip with
      | S k => remove_all_from pat k rest
      | O =>
          if String.prefix pat s
          then remove_all_from pat (Nat.pred (String.length pat)) rest
          else String c (remove_all_from pat O rest)
      end
  end.

Definition remove_all (pat s : string) : string := remove_all_from pat O s.

(** [String.prototype.trim]: white space and line terminators of ECMAScript,
    read on the UTF-8 bytes of the string. *)
Definition ascii_space (c : ascii) : bool :=
  let n := nat_of_ascii c in
  ((9 <=? n) && (n <=? 13))%nat || (n =? 32)%nat.

Definition space2 (a b : ascii) : bool :=
  ((nat_of_ascii a =? 194) && (nat_of_ascii b =? 160))%nat.          (* U+00A0 *)

Definition space3 (a b c : ascii) : bool :=
  let '(x, y, z) := (nat_of_ascii a, nat_of_ascii b, nat_of_ascii c) in
  ((x =? 225) && (y =? 154) && (z =? 128)                            (* U+1680 *)
   || (x =? 226) && (y =? 128)
      && ((128 <=? z) && (z <=? 138)                                 (* U+2000-200A *)
          || (z =? 168) || (z =? 169) || (z =? 175))                 (* U+2028 2029 202F *)
   || (x =? 226) && (y =? 129) && (z =? 159)                         (* U+205F *)
   || (x =? 227) && (y =? 128) && (z =? 128)                         (* U+3000 *)
   || (x =? 239) && (y =? 187) && (z =? 191))%nat.                   (* U+FEFF *)

Fixpoint trimStart (s : string) : string :=
  match s with
  | String a r1 =>
      if ascii_space a then trimStart r1
      else match r1 with
           | String b r2 =>
               if space2 a b then trimStart r2
               else match r2 with
                    | String c r3 => if space3 a b c then trimStart r3 else s
                    | EmptyString => s
                    end
           | EmptyString => s
           end
  | EmptyString => s
  end.

(** The same scan from the end, on the reversed bytes. *)
Fixpoint trimStart_rev (s : string) : string :=
  match s with
  | String a r1 =>
      if ascii_space a then trimStart_rev r1
      else match r1 with
           | String b r2 =>
               if space2 b a then trimStart_rev r2
               else match r2 with
                    | String c r3 => if space3 c b a then trimStart_rev r3 else s
                    | EmptyString => s
                    end
           | EmptyString => s
           end
  | EmptyString => s
  end.

Definition trimEnd (s : string) : string := String.rev (trimStart_rev (String.rev s)).
Definition trim (s : string) : string := trimEnd (trimStart s).

(** ** Requests, responses and the events of a run *)

Record File := mkFile {
  originalname : string;
  mimetype : string;
  buffer : list byte
}.

(** [req.file] is what multer's [upload.single('billImage')] leaves: absent
    when the form has no such part. *)
Record Request := mkRequest { file : option File }.

Inductive Body : Type :=
| Send (text : string)
| Json (v : JSON).

Record Response := mkResponse { res_status : Z; res_body : Body }.

Record GenerativeModel := mkModel { model : string }.

(** [result.response.text()] may itself throw. *)
Record GenerateContentResult := mkResult { response_text : Try string }.

Inductive Level := LLog | LWarn | LError.

Inductive ConsoleArg : Type :=
| AStr (s : string)
| ANum (n : Z)
| AErr (e : JsError)
| AUndefined.

Inductive Event : Type :=
| EvReadFile (path : string) (r : Try string)
| EvWriteFile (path : string) (data : list byte) (r : Try unit)
| EvSharp (input : list byte) (r : Try (list byte))
| EvCreateWorker (lang : string) (r : Try unit)
| EvRecognize (image : list byte) (r : Try string)
| EvTerminate (r : Try unit)
| EvGenerateContent (name : string) (prompt : string) (r : Try GenerateContentResult)
| EvConsole (lvl : Level) (args : list ConsoleArg).

(** The collaborators of the handler.  Those that do I/O answer from the
    history of the run so far, so the same call may be answered differently
    at different times. *)
Record Env := mkEnv {
  GEMINI_MODEL : option string;
  sharp : list Event -> list byte -> Try (list byte);
  createWorker : list Event -> string -> Try unit;
  recognize : list Event -> list byte -> Try string;
  terminate : list Event -> Try unit;
  getGenerativeModel : string -> Try GenerativeModel;
  generateContent : list Event -> GenerativeModel -> string -> Try GenerateContentResult;
  writeFile_error : list Event -> string -> list byte -> option JsError;
  JSON_parse : string -> option JSON;
  JSON_stringify : JSON -> string
}.

(** The [uploads/] directory and the history of events, oldest first. *)
Record World := mkWorld {
  files : gmap string (list byte);
  trace : list Event
}.

Definition log (e : Event) (w : World) : World :=
  {| files := files w; trace := trace w ++ [e] |}.

(** ** The monad of the handler: state, early return, exceptions *)

Inductive Completion (A : Type) : Type :=
| Normal (a : A)
| Return (r : Response)
| Throw (e : JsError).
Arguments Normal {A} a.
Arguments Return {A} r.
Arguments Throw {A} e.

Definition M (A : Type) : Type := World -> Completion A * World.

Definition ret {A} (a : A) : M A := fun w => (Normal a, w).
Definition return_ {A} (r : Response) : M A := fun w => (Return r, w).
Definition throw {A} (e : JsError) : M A := fun w => (Throw e, w).

Definition bind {A B} (m : M A) (k : A -> M B) : M B :=
  fun w =>
    match m w with
    | (Normal a, w') => k a w'
    | (Return r, w') => (Return r, w')
    | (Throw e, w') => (Throw e, w')
    end.

Definition try_catch {A} (body : M A) (handler : JsError -> M A) : M A :=
  fun w =>
    match body w with
    | (Throw e, w') => handler e w'
    | other => other
    end.

Declare Scope js_scope.
Delimit Scope js_scope with js.
Notation "x <- c1 ;; c2" := (bind c1 (fun x => c2))
  (at level 100, c1 at next level, right associativity) : js_scope.
Notation "c1 ;; c2" := (bind c1 (fun _ => c2))
  (at level 100, right associativity) : js_scope.
Local Open Scope js_scope.

Definition settle {A} (r : Try A) : Completion A :=
  match r with
  | Resolved a => Normal a
  | Rejected e => Throw e
  end.

(** An awaited call that settles: the answer is taken from the history,
    logged, and either continues or throws.  A call that never settles has
    no outcome in [Try]; the handler sets no timeout, so a run with such a
    call sends no reply and is not described here. *)
Definition await {A} (answer : list Event -> Try A) (ev : Try A -> Event) : M A :=
  fun w => let r := answer (trace w) in (settle r, log (ev r) w).

Definition lift {A} (r : Try A) : M A := fun w => (settle r, w).

Definition emit (e : Event) : M unit := fun w => (Normal tt, log e w).

Definition console (lvl : Level) (args : list ConsoleArg) : M unit :=
  emit (EvConsole lvl args).

Definition ENOENT : JsError :=
  mkError None None "ENOENT: no such file or directory".

Definition readFile (path : string) : M string :=
  fun w =>
    let r := match files w !! path with
             | Some bytes => Resolved (string_of_list_byte bytes)
             | None => Rejected ENOENT
             end in
    (settle r, log (EvReadFile path r) w).

(** [fs.writeFile]: a write that resolves leaves [data] under [path].  A
    write that is rejected is taken to fail when the file is opened, the
    store staying as it was; a write that fails after the open would leave
    an empty or a shorter file under [path], and only there. *)
Definition writeFile (env : Env) (path : string) (data : list byte) : M unit :=
  fun w =>
    match writeFile_error env (trace w) path data with
    | Some e => (Throw e, log (EvWriteFile path data (Rejected e)) w)
    | None =>
        (Normal tt,
         {| files := <[path := data]> (files w);
            trace := trace w ++ [EvWriteFile path data (Resolved tt)] |})
    end.

Definition SyntaxError : JsError := mkError None None "SyntaxError".

Definition parse (env : Env) (text : string) : M JSON :=
  match JSON_parse env text with
  | Some v => ret v
  | None => throw SyntaxError
  end.

(** ** The handler of [POST /extract-amounts] *)

Definition defaults : list string :=
  [ "gemini-1.5-flash-8b"; "gemini-1.5-flash-8b-latest";
    "gemini-1.5-pro"; "gemini-1.5-pro-latest" ].

(** [envModel ? [envModel, ...defaults] : defaults] *)
Definition modelCandidates (env : Env) : list string :=
  match GEMINI_MODEL env with
  | Some envModel => if truthy envModel then envModel :: defaults else defaults
  | None => defaults
  end.

(** The first loop: the first candidate for which [getGenerativeModel] does
    not throw; the pair is ([model], [lastInitError]). *)
Fixpoint initModel (env : Env) (names : list string) (lastInitError : option JsError)
  : option GenerativeModel * option JsError :=
  match names with
  | [] => (None, lastInitError)
  | name :: rest =>
      match getGenerativeModel env name with
      | Resolved m => (Some m, lastInitError)
      | Rejected e => initModel env rest (Some e)
      end
  end.

Definition prompt (ocrText : string) : string :=
  String.concat nl
    [ "You are an expert financial data extraction AI specializing in medical documents.";
      "Your task is to extract financial amounts from the following text, which may contain OCR errors.";
      "";
      "Instructions:";
      "1. Correct any obvious OCR errors in numbers (e.g., 'l' should be '1', 'O' should be '0').";
      "2. Identify the currency (look for symbols like $, â‚¹, INR, USD, EUR, etc.). Default to "
        +:+ q "INR" +:+ " if unclear.";
      "3. Extract amounts for: " +:+ q "total_bill" +:+ ", " +:+ q "paid" +:+ ", " +:+ q "due"
        +:+ ". Look for keywords like Total, Subtotal, Amount Due, Paid, Balance, etc.";
      "4. For each amount found, include the exact source text from the document.";
      "5. If you cannot find a value for a specific type, do not include it in the amounts array.";
      "6. Your response MUST be a single, valid JSON object in this exact format:";
      "";
      "{";
      "  " +:+ q "currency" +:+ ": " +:+ q "[detected currency code]" +:+ ",";
      "  " +:+ q "amounts" +:+ ": [";
      "    {" +:+ q "type" +:+ ":" +:+ q "total_bill" +:+ "," +:+ q "value" +:+ ":[number],"
        +:+ q "source" +:+ ":" +:+ q "text: '[exact text from document]'" +:+ "},";
      "    {" +:+ q "type" +:+ ":" +:+ q "paid" +:+ "," +:+ q "value" +:+ ":[number],"
        +:+ q "source" +:+ ":" +:+ q "text: '[exact text from document]'" +:+ "},";
      "    {" +:+ q "type" +:+ ":" +:+ q "due" +:+ "," +:+ q "value" +:+ ":[number],"
        +:+ q "source" +:+ ":" +:+ q "text: '[exact text from document]'" +:+ "}";
      "  ],";
      "  " +:+ q "status" +:+ ":" +:+ q "ok";
      "}";
      "";
      "Do not include markdown formatting, explanations, or any text outside the JSON.";
      "";
      "Text to analyze:";
      "---";
      ocrText;
      "---";
      "";
      "JSON Output:" ].

Definition opt_arg (e : option JsError) : ConsoleArg :=
  match e with
  | Some e => AErr e
  | None => AUndefined
  end.

Definition opt_str_arg (s : option string) : ConsoleArg :=
  match s with
  | Some s => AStr s
  | None => AUndefined
  end.

(** Lines 105-109: binarise the image and read its text. *)
Definition recognizeText (env : Env) (buf : list byte) : M string :=
  processedImageBuffer <- await (fun h => sharp env h buf) (EvSharp buf);;
  await (fun h => createWorker env h "eng") (EvCreateWorker "eng");;
  ocrText <- await (fun h => recognize env h processedImageBuffer)
                   (EvRecognize processedImageBuffer);;
  await (terminate env) EvTerminate;;
  ret ocrText.

Definition initFailed : Response :=
  mkResponse 502 (Json (JObj
    [("error", JStr "LLM initialization failed. Please verify model access in Google AI Studio and try again.")])).

(** Lines 122-136. *)
Definition chooseModel (env : Env) (candidates : list string) : M GenerativeModel :=
  let '(model_, lastInitError) := initModel env candidates None in
  match model_ with
  | None =>
      console LError [AStr "Failed to initialize any Gemini model"; opt_arg lastInitError];;
      return_ initFailed
  | Some m =>
      console LLog [AStr "Using Gemini model:";
                    if truthy (model m) then AStr (model m)
                    else opt_str_arg (List.find truthy candidates)];;
      ret m
  end.

Definition rateLimitHint : string := "Rate limit exceeded. Please retry after some time.".
Definition accessHint : string := "Check API key and model name or permissions in AI Studio.".

(** The reply of lines 188-193. *)
Definition llmFailed (status : Z) (statusText : string) : Response :=
  mkResponse (if status =? 429 then 429 else 502)
    (Json (JObj [ ("error", JStr "LLM call failed");
                  ("status", JNum status 0);
                  ("statusText", JStr statusText);
                  ("hint", JStr (if status =? 429 then rateLimitHint else accessHint)) ])).

(** The body of the [try] of lines 173-177. *)
Definition attempt (env : Env) (name prompt : string) : M string :=
  m <- lift (getGenerativeModel env name);;
  result <- await (fun h => generateContent env h m prompt) (EvGenerateContent name prompt);;
  text <- lift (response_text result);;
  console LLog [AStr "Gemini generateContent succeeded with model:"; AStr name];;
  ret text.

Definition status_of (llmErr : JsError) : Z := num_or (err_status llmErr) 502.
Definition statusText_of (llmErr : JsError) : string := str_or (err_statusText llmErr) "LLM error".

Definition warnFailed (name : string) (llmErr : JsError) : Event :=
  EvConsole LWarn [AStr "LLM call failed for model"; AStr name;
                   ANum (status_of llmErr); AStr (statusText_of llmErr)].

(** Lines 171-195.  [vars] is ([llmResponse], [selectedModelName]); the
    [try] yields [Some] of the new variables on [break] and [None] on
    [continue]. *)
Fixpoint generateLoop (env : Env) (prompt : string) (names : list string)
    (vars : option string * string) : M (option string * string) :=
  match names with
  | [] => ret vars
  | name :: rest =>
      next <- try_catch
                (text <- attempt env name prompt;;
                 ret (Some (Some text, name)))
                (fun llmErr =>
                   let status := status_of llmErr in
                   let statusText := statusText_of llmErr in
                   emit (warnFailed name llmErr);;
                   if status =? 404 then ret None
                   else return_ (llmFailed status statusText));;
      match next with
      | Some vars' => ret vars'
      | None => generateLoop env prompt rest vars
      end
  end.

Definition noAccessibleModel : Response :=
  mkResponse 404 (Json (JObj
    [("error", JStr "No accessible Gemini model found for your API key/region. Set GEMINI_MODEL in .env to a model you can access (e.g., gemini-1.5-pro, gemini-1.5-flash-8b) and restart.")])).

Definition invalidFormat : Response :=
  mkResponse 500 (Send "Error: The AI returned an invalid format.").

(** [llmResponse.replace(/```json/g, '').replace(/```/g, '').trim()] *)
Definition clean (llmResponse : string) : string :=
  trim (remove_all "```" (remove_all "```json" llmResponse)).

(** Lines 202-211: the reply is cleaned and parsed; nothing else is checked. *)
Definition validate (env : Env) (llmResponse : string) : M JSON :=
  let cleanedResponse := clean llmResponse in
  try_catch (parse env cleanedResponse)
    (fun parseError =>
       console LError [AStr "Failed to parse LLM response as JSON:"; AStr llmResponse];;
       return_ invalidFormat).

(** Lines 213-215: the image, then the JSON text, under the fingerprint. *)
Definition persist (env : Env) (f : File) (imagePath jsonPath : string)
    (extractedData : JSON) : M unit :=
  writeFile env imagePath (buffer f);;
  writeFile env jsonPath (list_byte_of_string (JSON_stringify env extractedData)).

(** Lines 196-217: from the outcome of the loop to the reply. *)
Definition respond (env : Env) (f : File) (imagePath jsonPath : string)
    (llmResponse : option string) : M Response :=
  match llmResponse with
  | None => return_ noAccessibleModel
  | Some text =>
      if truthy text then
        extractedData <- validate env text;;
        persist env f imagePath jsonPath extractedData;;
        return_ (mkResponse 200 (Json extractedData))
      else return_ noAccessibleModel
  end.

(** Lines 103-195: from the upload to [llmResponse]. *)
Definition obtainReply (env : Env) (f : File) : M (option string) :=
  console LLog [AStr "Processing new image."];;
  ocrText <- recognizeText env (buffer f);;
  let candidates := modelCandidates env in
  m <- chooseModel env candidates;;
  vars <- generateLoop env (prompt ocrText) candidates
            (None, if truthy (model m) then model m else hd "" candidates);;
  ret (fst vars).

(** The [catch] branch of the cache lookup, lines 102-218. *)
Definition processNewImage (env : Env) (f : File) (imagePath jsonPath : string) : M Response :=
  llmResponse <- obtainReply env f;;
  respond env f imagePath jsonPath llmResponse.

Definition imagePath_of (hash : string) : string := "uploads/" +:+ hash +:+ ".png".
Definition jsonPath_of (hash : string) : string := "uploads/" +:+ hash +:+ ".json".

(** Lines 97-100: the cached reply, if it is there and parses. *)
Definition cached (env : Env) (jsonPath : string) : M Response :=
  cachedJson <- readFile jsonPath;;
  console LLog [AStr "Returning cached JSON result."];;
  v <- parse env cachedJson;;
  return_ (mkResponse 200 (Json v)).

Definition noFile : Response := mkResponse 400 (Send "No file uploaded.").
Definition processingFailed : Response := mkResponse 500 (Send "Failed to process image.").

Definition extract_amounts (env : Env) (req : Request) : M Response :=
  match file req with
  | None => return_ noFile
  | Some f =>
      try_catch
        (let hash := SHA256.hex (buffer f) in
         let imagePath := imagePath_of hash in
         let jsonPath := jsonPath_of hash in
         try_catch (cached env jsonPath)
                   (fun error => processNewImage env f imagePath jsonPath))
        (fun error =>
           console LError [AStr "Error processing image:"; AErr error];;
           return_ processingFailed)
  end.

(** ** A JSON reader and printer for the example runs

    The handler takes [JSON.parse] and [JSON.stringify] from its
    environment.  The runs computed below use this reader of the JSON
    grammar (objects, arrays, strings with their escapes, decimal numbers,
    literals) and this printer with an indent of two spaces. *)

Module JsonText.

Definition code (c : ascii) : Z := Z.of_nat (nat_of_ascii c).
Definition chr (n : Z) : ascii := ascii_of_nat (Z.to_nat n).

Definition is_ws (c : ascii) : bool :=
  (code c =? 32) || (code c =? 9) || (code c =? 10) || (code c =? 13).

Fixpoint skip_ws (s : string) : string :=
  match s with
  | String c r => if is_ws c then skip_ws r else s
  | EmptyString => s
  end.

Definition digit (c : ascii) : option Z :=
  if (48 <=? code c) && (code c <=? 57) then Some (code c - 48) else None.

Definition hexdigit (c : ascii) : option Z :=
  let n := code c in
  if (48 <=? n) && (n <=? 57) then Some (n - 48)
  else if (97 <=? n) && (n <=? 102) then Some (n - 87)
  else if (65 <=? n) && (n <=? 70) then Some (n - 55)
  else None.

(** A maximal run of digits: the number read so far, how many digits, the rest. *)
Fixpoint digits (acc count : Z) (s : string) : Z * Z * string :=
  match s with
  | String c r =>
      match digit c with
      | Some d => digits (acc * 10 + d) (count + 1) r
      | None => (acc, count, s)
      end
  | EmptyString => (acc, count, s)
  end.

Definition starts_with (c : Z) (s : string) : bool :=
  match s with
  | String a _ => code a =? c
  | EmptyString => false
  end.

Definition tail (s : string) : string :=
  match s with
  | String _ r => r
  | EmptyString => s
  end.

Definition fraction (int : Z) (s : string) : option (Z * Z * string) :=
  if starts_with 46 s then
    let '(m, n, r) := digits int 0 (tail s) in
    if n =? 0 then None else Some (m, n, r)
  else Some (int, 0, s).

Definition exponent (s : string) : option (Z * string) :=
  if starts_with 101 s || starts_with 69 s then
    let s1 := tail s in
    let neg := starts_with 45 s1 in
    let s2 := if neg || starts_with 43 s1 then tail s1 else s1 in
    let '(x, n, r) := digits 0 0 s2 in
    if n =? 0 then None else Some (if neg then - x else x, r)
  else Some (0, s).

Definition number (s : string) : option (JSON * string) :=
  let neg := starts_with 45 s in
  let s1 := if neg then tail s else s in
  let '(int, n, s2) := digits 0 0 s1 in
  if (n =? 0) || (starts_with 48 s1 && (1 <? n)) then None
  else
    '(m, nf, s3) ← fraction int s2;
    '(x, s4) ← exponent s3;
    Some (JNum (if neg then - m else m) (x - nf), s4).

(** The UTF-8 bytes of a code point of the basic plane. *)
Definition utf8 (cp : Z) (rest : string) : option string :=
  if cp <? 128 then Some (String (chr cp) rest)
  else if cp <? 2048 then
    Some (String (chr (192 + cp / 64)) (String (chr (128 + cp mod 64)) rest))
  else if (55296 <=? cp) && (cp <=? 57343) then None
  else
    Some (String (chr (224 + cp / 4096))
           (String (chr (128 + (cp / 64) mod 64))
             (String (chr (128 + cp mod 64)) rest))).

Definition escape (e : ascii) : option ascii :=
  let n := code e in
  if (n =? 34) || (n =? 92) || (n =? 47) then Some e
  else if n =? 98 then Some (chr 8)
  else if n =? 102 then Some (chr 12)
  else if n =? 110 then Some (chr 10)
  else if n =? 114 then Some (chr 13)
  else if n =? 116 then Some (chr 9)
  else None.

(** The characters of a string after its opening quote, and what follows
    the closing quote. *)
Fixpoint string_body (s : string) : option (string * string) :=
  match s with
  | EmptyString => None
  | String c r =>
      if code c =? 34 then Some (EmptyString, r)
      else if code c =? 92 then
        match r with
        | String e r1 =>
            if code e =? 117 then
              match r1 with
              | String h1 (String h2 (String h3 (String h4 r2))) =>
                  a ← hexdigit h1; b ← hexdigit h2; c ← hexdigit h3; d ← hexdigit h4;
                  '(body, after) ← string_body r2;
                  body' ← utf8 (((a * 16 + b) * 16 + c) * 16 + d) body;
                  Some (body', after)
              | _ => None
              end
            else
              x ← escape e;
              '(body, after) ← string_body r1;
              Some (String x body, after)
        | EmptyString => None
        end
      else if code c <? 32 then None
      else
        '(body, after) ← string_body r;
        Some (String c body, after)
  end.

(** A later member with the same key replaces the value of the earlier one. *)
Fixpoint set_member (k : string) (v : JSON) (ms : list (string * JSON))
  : list (string * JSON) :=
  match ms with
  | [] => [(k, v)]
  | (k', v') :: rest =>
      if String.eqb k k' then (k, v) :: rest else (k', v') :: set_member k v rest
  end.

Definition literal (word : string) (v : JSON) (s : string) : option (JSON * string) :=
  if String.prefix word s
  then Some (v, String.substring (String.length word) (String.length s) s)
  else None.

Fixpoint value (fuel : nat) (s : string) : option (JSON * string) :=
  match fuel with
  | O => None
  | S fuel' =>
      let s0 := skip_ws s in
      match s0 with
      | EmptyString => None
      | String c r =>
          if code c =? 123 then
            if starts_with 125 (skip_ws r) then Some (JObj [], tail (skip_ws r))
            else '(ms, after) ← members fuel' [] r; Some (JObj ms, after)
          else if code c =? 91 then
            if starts_with 93 (skip_ws r) then Some (JArr [], tail (skip_ws r))
            else '(xs, after) ← elements fuel' r; Some (JArr xs, after)
          else if code c =? 34 then
            '(body, after) ← string_body r; Some (JStr body, after)
          else if code c =? 116 then literal "true" (JBool true) s0
          else if code c =? 102 then literal "false" (JBool false) s0
          else if code c =? 110 then literal "null" JNull s0
          else number s0
      end
  end
with elements (fuel : nat) (s : string) : option (list JSON * string) :=
  match fuel with
  | O => None
  | S fuel' =>
      '(v, after) ← value fuel' s;
      let after' := skip_ws after in
      if starts_with 44 after' then
        '(vs, rest) ← elements fuel' (tail after'); Some (v :: vs, rest)
      else if starts_with 93 after' then Some ([v], tail after')
      else None
  end
with members (fuel : nat) (acc : list (string * JSON)) (s : string)
  : option (list (string * JSON) * string) :=
  match fuel with
  | O => None
  | S fuel' =>
      let s0 := skip_ws s in
      if starts_with 34 s0 then
        '(k, after) ← string_body (tail s0);
        let after' := skip_ws after in
        if starts_with 58 after' then
          '(v, rest) ← value fuel' (tail after');
          let acc' := set_member k v acc in
          let rest' := skip_ws rest in
          if starts_with 44 rest' then members fuel' acc' (tail rest')
          else if starts_with 125 rest' then Some (acc', tail rest')
          else None
        else None
      else None
  end.

Definition parse (s : string) : option JSON :=
  '(v, rest) ← value (2 * String.length s + 2) s;
  if String.eqb (skip_ws rest) "" then Some v else None.

(** *** Printing *)

Fixpoint nat_digits (fuel : nat) (n : Z) (acc : string) : string :=
  match fuel with
  | O => acc
  | S fuel' =>
      let acc' := String (chr (48 + n mod 10)) acc in
      if n <? 10 then acc' else nat_digits fuel' (n / 10) acc'
  end.

Definition show_nat (n : Z) : string := nat_digits (S (Z.to_nat (Z.log2 n))) n "".

Fixpoint strip_zeros (fuel : nat) (m e : Z) : Z * Z :=
  match fuel with
  | O => (m, e)
  | S fuel' =>
      if (e <? 0) && (m mod 10 =? 0) && negb (m =? 0)
      then strip_zeros fuel' (m / 10) (e + 1)
      else (m, e)
  end.

Fixpoint zeros (n : nat) : string :=
  match n with
  | O => ""
  | S n' => String "0" (zeros n')
  end.

(** A decimal as JavaScript prints it, for the numbers that print without
    an exponent. *)
Definition show_number (m e : Z) : string :=
  if m =? 0 then "0"
  else
    let sign := if m <? 0 then "-" else "" in
    let '(a, x) := strip_zeros (Z.to_nat (- e)) (Z.abs m) e in
    if 0 <=? x then sign +:+ show_nat (a * 10 ^ x)
    else
      let frac := show_nat (a mod 10 ^ (- x)) in
      sign +:+ show_nat (a / 10 ^ (- x)) +:+ "."
           +:+ zeros (Z.to_nat (- x) - String.length frac) +:+ frac.

Definition hex4 (n : Z) : string :=
  "00" +:+ String (SHA256.hex_digit (n / 16)) (String (SHA256.hex_digit (n mod 16)) "").

Fixpoint quote_body (s : string) : string :=
  match s with
  | EmptyString => dq
  | String c r =>
      let n := code c in
      (if n =? 34 then "\" +:+ dq
       else if n =? 92 then "\\"
       else if n =? 8 then "\b"
       else if n =? 12 then "\f"
       else if n =? 10 then "\n"
       else if n =? 13 then "\r"
       else if n =? 9 then "\t"
       else if n <? 32 then "\u" +:+ hex4 n
       else String c "") +:+ quote_body r
  end.

Definition quote (s : string) : string := dq +:+ quote_body s.

Fixpoint spaces (n : nat) : string :=
  match n with
  | O => ""
  | S n' => String " " (spaces n')
  end.

(** [JSON.stringify(v, null, 2)], the current indent being [ind]. *)
Fixpoint show (ind : nat) (v : JSON) : string :=
  match v with
  | JNull => "null"
  | JBool b => if b then "true" else "false"
  | JNum m e => show_number m e
  | JStr s => quote s
  | JArr [] => "[]"
  | JArr xs =>
      "[" +:+ nl
      +:+ (fix items (l : list JSON) : string :=
             match l with
             | [] => ""
             | x :: l' =>
                 spaces (ind + 2) +:+ show (ind + 2) x
                 +:+ match l' with [] => "" | _ => "," +:+ nl +:+ items l' end
             end) xs
      +:+ nl +:+ spaces ind +:+ "]"
  | JObj [] => "{}"
  | JObj ms =>
      "{" +:+ nl
      +:+ (fix items (l : list (string * JSON)) : string :=
             match l with
             | [] => ""
             | (k, x) :: l' =>
                 spaces (ind + 2) +:+ quote k +:+ ": " +:+ show (ind + 2) x
                 +:+ match l' with [] => "" | _ => "," +:+ nl +:+ items l' end
             end) ms
      +:+ nl +:+ spaces ind +:+ "}"
  end.

Definition stringify (v : JSON) : string := show 0 v.

(** A text written with ['] for the double quote, for readable examples. *)
Fixpoint sq (s : string) : string :=
  match s with
  | EmptyString => EmptyString
  | String c r => String (if code c =? 39 then chr 34 else c) (sq r)
  end.

End JsonText.

(** ** Example worlds *)

Module Fixture.

Definition failure (status : Z) (statusText : string) : JsError :=
  mkError (Some status) (Some statusText) "GoogleGenerativeAIFetchError".

Definition notFound : JsError := failure 404 "Not Found".
Definition tooMany : JsError := failure 429 "Too Many Requests".
Definition blocked : JsError := mkError None None "Response was blocked".
Definition EACCES : JsError := mkError None None "EACCES: permission denied".

Definition answers (text : string) : Try GenerateContentResult :=
  Resolved (mkResult (Resolved text)).

(** An environment whose OCR reads [ocr], whose model [name] answers
    [llm name], and whose write to [path] fails with [wr path]. *)
Definition env_of (ocr : string) (llm : string -> Try GenerateContentResult)
    (wr : string -> option JsError) : Env :=
  {| GEMINI_MODEL := None;
     sharp := fun _ buf =>
       match buf with
       | [] => Rejected (mkError None None "Input Buffer is empty")
       | _ => Resolved buf
       end;
     createWorker := fun _ _ => Resolved tt;
     recognize := fun _ _ => Resolved ocr;
     terminate := fun _ => Resolved tt;
     getGenerativeModel := fun name => Resolved (mkModel ("models/" +:+ name));
     generateContent := fun _ m _ => llm (model m);
     writeFile_error := fun _ path _ => wr path;
     JSON_parse := JsonText.parse;
     JSON_stringify := JsonText.stringify |}.

Definition bill : File :=
  mkFile "bill.png" "image/png" (list_byte_of_string "scan of a bill").

Definition emptyUpload : File := mkFile "empty.png" "image/png" [].

Definition fresh : World := mkWorld ∅ [].

Definition ocrText : string := "Total: $100 Paid: $60 Due: $40".

Definition replyOk : string := JsonText.sq
  "{'currency':'USD','amounts':[{'type':'total_bill','value':100,'source':'text: Total: $100'},{'type':'paid','value':60,'source':'text: Paid: $60'},{'type':'due','value':40,'source':'text: Due: $40'}],'status':'ok'}".

Definition replyNoDue : string := JsonText.sq
  "{'currency':'USD','amounts':[{'type':'total_bill','value':100,'source':'text: Total: $100'},{'type':'paid','value':60,'source':'text: Paid: $60'}],'status':'ok'}".

(** A fenced reply with a kind outside [total_bill], [paid], [due]. *)
Definition replyTax : string :=
  "```json" +:+ nl +:+ JsonText.sq
  "{'currency':'USD','amounts':[{'type':'tax','kind':'tax','value':5,'source':'text: Tax: $5'}],'status':'ok'}"
  +:+ nl +:+ "```".

Definition always (r : Try GenerateContentResult) : string -> Try GenerateContentResult :=
  fun _ => r.

(** The first default model is not there, the second answers [r]. *)
Definition second (r : Try GenerateContentResult) : string -> Try GenerateContentResult :=
  fun name => if String.eqb name "models/gemini-1.5-flash-8b" then Rejected notFound else r.

Definition writable : string -> option JsError := fun _ => None.
Definition readonly : string -> option JsError := fun _ => Some EACCES.

(** Only the image can be written. *)
Definition jsonFails : string -> option JsError :=
  fun path => if String.prefix ".json" (String.substring (String.length path - 5) 5 path)
              then Some EACCES else None.

Definition request : Request := mkRequest (Some bill).
Definition emptyRequest : Request := mkRequest (Some emptyUpload).
Definition p : string := prompt ocrText.

Definition envOk : Env := env_of ocrText (always (answers replyOk)) writable.
Definition envNoDue : Env := env_of ocrText (always (answers replyNoDue)) writable.
Definition envTax : Env := env_of ocrText (always (answers replyTax)) writable.
Definition envSecondAnswers : Env := env_of ocrText (second (answers replyOk)) writable.
Definition envSecondLimited : Env := env_of ocrText (second (Rejected tooMany)) writable.
Definition envLimited : Env := env_of ocrText (always (Rejected tooMany)) writable.
Definition envNotFound : Env := env_of ocrText (always (Rejected notFound)) writable.
Definition envBlocked : Env := env_of ocrText (always (Rejected blocked)) writable.
Definition envReadonly : Env := env_of ocrText (always (answers replyOk)) readonly.
Definition envJsonFails : Env := env_of ocrText (always (answers replyOk)) jsonFails.

(** The value of [replyOk], and the world after a first, successful run. *)
Definition parsedOk : JSON := default JNull (JsonText.parse replyOk).
Definition afterOk : World := snd (extract_amounts envOk request fresh).

End Fixture.

(** ** What the specification asks of a reply

    Written after the specification of the validator, to be compared with
    what [validate] does: a [currency] string, an [amounts] array and a
    [status]; in each entry a kind among the three known ones, a numeric
    [value] and a non-empty [source].  The reply schema of the route calls
    the kind of an entry [type]; [kindKey] is the name under which it is
    looked up. *)

Definition member (k : string) (v : JSON) : option JSON :=
  match v with
  | JObj ms => snd <$> List.find (fun kv => String.eqb (fst kv) k) ms
  | _ => None
  end.

Definition recognizedKind (k : string) : bool :=
  String.eqb k "total_bill" || String.eqb k "paid" || String.eqb k "due".

Definition spec_entry_ok (kindKey : string) (entry : JSON) : bool :=
  match member kindKey entry, member "value" entry, member "source" entry with
  | Some (JStr k), Some (JNum _ _), Some (JStr src) => recognizedKind k && truthy src
  | _, _, _ => false
  end.

Definition spec_shape_ok (kindKey : string) (v : JSON) : bool :=
  match member "currency" v, member "amounts" v, member "status" v with
  | Some (JStr _), Some (JArr entries), Some _ => forallb (spec_entry_ok kindKey) entries
  | _, _, _ => false
  end.

(** ** Observations on a run *)

Definition is_write (e : Event) : bool :=
  match e with EvWriteFile _ _ _ => true | _ => false end.

Definition is_storage (e : Event) : bool :=
  match e with EvReadFile _ _ | EvWriteFile _ _ _ => true | _ => false end.

Definition is_recognition (e : Event) : bool :=
  match e with
  | EvSharp _ _ | EvCreateWorker _ _ | EvRecognize _ _ | EvTerminate _ => true
  | _ => false
  end.

Definition is_invocation (e : Event) : bool :=
  match e with EvGenerateContent _ _ _ => true | _ => false end.

(** The candidates for which [generateContent] was called, in order. *)
Definition calls (t : list Event) : list string :=
  omap (fun e => match e with EvGenerateContent name _ _ => Some name | _ => None end) t.

(** The events a run added to the history. *)
Definition since (w w' : World) : list Event := drop (length (trace w)) (trace w').

(** [advance env prompt names w = Some w']: each candidate of [names], tried
    in turn from [w] as the loop does, failed with status 404, and the last
    warning left the world [w']. *)
Fixpoint advance (env : Env) (prompt : string) (names : list string) (w : World)
  : option World :=
  match names with
  | [] => Some w
  | name :: rest =>
      match attempt env name prompt w with
      | (Throw e, w1) =>
          if status_of e =? 404
          then advance env prompt rest (log (warnFailed name e) w1)
          else None
      | _ => None
      end
  end.

(** The store is as it was and the history grew by events that are not
    writes. *)
Definition quiet (w w' : World) : Prop :=
  files w' = files w
  /\ exists evs, trace w' = trace w ++ evs /\ Forall (fun e => is_write e = false) evs.

Definition Quiet {A} (m : M A) : Prop :=
  forall w c w', m w = (c, w') -> quiet w w'.

(** Whether [needle] occurs in [s]. *)
Fixpoint contains (needle s : string) : bool :=
  String.prefix needle s
  || match s with
     | String _ r => contains needle r
     | EmptyString => false
     end.

(** ** Further observations on the stages *)

(** [Emits P m]: the events [m] adds to the history all satisfy [P]. *)
Definition Emits (P : Event -> bool) {A} (m : M A) : Prop :=
  forall w c w', m w = (c, w') ->
    exists evs, trace w' = trace w ++ evs /\ Forall (fun e => P e = true) evs.

(** [Answers P m]: if [m] answers the request, the reply satisfies [P]. *)
Definition Answers (P : Response -> Prop) {A} (m : M A) : Prop :=
  forall w c w', m w = (c, w') -> forall r, c = Return r -> P r.

Definition quiet_line (e : Event) : bool := negb (is_invocation e) && negb (is_write e).

(** The statuses the route can answer with. *)
Definition route_status (s : Z) : Prop :=
  s = 200 \/ s = 400 \/ s = 404 \/ s = 429 \/ s = 500 \/ s = 502.

Fixpoint no_backtick (s : string) : bool :=
  match s with
  | EmptyString => true
  | String c r => negb (nat_of_ascii c =? 96)%nat && no_backtick r
  end.

(** A reply wrapped in a Markdown fence, as the models tend to send it. *)
Definition fenced (body : string) : string :=
  "```json" +:+ nl +:+ body +:+ nl +:+ "```".

(** ** More example worlds *)

Module Scenario.

Definition serverError : JsError := Fixture.failure 500 "Internal Server Error".
Definition ocrCrash : JsError := mkError None None "Error: worker crashed".
Definition noKey : JsError := mkError None None "API key missing".

Definition envEmptyReply : Env :=
  Fixture.env_of Fixture.ocrText (Fixture.always (Fixture.answers "")) Fixture.writable.

Definition envServerError : Env :=
  Fixture.env_of Fixture.ocrText (Fixture.always (Rejected serverError)) Fixture.writable.

Definition envFenced : Env :=
  Fixture.env_of Fixture.ocrText
    (Fixture.always (Fixture.answers (fenced Fixture.replyOk))) Fixture.writable.

(** Tesseract fails on the image. *)
Definition envNoOcr : Env :=
  {| GEMINI_MODEL := None;
     sharp := fun _ buf => Resolved buf;
     createWorker := fun _ _ => Resolved tt;
     recognize := fun _ _ => Rejected ocrCrash;
     terminate := fun _ => Resolved tt;
     getGenerativeModel := fun name => Resolved (mkModel ("models/" +:+ name));
     generateContent := fun _ _ _ => Fixture.answers Fixture.replyOk;
     writeFile_error := fun _ _ _ => None;
     JSON_parse := JsonText.parse;
     JSON_stringify := JsonText.stringify |}.

(** The SDK refuses every model name; an override is set. *)
Definition envNoSdk : Env :=
  {| GEMINI_MODEL := Some "gemini-2.0-flash";
     sharp := fun _ buf => Resolved buf;
     createWorker := fun _ _ => Resolved tt;
     recognize := fun _ _ => Resolved Fixture.ocrText;
     terminate := fun _ => Resolved tt;
     getGenerativeModel := fun _ => Rejected noKey;
     generateContent := fun _ _ _ => Fixture.answers Fixture.replyOk;
     writeFile_error := fun _ _ _ => None;
     JSON_parse := JsonText.parse;
     JSON_stringify := JsonText.stringify |}.

(** The SDK knows only the two "pro" models. *)
Definition envProOnly : Env :=
  {| GEMINI_MODEL := None;
     sharp := fun _ buf => Resolved buf;
     createWorker := fun _ _ => Resolved tt;
     recognize := fun _ _ => Resolved Fixture.ocrText;
     terminate := fun _ => Resolved tt;
     getGenerativeModel := fun name =>
       if String.prefix "gemini-1.5-pro" name
       then Resolved (mkModel ("models/" +:+ name)) else Rejected noKey;
     generateContent := fun _ _ _ => Rejected Fixture.notFound;
     writeFile_error := fun _ _ _ => None;
     JSON_parse := JsonText.parse;
     JSON_stringify := JsonText.stringify |}.

(** An override that no account can reach, like the defaults. *)
Definition envOverride : Env :=
  {| GEMINI_MODEL := Some "gemini-1.5-pro";
     sharp := fun _ buf => Resolved buf;
     createWorker := fun _ _ => Resolved tt;
     recognize := fun _ _ => Resolved Fixture.ocrText;
     terminate := fun _ => Resolved tt;
     getGenerativeModel := fun name => Resolved (mkModel ("models/" +:+ name));
     generateContent := fun _ _ _ => Rejected Fixture.notFound;
     writeFile_error := fun _ _ _ => None;
     JSON_parse := JsonText.parse;
     JSON_stringify := JsonText.stringify |}.

Definition billJson : string :=
  "uploads/56784639c034e4c3c00dc4342168fae472ae0c0e0891d5724abd59055fa32e63.json".
Definition billPng : string :=
  "uploads/56784639c034e4c3c00dc4342168fae472ae0c0e0891d5724abd59055fa32e63.png".

(** A store whose entry for the bill was cut short. *)
Definition stale : World :=
  mkWorld {[ billJson := list_byte_of_string "{ currency: " ]} [].

(** A store that holds a result for the bill. *)
Definition warm : World :=
  mkWorld {[ billJson := list_byte_of_string Fixture.replyNoDue ]} [].

Definition parsedNoDue : JSON := default JNull (JsonText.parse Fixture.replyNoDue).

(** Another upload, and a store that holds its result. *)
Definition receipt : File :=
  mkFile "receipt.png" "image/png" (list_byte_of_string "scan of a receipt").
Definition receiptJson : string := jsonPath_of (SHA256.hex (buffer receipt)).
Definition busy : World :=
  mkWorld {[ receiptJson := list_byte_of_string Fixture.replyNoDue ]} [].

(** The world after the result of the bill has been stored once. *)
Definition stored : World :=
  snd (persist Fixture.envOk Fixture.bill billPng billJson Fixture.parsedOk Fixture.fresh).

End Scenario.

(** Every reply the loop sends is the one of lines 188-193 for a status
    other than 404. *)
Definition loopReply (r : Response) : Prop :=
  exists e, r = llmFailed (status_of e) (statusText_of e) /\ status_of e <> 404.

(** What the loop over [names] with [prompt] may add to the history: calls
    of a model of the list with that prompt, and log lines. *)
Definition loop_line (prompt : string) (names : list string) (e : Event) : bool :=
  match e with
  | EvGenerateContent name p _ => String.eqb p prompt && existsb (String.eqb name) names
  | EvConsole _ _ => true
  | _ => false
  end.

(** ** Worlds met in the example runs *)

Module Replay.

(** The broken entry has been read. *)
Definition staleRead : World :=
  log (EvConsole LLog [AStr "Returning cached JSON result."])
      (log (EvReadFile (jsonPath_of (SHA256.hex (buffer Fixture.bill)))
                       (Resolved (string_of_list_byte (list_byte_of_string "{ currency: "))))
           Scenario.stale).

(** The model has answered. *)
Definition staleReply : World :=
  snd (obtainReply Fixture.envOk Fixture.bill staleRead).

(** The new result has been stored. *)
Definition healed : World :=
  snd (persist Fixture.envOk Fixture.bill
               (imagePath_of (SHA256.hex (buffer Fixture.bill)))
               (jsonPath_of (SHA256.hex (buffer Fixture.bill)))
               Fixture.parsedOk staleReply).

End Replay.

(** ** Comparing replies

    Two values are the same JavaScript value when they differ at most in
    the decimal a number was read from: [JNum 10050 (-2)] and
    [JNum 1005 (-1)] are both 100.5. *)

Definition num_eq (m e m' e' : Z) : bool :=
  let k := Z.min e e' in
  m * 10 ^ (e - k) =? m' * 10 ^ (e' - k).

Fixpoint same_value (a b : JSON) : bool :=
  match a, b with
  | JNull, JNull => true
  | JBool x, JBool y => Bool.eqb x y
  | JNum m e, JNum m' e' => num_eq m e m' e'
  | JStr s, JStr t => String.eqb s t
  | JArr xs, JArr ys =>
      (fix all2 (l l' : list JSON) : bool :=
         match l, l' with
         | [], [] => true
         | x :: r, y :: r' => same_value x y && all2 r r'
         | _, _ => false
         end) xs ys
  | JObj ms, JObj ns =>
      (fix all2 (l l' : list (string * JSON)) : bool :=
         match l, l' with
         | [], [] => true
         | (k, x) :: r, (k', y) :: r' => String.eqb k k' && same_value x y && all2 r r'
         | _, _ => false
         end) ms ns
  | _, _ => false
  end.

(** [JSON.parse] reads back what [JSON.stringify] printed for [v], as the
    same value. *)
Definition round_trips (env : Env) (v : JSON) : bool :=
  match JSON_parse env (JSON_stringify env v) with
  | Some v' => same_value v v'
  | None => false
  end.

Definition is_recognize (e : Event) : bool :=
  match e with EvRecognize _ _ => true | _ => false end.

(** ** A reply with a decimal amount *)

Module Decimal.

Definition reply : string := JsonText.sq
  "{'currency':'USD','amounts':[{'type':'total_bill','value':100.50,'source':'text: Total: $100.50'},{'type':'paid','value':60,'source':'text: Paid: $60'},{'type':'due','value':40.50,'source':'text: Due: $40.50'}],'status':'ok'}".

Definition env : Env :=
  Fixture.env_of "Total: $100.50 Paid: $60 Due: $40.50"
                 (Fixture.always (Fixture.answers reply)) Fixture.writable.

(** The value of the reply, and the world after a first, successful run. *)
Definition parsed : JSON := default JNull (JsonText.parse reply).
Definition after : World := snd (extract_amounts env Fixture.request Fixture.fresh).

(** The same bytes, uploaded again under another name. *)
Definition copy : File := mkFile "bill-copy.png" "image/png" (buffer Fixture.bill).
Definition again : Request := mkRequest (Some copy).

End Decimal.



(** [Calm m]: whatever [m] does, the store is untouched, no write is even
    tried, and if [m] answers the request it is not with a 200. *)
Definition Calm {A} (m : M A) : Prop :=
  forall w c w', m w = (c, w') ->
    quiet w w' /\ forall r, c = Return r -> res_status r <> 200.

(** The line the outer [catch] logs. *)
Definition errorLogged (e : JsError) : Event :=
  EvConsole LError [AStr "Error processing image:"; AErr e].

#[local] Arguments SHA256.hex : simpl never.
#[local] Arguments jsonPath_of : simpl never.
#[local] Arguments imagePath_of : simpl never.
#[local] Arguments prompt : simpl never.

(** * Properties *)

(** A run that has ended: its outcome and world are the ones in the goal. *)
Ltac ended := let H := fresh "H" in intros H; injection H as <- <-.


(** ** The fingerprint on the usual test vectors *)

Example sha256_empty :
  SHA256.hex [] = "e3b0c44298fc1c149afbf4c8996fb92427ae41e4649b934ca495991b7852b855".
Proof. vm_compute. reflexivity. Qed.

Example sha256_abc :
  SHA256.hex (list_byte_of_string "abc")
  = "ba7816bf8f01cfea414140de5dae2223b00361a396177a9cb410ff61f20015ad".
Proof. vm_compute. reflexivity. Qed.

Example sha256_two_blocks :
  SHA256.hex (list_byte_of_string
     "abcdbcdecdefdefgefghfghighijhijkijkljklmklmnlmnomnopnopq")
  = "248d6a61d20638b8e5c026930c3e6039a33ce45964ff2167f6ecedd419db06c1".
Proof. vm_compute. reflexivity. Qed.

(** ** Running the monad *)

Section Run.
Context {A B : Type}.

Lemma bind_normal (m : M A) (k : A -> M B) w a w' :
  m w = (Normal a, w') -> bind m k w = k a w'.
Proof. intros H. unfold bind. rewrite H. reflexivity. Qed.

Lemma bind_return (m : M A) (k : A -> M B) w r w' :
  m w = (Return r, w') -> bind m k w = (Return r, w').
Proof. intros H. unfold bind. rewrite H. reflexivity. Qed.

Lemma bind_throw (m : M A) (k : A -> M B) w e w' :
  m w = (Throw e, w') -> bind m k w = (Throw e, w').
Proof. intros H. unfold bind. rewrite H. reflexivity. Qed.

Lemma try_catch_normal (m : M A) (h : JsError -> M A) w a w' :
  m w = (Normal a, w') -> try_catch m h w = (Normal a, w').
Proof. intros H. unfold try_catch. rewrite H. reflexivity. Qed.

Lemma try_catch_return (m : M A) (h : JsError -> M A) w r w' :
  m w = (Return r, w') -> try_catch m h w = (Return r, w').
Proof. intros H. unfold try_catch. rewrite H. reflexivity. Qed.

Lemma try_catch_throw (m : M A) (h : JsError -> M A) w e w' :
  m w = (Throw e, w') -> try_catch m h w = h e w'.
Proof. intros H. unfold try_catch. rewrite H. reflexivity. Qed.

End Run.

(** ** The fallback loop *)

Section Loop.
Variable env : Env.
Variable prompt : string.

(** The [try] block of the loop has no [return] of its own. *)
Lemma attempt_no_return name w r w' :
  attempt env name prompt w <> (Return r, w').
Proof.
  unfold attempt, bind, lift, await, console, emit, ret.
  destruct (getGenerativeModel env name); simpl; [|congruence].
  destruct (generateContent env (trace w) a prompt) as [[t]|]; simpl; [|congruence].
  destruct t; simpl; congruence.
Qed.

Lemma generateLoop_break name rest vars w text w1 :
  attempt env name prompt w = (Normal text, w1) ->
  generateLoop env prompt (name :: rest) vars w = (Normal (Some text, name), w1).
Proof.
  intros H. simpl. unfold bind at 1.
  rewrite (try_catch_normal _ _ w (Some (Some text, name)) w1); [reflexivity|].
  rewrite (bind_normal _ _ _ _ _ H). reflexivity.
Qed.

Lemma generateLoop_continue name rest vars w e w1 :
  attempt env name prompt w = (Throw e, w1) ->
  status_of e = 404 ->
  generateLoop env prompt (name :: rest) vars w
  = generateLoop env prompt rest vars (log (warnFailed name e) w1).
Proof.
  intros H Hs. simpl. unfold bind at 1.
  rewrite (try_catch_throw _ _ w e w1); [|rewrite (bind_throw _ _ _ _ _ H); reflexivity].
  unfold bind, emit. rewrite Hs. reflexivity.
Qed.

Lemma generateLoop_stop name rest vars w e w1 :
  attempt env name prompt w = (Throw e, w1) ->
  status_of e <> 404 ->
  generateLoop env prompt (name :: rest) vars w
  = (Return (llmFailed (status_of e) (statusText_of e)), log (warnFailed name e) w1).
Proof.
  intros H Hs. simpl. unfold bind at 1.
  rewrite (try_catch_throw _ _ w e w1); [|rewrite (bind_throw _ _ _ _ _ H); reflexivity].
  unfold bind, emit. apply Z.eqb_neq in Hs. rewrite Hs. reflexivity.
Qed.

(** Candidates that fail with 404 are passed over. *)
Lemma generateLoop_advance pre rest vars w w1 :
  advance env prompt pre w = Some w1 ->
  generateLoop env prompt (pre ++ rest) vars w = generateLoop env prompt rest vars w1.
Proof.
  revert w. induction pre as [|name pre IH]; intros w H.
  - simpl in H. injection H as ->. reflexivity.
  - simpl in H.
    destruct (attempt env name prompt w) as [[t|r|e] w0] eqn:Ha; try discriminate.
    destruct (status_of e =? 404) eqn:Hs; [|discriminate].
    apply Z.eqb_eq in Hs.
    change ((name :: pre) ++ rest) with (name :: (pre ++ rest)).
    rewrite (generateLoop_continue _ _ _ _ _ _ Ha Hs). apply IH, H.
Qed.

(** A rejected [generateContent] seen from the [try] block. *)
Lemma attempt_rejected name w m e :
  getGenerativeModel env name = Resolved m ->
  generateContent env (trace w) m prompt = Rejected e ->
  attempt env name prompt w
  = (Throw e, log (EvGenerateContent name prompt (Rejected e)) w).
Proof.
  intros Hm Hg. unfold attempt, bind, lift, await. rewrite Hm. simpl.
  rewrite Hg. reflexivity.
Qed.

Lemma attempt_answered name w m text :
  getGenerativeModel env name = Resolved m ->
  generateContent env (trace w) m prompt = Resolved (mkResult (Resolved text)) ->
  attempt env name prompt w
  = (Normal text,
     log (EvConsole LLog [AStr "Gemini generateContent succeeded with model:"; AStr name])
         (log (EvGenerateContent name prompt (Resolved (mkResult (Resolved text)))) w)).
Proof.
  intros Hm Hg. unfold attempt, bind, lift, await. rewrite Hm. simpl.
  rewrite Hg. reflexivity.
Qed.

End Loop.

(** ** What a run adds to the history *)

Lemma since_app w w' evs : trace w' = trace w ++ evs -> since w w' = evs.
Proof. intros H. unfold since. rewrite H. apply drop_app_length. Qed.

Lemma calls_app t1 t2 : calls (t1 ++ t2) = calls t1 ++ calls t2.
Proof. apply omap_app. Qed.

Lemma quiet_refl w : quiet w w.
Proof. split; [reflexivity|]. exists []. split; [symmetry; apply app_nil_r|constructor]. Qed.

Lemma quiet_trans w1 w2 w3 : quiet w1 w2 -> quiet w2 w3 -> quiet w1 w3.
Proof.
  intros [Hf1 (e1 & Ht1 & Hq1)] [Hf2 (e2 & Ht2 & Hq2)]. split; [congruence|].
  exists (e1 ++ e2). split; [rewrite Ht2, Ht1; symmetry; apply app_assoc|].
  apply Forall_app; split; assumption.
Qed.

Lemma quiet_log e w : is_write e = false -> quiet w (log e w).
Proof.
  intros H. split; [reflexivity|]. exists [e]. split; [reflexivity|].
  constructor; [exact H|constructor].
Qed.

Section LoopHistory.
Variable env : Env.
Variable prompt : string.

(** One pass through the [try] block calls the model at most once, for the
    candidate at hand, and writes nothing. *)
Lemma attempt_events name w c w' :
  attempt env name prompt w = (c, w') ->
  files w' = files w
  /\ exists evs, trace w' = trace w ++ evs
       /\ Forall (fun e => is_write e = false) evs
       /\ calls evs `sublist_of` [name].
Proof.
  unfold attempt, bind, lift, await, console, emit, ret.
  destruct (getGenerativeModel env name) as [m|e0]; simpl.
  - destruct (generateContent env (trace w) m prompt) as [[t]|e1] eqn:Hg; simpl.
    + destruct t as [text|e2]; simpl; ended;
        (split; [reflexivity|]); simpl.
      * eexists [_; _]. split; [rewrite <- app_assoc; reflexivity|].
        split; [repeat constructor|]. simpl. reflexivity.
      * eexists [_]. split; [reflexivity|].
        split; [repeat constructor|]. simpl. reflexivity.
    + ended. split; [reflexivity|]. simpl.
      eexists [_]. split; [reflexivity|]. split; [repeat constructor|]. simpl. reflexivity.
  - ended. split; [reflexivity|].
    exists []. split; [symmetry; apply app_nil_r|].
    split; [constructor|]. simpl. apply sublist_nil_l.
Qed.

(** The calls of the loop follow the candidate list: in its order, and no
    position twice. *)
Lemma generateLoop_events names vars w c w' :
  generateLoop env prompt names vars w = (c, w') ->
  files w' = files w
  /\ exists evs, trace w' = trace w ++ evs
       /\ Forall (fun e => is_write e = false) evs
       /\ calls evs `sublist_of` names.
Proof.
  revert w. induction names as [|name rest IH]; intros w H.
  - simpl in H. injection H as <- <-. split; [reflexivity|].
    exists []. split; [symmetry; apply app_nil_r|]. split; constructor.
  - destruct (attempt env name prompt w) as [[text|r|e] w1] eqn:Ha.
    + rewrite (generateLoop_break _ _ _ _ _ _ _ _ Ha) in H. injection H as <- <-.
      destruct (attempt_events _ _ _ _ Ha) as (Hf & evs & Ht & Hw & Hc).
      split; [exact Hf|]. exists evs. split; [exact Ht|]. split; [exact Hw|].
      apply (sublist_app _ [name] [] rest) in Hc; [|apply sublist_nil_l].
      rewrite app_nil_r in Hc. exact Hc.
    + exfalso. exact (attempt_no_return _ _ _ _ _ _ Ha).
    + destruct (attempt_events _ _ _ _ Ha) as (Hf & evs & Ht & Hw & Hc).
      destruct (Z.eq_dec (status_of e) 404) as [Hs|Hs].
      * rewrite (generateLoop_continue _ _ _ _ _ _ _ _ Ha Hs) in H.
        destruct (IH _ H) as (Hf' & evs' & Ht' & Hw' & Hc').
        split; [simpl in Hf'; congruence|].
        exists (evs ++ warnFailed name e :: evs'). split.
        { rewrite Ht'. simpl. rewrite Ht. rewrite <- !app_assoc. reflexivity. }
        split.
        { apply Forall_app. split; [exact Hw|]. constructor; [reflexivity|exact Hw']. }
        rewrite calls_app. simpl. fold (calls evs').
        apply (sublist_app _ [name] _ rest); assumption.
      * rewrite (generateLoop_stop _ _ _ _ _ _ _ _ Ha Hs) in H. injection H as <- <-.
        split; [exact Hf|]. exists (evs ++ [warnFailed name e]). split.
        { simpl. rewrite Ht. rewrite <- app_assoc. reflexivity. }
        split.
        { apply Forall_app. split; [exact Hw|]. repeat constructor. }
        rewrite calls_app. simpl. rewrite app_nil_r.
        apply (sublist_app _ [name] [] rest) in Hc; [|apply sublist_nil_l].
        rewrite app_nil_r in Hc. exact Hc.
Qed.

End LoopHistory.

(** ** Claims on the fallback loop *)

(** C3.  Wherever in the candidate list the call to the model is rejected
    with status 429, the loop stops there: it answers 429 with the
    rate-limit hint, the candidate has been called exactly once since the
    loop reached it, and no candidate after it is called. *)
Theorem C3_rate_limit_stops_the_loop env prompt pre c post vars w w1 m e :
  advance env prompt pre w = Some w1 ->
  getGenerativeModel env c = Resolved m ->
  generateContent env (trace w1) m prompt = Rejected e ->
  err_status e = Some 429 ->
  generateLoop env prompt (pre ++ c :: post) vars w
  = (Return (mkResponse 429 (Json (JObj
       [ ("error", JStr "LLM call failed"); ("status", JNum 429 0);
         ("statusText", JStr (statusText_of e)); ("hint", JStr rateLimitHint) ]))),
     mkWorld (files w1)
       (trace w1 ++ [EvGenerateContent c prompt (Rejected e); warnFailed c e])).
Proof.
  intros Hadv Hm Hg Hs.
  rewrite (generateLoop_advance _ _ _ _ _ _ _ Hadv).
  assert (Hst : status_of e = 429) by (unfold status_of; rewrite Hs; reflexivity).
  rewrite (generateLoop_stop _ _ _ _ _ _ _ _ (attempt_rejected _ _ _ _ _ _ Hm Hg));
    [|rewrite Hst; discriminate].
  rewrite Hst. unfold llmFailed, log. simpl. rewrite <- app_assoc. reflexivity.
Qed.

Lemma C3_witness :
  generateLoop Fixture.envSecondLimited Fixture.p defaults
               (None, "gemini-1.5-flash-8b") Fixture.fresh
  = (Return (mkResponse 429 (Json (JObj
       [ ("error", JStr "LLM call failed"); ("status", JNum 429 0);
         ("statusText", JStr "Too Many Requests"); ("hint", JStr rateLimitHint) ]))),
     mkWorld ∅
       [ EvGenerateContent "gemini-1.5-flash-8b" Fixture.p (Rejected Fixture.notFound);
         warnFailed "gemini-1.5-flash-8b" Fixture.notFound;
         EvGenerateContent "gemini-1.5-flash-8b-latest" Fixture.p (Rejected Fixture.tooMany);
         warnFailed "gemini-1.5-flash-8b-latest" Fixture.tooMany ]).
Proof.
  apply (C3_rate_limit_stops_the_loop Fixture.envSecondLimited Fixture.p
           ["gemini-1.5-flash-8b"] "gemini-1.5-flash-8b-latest"
           ["gemini-1.5-pro"; "gemini-1.5-pro-latest"] _ Fixture.fresh
           (mkWorld ∅ [ EvGenerateContent "gemini-1.5-flash-8b" Fixture.p
                                          (Rejected Fixture.notFound);
                        warnFailed "gemini-1.5-flash-8b" Fixture.notFound ])
           (mkModel "models/gemini-1.5-flash-8b-latest") Fixture.tooMany);
    vm_compute; reflexivity.
Defined.

(** A failed attempt on a name the SDK accepts has made its call. *)
Lemma attempt_failed_after_call env prompt name w m e w0 :
  getGenerativeModel env name = Resolved m ->
  attempt env name prompt w = (Throw e, w0) ->
  exists r, trace w0 = trace w ++ [EvGenerateContent name prompt r].
Proof.
  intros Hm. unfold attempt, bind, lift, await, console, emit, ret. rewrite Hm. simpl.
  destruct (generateContent env (trace w) m prompt) as [[t]|e1]; simpl.
  - destruct t as [text|e2]; simpl; [discriminate|]. ended. eexists. reflexivity.
  - ended. eexists. reflexivity.
Qed.

(** Passing over names the SDK accepts calls each of them, in order. *)
Lemma advance_calls env prompt pre w w1 :
  advance env prompt pre w = Some w1 ->
  (forall name, In name pre -> exists m, getGenerativeModel env name = Resolved m) ->
  exists evs, trace w1 = trace w ++ evs /\ calls evs = pre.
Proof.
  revert w. induction pre as [|name pre IH]; intros w H Hall.
  - simpl in H. injection H as <-. exists []. split; [symmetry; apply app_nil_r|reflexivity].
  - simpl in H.
    destruct (attempt env name prompt w) as [[t|r|e] w0] eqn:Ha; try discriminate.
    destruct (status_of e =? 404); [|discriminate].
    destruct (Hall name (or_introl eq_refl)) as (m & Hm).
    destruct (attempt_failed_after_call _ _ _ _ _ _ _ Hm Ha) as (r & Ht0).
    destruct (IH _ H (fun n Hn => Hall n (or_intror Hn))) as (evs & Ht & Hc).
    exists ([EvGenerateContent name prompt r; warnFailed name e] ++ evs).
    split; [rewrite Ht; simpl; rewrite Ht0, <- !app_assoc; reflexivity|].
    rewrite calls_app, Hc. reflexivity.
Qed.

Lemma NoDup_defaults : NoDup defaults.
Proof. apply NoDup_ListNoDup. unfold defaults.
  repeat (apply List.NoDup_cons;
          [simpl; intros H; repeat (destruct H as [H|H]; [discriminate H|]); exact H|]).
  apply List.NoDup_nil.
Qed.

(** C4, as the handler has it.  The loop takes the positions of the
    candidate list in order, each at most once.  A candidate that fails
    with status 404 is passed over; the first one that answers ends the
    loop with its text and its name.  The calls made are a sublist of the
    list up to that candidate, so a name is called at most once when the
    list holds it once; where the SDK accepts the names passed over, every
    one of them has been called, a name the list holds twice being called
    twice.  The list of the handler is free of duplicates exactly when the
    override is unset, empty or not one of the four defaults. *)
Theorem C4_first_answer_ends_the_loop env prompt pre c post vars w w1 m text :
  advance env prompt pre w = Some w1 ->
  getGenerativeModel env c = Resolved m ->
  generateContent env (trace w1) m prompt = Resolved (mkResult (Resolved text)) ->
  let w2 := mkWorld (files w1)
      (trace w1 ++
       [ EvGenerateContent c prompt (Resolved (mkResult (Resolved text)));
         EvConsole LLog [AStr "Gemini generateContent succeeded with model:"; AStr c] ]) in
  generateLoop env prompt (pre ++ c :: post) vars w = (Normal (Some text, c), w2)
  /\ calls (since w w2) `sublist_of` (pre ++ [c])
  /\ calls (since w1 w2) = [c]
  /\ (NoDup (pre ++ [c]) -> NoDup (calls (since w w2)))
  /\ ((forall name, In name pre -> exists m', getGenerativeModel env name = Resolved m') ->
        calls (since w w2) = pre ++ [c])
  /\ (NoDup (modelCandidates env)
      <-> forall envModel, GEMINI_MODEL env = Some envModel ->
                           envModel <> EmptyString -> ~ In envModel defaults).
Proof.
  intros Hadv Hm Hg w2.
  assert (Hrun : generateLoop env prompt (pre ++ c :: post) vars w
                 = (Normal (Some text, c), w2)).
  { rewrite (generateLoop_advance _ _ _ _ _ _ _ Hadv).
    rewrite (generateLoop_break _ _ _ _ _ _ _ _ (attempt_answered _ _ _ _ _ _ Hm Hg)).
    unfold w2, log. simpl. rewrite <- app_assoc. reflexivity. }
  assert (Hsub : calls (since w w2) `sublist_of` (pre ++ [c])).
  { assert (Hpre : generateLoop env prompt (pre ++ [c]) vars w
                   = (Normal (Some text, c), w2)).
    { rewrite (generateLoop_advance _ _ _ _ _ _ _ Hadv).
      rewrite (generateLoop_break _ _ _ _ _ _ _ _ (attempt_answered _ _ _ _ _ _ Hm Hg)).
      unfold w2, log. simpl. rewrite <- app_assoc. reflexivity. }
    destruct (generateLoop_events _ _ _ _ _ _ _ Hpre) as (_ & evs & Ht & _ & Hc).
    rewrite (since_app _ _ _ Ht). exact Hc. }
  split; [exact Hrun|]. split; [exact Hsub|].
  split; [rewrite (since_app w1 w2 _ eq_refl); reflexivity|].
  split; [intros Hnd; exact (sublist_NoDup _ _ Hnd Hsub)|].
  split.
  - intros Hall. destruct (advance_calls _ _ _ _ _ Hadv Hall) as (evs & Ht & Hc).
    erewrite since_app by (unfold w2; simpl; rewrite Ht, <- app_assoc; reflexivity).
    rewrite calls_app, Hc. reflexivity.
  - unfold modelCandidates. destruct (GEMINI_MODEL env) as [envModel|].
    + unfold truthy. destruct (String.eqb_spec envModel "") as [->|Hne]; simpl.
      * split; [intros _ x [= <-] Hx; contradiction|intros _; apply NoDup_defaults].
      * rewrite NoDup_cons, list_elem_of_In. split.
        -- intros [Hin _] x [= <-] _. exact Hin.
        -- intros H. split; [apply (H envModel eq_refl Hne)|apply NoDup_defaults].
    + split; [intros _ x Hx; discriminate Hx|intros _; apply NoDup_defaults].
Qed.

Lemma C4_witness :
  generateLoop Fixture.envSecondAnswers Fixture.p defaults
               (None, "gemini-1.5-flash-8b") Fixture.fresh
  = (Normal (Some Fixture.replyOk, "gemini-1.5-flash-8b-latest"),
     mkWorld ∅
       [ EvGenerateContent "gemini-1.5-flash-8b" Fixture.p (Rejected Fixture.notFound);
         warnFailed "gemini-1.5-flash-8b" Fixture.notFound;
         EvGenerateContent "gemini-1.5-flash-8b-latest" Fixture.p
                           (Fixture.answers Fixture.replyOk);
         EvConsole LLog [AStr "Gemini generateContent succeeded with model:";
                         AStr "gemini-1.5-flash-8b-latest"] ]).
Proof.
  apply (C4_first_answer_ends_the_loop Fixture.envSecondAnswers Fixture.p
           ["gemini-1.5-flash-8b"] "gemini-1.5-flash-8b-latest"
           ["gemini-1.5-pro"; "gemini-1.5-pro-latest"] _ Fixture.fresh
           (mkWorld ∅ [ EvGenerateContent "gemini-1.5-flash-8b" Fixture.p
                                          (Rejected Fixture.notFound);
                        warnFailed "gemini-1.5-flash-8b" Fixture.notFound ])
           (mkModel "models/gemini-1.5-flash-8b-latest") Fixture.replyOk);
    vm_compute; reflexivity.
Defined.

(** C4 as stated fails when the override names a default: the list then
    holds that name twice, and a request for which no model is reachable
    calls it twice. *)
Lemma C4_repeated_name_is_called_twice :
  let made := calls (trace (snd (extract_amounts Scenario.envOverride Fixture.request
                                                 Fixture.fresh))) in
  GEMINI_MODEL Scenario.envOverride = Some "gemini-1.5-pro"
  /\ In "gemini-1.5-pro" defaults
  /\ made = [ "gemini-1.5-pro"; "gemini-1.5-flash-8b"; "gemini-1.5-flash-8b-latest";
              "gemini-1.5-pro"; "gemini-1.5-pro-latest" ]
  /\ count_occ string_dec made "gemini-1.5-pro" = 2%nat
  /\ ~ NoDup made.
Proof.
  cbv zeta.
  assert (E : calls (trace (snd (extract_amounts Scenario.envOverride Fixture.request
                                                 Fixture.fresh)))
              = [ "gemini-1.5-pro"; "gemini-1.5-flash-8b"; "gemini-1.5-flash-8b-latest";
                  "gemini-1.5-pro"; "gemini-1.5-pro-latest" ])
    by (vm_compute; reflexivity).
  rewrite E. split; [reflexivity|]. split; [simpl; tauto|]. split; [reflexivity|].
  split; [vm_compute; reflexivity|].
  intros H. apply NoDup_cons in H. destruct H as [H _]. apply H.
  apply list_elem_of_In. simpl. tauto.
Qed.

(** C10.  A failure of the [try] block whose error has no [status] counts as
    502: the loop stops there with the 502 reply and the access hint, and
    nothing is tried after the warning. *)
Theorem C10_missing_status_is_fatal env prompt pre c post vars w w1 e w2 :
  advance env prompt pre w = Some w1 ->
  attempt env c prompt w1 = (Throw e, w2) ->
  err_status e = None ->
  generateLoop env prompt (pre ++ c :: post) vars w
  = (Return (mkResponse 502 (Json (JObj
       [ ("error", JStr "LLM call failed"); ("status", JNum 502 0);
         ("statusText", JStr (statusText_of e)); ("hint", JStr accessHint) ]))),
     log (warnFailed c e) w2)
  /\ calls (since w1 (log (warnFailed c e) w2)) `sublist_of` [c].
Proof.
  intros Hadv Ha Hs.
  assert (Hst : status_of e = 502) by (unfold status_of; rewrite Hs; reflexivity).
  split.
  - rewrite (generateLoop_advance _ _ _ _ _ _ _ Hadv).
    rewrite (generateLoop_stop _ _ _ _ _ _ _ _ Ha); [|rewrite Hst; discriminate].
    rewrite Hst. reflexivity.
  - destruct (attempt_events _ _ _ _ _ _ Ha) as (_ & evs & Ht & _ & Hc).
    rewrite (since_app w1 _ (evs ++ [warnFailed c e])).
    + rewrite calls_app. simpl. rewrite app_nil_r. exact Hc.
    + simpl. rewrite Ht. symmetry. apply app_assoc.
Qed.

Lemma C10_witness :
  generateLoop Fixture.envBlocked Fixture.p defaults
               (None, "gemini-1.5-flash-8b") Fixture.fresh
  = (Return (mkResponse 502 (Json (JObj
       [ ("error", JStr "LLM call failed"); ("status", JNum 502 0);
         ("statusText", JStr "LLM error"); ("hint", JStr accessHint) ]))),
     mkWorld ∅
       [ EvGenerateContent "gemini-1.5-flash-8b" Fixture.p (Rejected Fixture.blocked);
         warnFailed "gemini-1.5-flash-8b" Fixture.blocked ]).
Proof.
  apply (C10_missing_status_is_fatal Fixture.envBlocked Fixture.p [] "gemini-1.5-flash-8b"
           [ "gemini-1.5-flash-8b-latest"; "gemini-1.5-pro"; "gemini-1.5-pro-latest" ]
           _ Fixture.fresh Fixture.fresh Fixture.blocked
           (mkWorld ∅ [EvGenerateContent "gemini-1.5-flash-8b" Fixture.p
                                         (Rejected Fixture.blocked)]));
    vm_compute; reflexivity.
Defined.

(** ** The stages of the handler *)

Section Stages.
Variable env : Env.

Lemma cached_eq jsonPath w :
  cached env jsonPath w
  = match files w !! jsonPath with
    | None => (Throw ENOENT, log (EvReadFile jsonPath (Rejected ENOENT)) w)
    | Some bytes =>
        let cachedJson := string_of_list_byte bytes in
        let w1 := log (EvConsole LLog [AStr "Returning cached JSON result."])
                      (log (EvReadFile jsonPath (Resolved cachedJson)) w) in
        match JSON_parse env cachedJson with
        | Some v => (Return (mkResponse 200 (Json v)), w1)
        | None => (Throw SyntaxError, w1)
        end
    end.
Proof.
  unfold cached, bind, readFile, console, emit, parse.
  destruct (files w !! jsonPath) as [bytes|]; simpl; [|reflexivity].
  destruct (JSON_parse env (string_of_list_byte bytes)); reflexivity.
Qed.

(** The validator parses the cleaned text and checks nothing more. *)
Lemma validate_eq llmResponse w :
  validate env llmResponse w
  = match JSON_parse env (clean llmResponse) with
    | Some v => (Normal v, w)
    | None =>
        (Return invalidFormat,
         log (EvConsole LError [AStr "Failed to parse LLM response as JSON:";
                                AStr llmResponse]) w)
    end.
Proof.
  unfold validate, try_catch, parse.
  destruct (JSON_parse env (clean llmResponse)); reflexivity.
Qed.

Lemma persist_eq f imagePath jsonPath v w :
  persist env f imagePath jsonPath v w
  = let data := list_byte_of_string (JSON_stringify env v) in
    match writeFile_error env (trace w) imagePath (buffer f) with
    | Some e => (Throw e, log (EvWriteFile imagePath (buffer f) (Rejected e)) w)
    | None =>
        let t1 := trace w ++ [EvWriteFile imagePath (buffer f) (Resolved tt)] in
        match writeFile_error env t1 jsonPath data with
        | Some e =>
            (Throw e, mkWorld (<[imagePath := buffer f]> (files w))
                              (t1 ++ [EvWriteFile jsonPath data (Rejected e)]))
        | None =>
            (Normal tt,
             mkWorld (<[jsonPath := data]> (<[imagePath := buffer f]> (files w)))
                     (t1 ++ [EvWriteFile jsonPath data (Resolved tt)]))
        end
    end.
Proof.
  unfold persist, bind, writeFile.
  destruct (writeFile_error env (trace w) imagePath (buffer f)); simpl; [reflexivity|].
  destruct (writeFile_error env _ jsonPath _); reflexivity.
Qed.

Lemma persist_no_return f imagePath jsonPath v w r w' :
  persist env f imagePath jsonPath v w <> (Return r, w').
Proof.
  rewrite persist_eq. simpl.
  destruct (writeFile_error env (trace w) imagePath (buffer f)); [congruence|].
  destruct (writeFile_error env _ jsonPath _); congruence.
Qed.

Lemma respond_eq f imagePath jsonPath text w :
  truthy text = true ->
  respond env f imagePath jsonPath (Some text) w
  = match validate env text w with
    | (Normal v, w1) =>
        match persist env f imagePath jsonPath v w1 with
        | (Normal _, w2) => (Return (mkResponse 200 (Json v)), w2)
        | (Return r, w2) => (Return r, w2)
        | (Throw e, w2) => (Throw e, w2)
        end
    | (Return r, w1) => (Return r, w1)
    | (Throw e, w1) => (Throw e, w1)
    end.
Proof.
  intros Ht. unfold respond. rewrite Ht. unfold bind at 1.
  destruct (validate env text w) as [[v|r|e] w1]; reflexivity.
Qed.

Lemma respond_falsy f imagePath jsonPath llmResponse w :
  match llmResponse with Some text => truthy text | None => false end = false ->
  respond env f imagePath jsonPath llmResponse w = (Return noAccessibleModel, w).
Proof.
  intros H. unfold respond. destruct llmResponse as [text|]; [|reflexivity].
  rewrite H. reflexivity.
Qed.

Lemma obtainReply_eq f w ocrText w1 m w2 :
  recognizeText env (buffer f) (log (EvConsole LLog [AStr "Processing new image."]) w)
  = (Normal ocrText, w1) ->
  chooseModel env (modelCandidates env) w1 = (Normal m, w2) ->
  obtainReply env f w
  = match generateLoop env (prompt ocrText) (modelCandidates env)
            (None, if truthy (model m) then model m else hd "" (modelCandidates env)) w2 with
    | (Normal vars, w3) => (Normal (fst vars), w3)
    | (Return r, w3) => (Return r, w3)
    | (Throw e, w3) => (Throw e, w3)
    end.
Proof.
  intros Hr Hc. unfold obtainReply.
  unfold bind at 1. unfold console at 1, emit at 1.
  unfold bind at 1. rewrite Hr. unfold bind at 1. rewrite Hc.
  unfold bind, ret.
  destruct (generateLoop _ _ _ _ w2) as [[vars|r|e] w3]; reflexivity.
Qed.

(** The handler on an uploaded file: the cache, else the pipeline under
    the outer [catch]. *)
Lemma extract_amounts_eq req f w :
  file req = Some f ->
  extract_amounts env req w
  = let hash := SHA256.hex (buffer f) in
    match cached env (jsonPath_of hash) w with
    | (Throw _, w0) =>
        match processNewImage env f (imagePath_of hash) (jsonPath_of hash) w0 with
        | (Throw e, w1) =>
            (Return processingFailed,
             log (EvConsole LError [AStr "Error processing image:"; AErr e]) w1)
        | other => other
        end
    | other => other
    end.
Proof.
  intros Hf. unfold extract_amounts. rewrite Hf. cbv zeta.
  unfold try_catch at 1. unfold try_catch at 1.
  destruct (cached env _ w) as [[r|r|e0] w0]; reflexivity.
Qed.

Lemma processNewImage_eq f imagePath jsonPath w :
  processNewImage env f imagePath jsonPath w
  = match obtainReply env f w with
    | (Normal llmResponse, w1) => respond env f imagePath jsonPath llmResponse w1
    | (Return r, w1) => (Return r, w1)
    | (Throw e, w1) => (Throw e, w1)
    end.
Proof. reflexivity. Qed.

End Stages.

(** ** Stages that neither write nor answer 200 *)

Section CalmRules.
Context {A B : Type}.

Lemma Calm_ret (a : A) : Calm (ret a).
Proof. intros w c w' H. injection H as <- <-. split; [apply quiet_refl|discriminate]. Qed.

Lemma Calm_throw (e : JsError) : Calm (@throw A e).
Proof. intros w c w' H. injection H as <- <-. split; [apply quiet_refl|discriminate]. Qed.

Lemma Calm_return (r : Response) : res_status r <> 200 -> Calm (@return_ A r).
Proof.
  intros Hr w c w' H. injection H as <- <-. split; [apply quiet_refl|].
  intros r' [= <-]. exact Hr.
Qed.

Lemma Calm_lift (t : Try A) : Calm (lift t).
Proof.
  intros w c w' H. unfold lift in H. injection H as <- <-. split; [apply quiet_refl|].
  destruct t; discriminate.
Qed.

Lemma Calm_await (answer : list Event -> Try A) (ev : Try A -> Event) :
  (forall r, is_write (ev r) = false) -> Calm (await answer ev).
Proof.
  intros Hev w c w' H. unfold await in H. injection H as <- <-.
  split; [apply quiet_log, Hev|]. destruct (answer (trace w)); discriminate.
Qed.

Lemma Calm_bind (m : M A) (k : A -> M B) :
  Calm m -> (forall a, Calm (k a)) -> Calm (bind m k).
Proof.
  intros Hm Hk w c w' H. unfold bind in H.
  destruct (m w) as [[a|r|e] w1] eqn:Em; destruct (Hm _ _ _ Em) as [Hq Hr].
  - destruct (Hk a _ _ _ H) as [Hq' Hr']. split; [eapply quiet_trans; eassumption|exact Hr'].
  - injection H as <- <-. split; [exact Hq|].
    intros r' [= <-]. apply (Hr r). reflexivity.
  - injection H as <- <-. split; [exact Hq|discriminate].
Qed.

Lemma Calm_try_catch (m : M A) (h : JsError -> M A) :
  Calm m -> (forall e, Calm (h e)) -> Calm (try_catch m h).
Proof.
  intros Hm Hh w c w' H. unfold try_catch in H.
  destruct (m w) as [[a|r|e] w1] eqn:Em; destruct (Hm _ _ _ Em) as [Hq Hr].
  - injection H as <- <-. split; [exact Hq|discriminate].
  - injection H as <- <-. split; [exact Hq|exact Hr].
  - destruct (Hh e _ _ _ H) as [Hq' Hr']. split; [eapply quiet_trans; eassumption|exact Hr'].
Qed.

End CalmRules.

Lemma Calm_emit (e : Event) : is_write e = false -> Calm (emit e).
Proof.
  intros He w c w' H. unfold emit in H. injection H as <- <-.
  split; [apply quiet_log, He|discriminate].
Qed.

Lemma llmFailed_status status statusText : res_status (llmFailed status statusText) <> 200.
Proof. unfold llmFailed. simpl. destruct (status =? 429); discriminate. Qed.

Section CalmStages.
Variable env : Env.

Lemma Calm_recognizeText buf : Calm (recognizeText env buf).
Proof.
  unfold recognizeText.
  apply Calm_bind; [apply Calm_await; reflexivity|intros processed].
  apply Calm_bind; [apply Calm_await; reflexivity|intros _].
  apply Calm_bind; [apply Calm_await; reflexivity|intros ocrText].
  apply Calm_bind; [apply Calm_await; reflexivity|intros _].
  apply Calm_ret.
Qed.

Lemma Calm_chooseModel candidates : Calm (chooseModel env candidates).
Proof.
  unfold chooseModel. destruct (initModel env candidates None) as [[m|] lastInitError].
  - apply Calm_bind; [apply Calm_emit; reflexivity|intros _; apply Calm_ret].
  - apply Calm_bind; [apply Calm_emit; reflexivity|intros _].
    apply Calm_return. discriminate.
Qed.

Lemma Calm_attempt name prompt : Calm (attempt env name prompt).
Proof.
  unfold attempt.
  apply Calm_bind; [apply Calm_lift|intros m].
  apply Calm_bind; [apply Calm_await; reflexivity|intros result].
  apply Calm_bind; [apply Calm_lift|intros text].
  apply Calm_bind; [apply Calm_emit; reflexivity|intros _; apply Calm_ret].
Qed.

Lemma Calm_generateLoop prompt names vars : Calm (generateLoop env prompt names vars).
Proof.
  induction names as [|name rest IH]; simpl; [apply Calm_ret|].
  apply Calm_bind.
  - apply Calm_try_catch.
    + apply Calm_bind; [apply Calm_attempt|intros text; apply Calm_ret].
    + intros llmErr. apply Calm_bind; [apply Calm_emit; reflexivity|intros _].
      destruct (status_of llmErr =? 404); [apply Calm_ret|].
      apply Calm_return, llmFailed_status.
  - intros [vars'|]; [apply Calm_ret|exact IH].
Qed.

Lemma Calm_obtainReply f : Calm (obtainReply env f).
Proof.
  unfold obtainReply.
  apply Calm_bind; [apply Calm_emit; reflexivity|intros _].
  apply Calm_bind; [apply Calm_recognizeText|intros ocrText].
  apply Calm_bind; [apply Calm_chooseModel|intros m].
  apply Calm_bind; [apply Calm_generateLoop|intros vars; apply Calm_ret].
Qed.

Lemma quiet_cached jsonPath w c w' : cached env jsonPath w = (c, w') -> quiet w w'.
Proof.
  rewrite cached_eq. destruct (files w !! jsonPath) as [bytes|].
  - simpl. destruct (JSON_parse env (string_of_list_byte bytes));
      ended;
      (eapply quiet_trans; [apply quiet_log|apply quiet_log]; reflexivity).
  - ended. apply quiet_log. reflexivity.
Qed.

End CalmStages.

(** ** The four ways a request with a file ends *)

Lemma extract_amounts_outcomes env req f w c w' :
  file req = Some f ->
  extract_amounts env req w = (c, w') ->
  let imagePath := imagePath_of (SHA256.hex (buffer f)) in
  let jsonPath := jsonPath_of (SHA256.hex (buffer f)) in
  (* served from the cache *)
  (exists bytes v,
      files w !! jsonPath = Some bytes
      /\ JSON_parse env (string_of_list_byte bytes) = Some v
      /\ c = Return (mkResponse 200 (Json v))
      /\ w' = log (EvConsole LLog [AStr "Returning cached JSON result."])
                  (log (EvReadFile jsonPath (Resolved (string_of_list_byte bytes))) w))
  (* an error before anything is written *)
  \/ (exists r, c = Return r /\ res_status r <> 200 /\ quiet w w')
  (* parsed and stored *)
  \/ (exists text v w1,
         quiet w w1
         /\ JSON_parse env (clean text) = Some v
         /\ persist env f imagePath jsonPath v w1 = (Normal tt, w')
         /\ c = Return (mkResponse 200 (Json v)))
  (* parsed, but a write failed *)
  \/ (exists text v w1 e w2,
         quiet w w1
         /\ JSON_parse env (clean text) = Some v
         /\ persist env f imagePath jsonPath v w1 = (Throw e, w2)
         /\ c = Return processingFailed
         /\ w' = log (errorLogged e) w2).
Proof.
  intros Hf H imagePath jsonPath. rewrite (extract_amounts_eq _ _ _ _ Hf) in H. cbv zeta in H.
  fold jsonPath imagePath in H.
  destruct (cached env jsonPath w) as [[r0|r0|e0] w0] eqn:Ec.
  - exfalso. rewrite cached_eq in Ec. destruct (files w !! jsonPath); [|discriminate].
    simpl in Ec. destruct (JSON_parse env _); discriminate.
  - left. rewrite cached_eq in Ec. destruct (files w !! jsonPath) as [bytes|]; [|discriminate].
    simpl in Ec. destruct (JSON_parse env _) as [v|] eqn:Ep; [|discriminate].
    injection Ec as <- <-. injection H as <- <-. exists bytes, v. repeat split; assumption.
  - right. pose proof (quiet_cached _ _ _ _ _ Ec) as Hq0.
    rewrite processNewImage_eq in H.
    destruct (obtainReply env f w0) as [[llm|r|e] w1] eqn:Eo;
      destruct (Calm_obtainReply env f _ _ _ Eo) as [Hq1 Hr1].
    + destruct (match llm with Some text => truthy text | None => false end) eqn:Et.
      * destruct llm as [text|]; [|discriminate].
        rewrite (respond_eq _ _ _ _ _ _ Et), validate_eq in H.
        destruct (JSON_parse env (clean text)) as [v|] eqn:Ev.
        -- destruct (persist env f imagePath jsonPath v w1) as [[[]|r|e] w2] eqn:Ep.
           ++ right. left. injection H as <- <-. exists text, v, w1.
              split; [eapply quiet_trans; eassumption|]. split; [exact Ev|].
              split; [exact Ep|reflexivity].
           ++ exfalso. exact (persist_no_return _ _ _ _ _ _ _ _ Ep).
           ++ right. right. injection H as <- <-. exists text, v, w1, e, w2.
              split; [eapply quiet_trans; eassumption|]. split; [exact Ev|].
              repeat split. exact Ep.
        -- left. injection H as <- <-. exists invalidFormat.
           split; [reflexivity|]. split; [discriminate|].
           eapply quiet_trans; [exact Hq0|]. eapply quiet_trans; [exact Hq1|].
           apply quiet_log. reflexivity.
      * left. rewrite (respond_falsy _ _ _ _ _ _ Et) in H. injection H as <- <-.
        exists noAccessibleModel. split; [reflexivity|]. split; [discriminate|].
        eapply quiet_trans; eassumption.
    + left. injection H as <- <-. exists r. split; [reflexivity|].
      split; [apply Hr1; reflexivity|eapply quiet_trans; eassumption].
    + left. injection H as <- <-. exists processingFailed.
      split; [reflexivity|]. split; [discriminate|].
      eapply quiet_trans; [exact Hq0|]. eapply quiet_trans; [exact Hq1|].
      apply quiet_log. reflexivity.
Qed.

(** ** Claims on the handler *)

(** C5.  When every candidate fails with status 404 the loop ends without a
    reply of its own, leaving [llmResponse] undefined, and the handler
    answers 404 with the advice to set [GEMINI_MODEL]; that answer is never
    the one of a fatal failure. *)
Theorem C5_exhausted_candidates_give_404 env req f w e0 w0 ocrText w1 m w2 w3 :
  file req = Some f ->
  cached env (jsonPath_of (SHA256.hex (buffer f))) w = (Throw e0, w0) ->
  recognizeText env (buffer f) (log (EvConsole LLog [AStr "Processing new image."]) w0)
  = (Normal ocrText, w1) ->
  chooseModel env (modelCandidates env) w1 = (Normal m, w2) ->
  advance env (prompt ocrText) (modelCandidates env) w2 = Some w3 ->
  let vars := (None, if truthy (model m) then model m else hd "" (modelCandidates env)) in
  generateLoop env (prompt ocrText) (modelCandidates env) vars w2 = (Normal vars, w3)
  /\ extract_amounts env req w = (Return noAccessibleModel, w3)
  /\ res_status noAccessibleModel = 404
  /\ (exists hint, res_body noAccessibleModel = Json (JObj [("error", JStr hint)])
                   /\ contains "Set GEMINI_MODEL in .env" hint = true)
  /\ forall status statusText, noAccessibleModel <> llmFailed status statusText.
Proof.
  intros Hf Hc Hr Hm Ha vars.
  assert (Hloop : generateLoop env (prompt ocrText) (modelCandidates env) vars w2
                  = (Normal vars, w3)).
  { rewrite <- (app_nil_r (modelCandidates env)) at 1.
    rewrite (generateLoop_advance _ _ _ _ _ _ _ Ha). reflexivity. }
  split; [exact Hloop|]. split.
  - rewrite (extract_amounts_eq _ _ _ _ Hf). cbv zeta. rewrite Hc.
    rewrite processNewImage_eq, (obtainReply_eq _ _ _ _ _ _ _ Hr Hm).
    fold vars. rewrite Hloop. reflexivity.
  - split; [reflexivity|]. split.
    + eexists. split; [reflexivity|]. vm_compute. reflexivity.
    + intros status statusText H. apply (f_equal res_status) in H.
      unfold llmFailed in H. simpl in H. destruct (status =? 429); discriminate.
Qed.

Lemma C5_witness :
  fst (extract_amounts Fixture.envNotFound Fixture.request Fixture.fresh)
  = Return noAccessibleModel
  /\ calls (trace (snd (extract_amounts Fixture.envNotFound Fixture.request Fixture.fresh)))
     = defaults.
Proof.
  edestruct (C5_exhausted_candidates_give_404 Fixture.envNotFound Fixture.request
               Fixture.bill Fixture.fresh) as (_ & H & _).
  - reflexivity.
  - vm_compute. reflexivity.
  - vm_compute. reflexivity.
  - vm_compute. reflexivity.
  - vm_compute. reflexivity.
  - rewrite H. split; vm_compute; reflexivity.
Defined.

(** C1, as the handler has it.  The validator removes the code fences,
    trims, and parses; it rejects, with 500 and "Error: The AI returned an
    invalid format.", exactly the replies that do not parse.  A reply that
    parses is taken as it is, whatever its shape, and once stored it is
    answered with 200. *)
Theorem C1_validate_only_parses env f imagePath jsonPath text w :
  (fst (validate env text w) = Return invalidFormat <-> JSON_parse env (clean text) = None)
  /\ (forall v, JSON_parse env (clean text) = Some v ->
        validate env text w = (Normal v, w)
        /\ forall w', truthy text = true ->
             persist env f imagePath jsonPath v w = (Normal tt, w') ->
             respond env f imagePath jsonPath (Some text) w
             = (Return (mkResponse 200 (Json v)), w')).
Proof.
  split.
  - rewrite validate_eq. destruct (JSON_parse env (clean text)); simpl.
    + split; discriminate.
    + split; reflexivity.
  - intros v Hv. rewrite validate_eq, Hv. split; [reflexivity|].
    intros w' Ht Hp. rewrite (respond_eq _ _ _ _ _ _ Ht), validate_eq, Hv, Hp. reflexivity.
Qed.

(** A reply without [due] is accepted with the kinds it has. *)
Lemma C1_witness :
  exists v w',
    respond Fixture.envNoDue Fixture.bill "uploads/x.png" "uploads/x.json"
            (Some Fixture.replyNoDue) Fixture.fresh
    = (Return (mkResponse 200 (Json v)), w')
    /\ member "amounts" v
       = Some (JArr [ JObj [("type", JStr "total_bill"); ("value", JNum 100 0);
                            ("source", JStr "text: Total: $100")];
                      JObj [("type", JStr "paid"); ("value", JNum 60 0);
                            ("source", JStr "text: Paid: $60")] ]).
Proof.
  destruct (C1_validate_only_parses Fixture.envNoDue Fixture.bill
              "uploads/x.png" "uploads/x.json" Fixture.replyNoDue Fixture.fresh)
    as [_ H].
  edestruct H as [_ H'].
  - vm_compute. reflexivity.
  - eexists _, _. split.
    + apply H'; vm_compute; reflexivity.
    + vm_compute. reflexivity.
Defined.

(** C1 as stated fails: a fenced reply whose only entry has the kind [tax]
    parses, is stored and is answered with 200, though it does not have the
    shape the specification asks for, under either name of the kind. *)
Lemma C1_unrecognized_kind_is_accepted :
  exists v w',
    extract_amounts Fixture.envTax Fixture.request Fixture.fresh
    = (Return (mkResponse 200 (Json v)), w')
    /\ validate Fixture.envTax Fixture.replyTax Fixture.fresh = (Normal v, Fixture.fresh)
    /\ member "amounts" v
       = Some (JArr [ JObj [("type", JStr "tax"); ("kind", JStr "tax");
                            ("value", JNum 5 0); ("source", JStr "text: Tax: $5")] ])
    /\ spec_shape_ok "type" v = false
    /\ spec_shape_ok "kind" v = false
    /\ fst (extract_amounts Fixture.envTax Fixture.request Fixture.fresh)
       <> Return invalidFormat.
Proof.
  eexists _, _. split; [vm_compute; reflexivity|].
  do 4 (split; [vm_compute; reflexivity|]).
  vm_compute. discriminate.
Qed.

(** C2, as the handler has it.  When a write of [persist] fails after the
    reply has been parsed, the error reaches the outer [catch]: it is
    logged with [console.error] and the request is answered with 500
    "Failed to process image."; the parsed result is not sent. *)
Theorem C2_failed_write_is_answered_500 env req f w e0 w0 text w1 v e w2 :
  file req = Some f ->
  cached env (jsonPath_of (SHA256.hex (buffer f))) w = (Throw e0, w0) ->
  obtainReply env f w0 = (Normal (Some text), w1) ->
  truthy text = true ->
  JSON_parse env (clean text) = Some v ->
  persist env f (imagePath_of (SHA256.hex (buffer f))) (jsonPath_of (SHA256.hex (buffer f)))
          v w1 = (Throw e, w2) ->
  extract_amounts env req w = (Return processingFailed, log (errorLogged e) w2).
Proof.
  intros Hf Hc Ho Ht Hv Hp.
  rewrite (extract_amounts_eq _ _ _ _ Hf). cbv zeta. rewrite Hc.
  rewrite processNewImage_eq, Ho, (respond_eq _ _ _ _ _ _ Ht), validate_eq, Hv, Hp.
  reflexivity.
Qed.

Lemma C2_witness :
  fst (extract_amounts Fixture.envReadonly Fixture.request Fixture.fresh)
  = Return processingFailed
  /\ last (trace (snd (extract_amounts Fixture.envReadonly Fixture.request Fixture.fresh)))
     = Some (errorLogged Fixture.EACCES).
Proof.
  eassert (H : extract_amounts Fixture.envReadonly Fixture.request Fixture.fresh = _).
  { eapply (C2_failed_write_is_answered_500 Fixture.envReadonly Fixture.request
              Fixture.bill Fixture.fresh).
    - reflexivity.
    - vm_compute. reflexivity.
    - vm_compute. reflexivity.
    - vm_compute. reflexivity.
    - vm_compute. reflexivity.
    - vm_compute. reflexivity. }
  rewrite H. split; vm_compute; reflexivity.
Defined.

(** C2 as stated fails: with a store that cannot be written, the reply is
    obtained and parsed, it has the expected shape, and the request is
    answered with 500, not with the result. *)
Lemma C2_storage_failure_loses_the_result :
  exists v w',
    JSON_parse Fixture.envReadonly (clean Fixture.replyOk) = Some v
    /\ spec_shape_ok "type" v = true
    /\ extract_amounts Fixture.envReadonly Fixture.request Fixture.fresh
       = (Return (mkResponse 500 (Send "Failed to process image.")), w')
    /\ In (EvGenerateContent "gemini-1.5-flash-8b" Fixture.p
                             (Fixture.answers Fixture.replyOk)) (trace w')
    /\ files w' = ∅
    /\ fst (extract_amounts Fixture.envReadonly Fixture.request Fixture.fresh)
       <> Return (mkResponse 200 (Json v)).
Proof.
  eexists _, _. split; [vm_compute; reflexivity|].
  split; [vm_compute; reflexivity|]. split; [vm_compute; reflexivity|].
  split; [vm_compute; tauto|]. split; [reflexivity|].
  vm_compute. discriminate.
Qed.

(** ** The fingerprint and the first step of a run *)

Lemma hex_word_length w acc :
  String.length (SHA256.hex_word w +:+ acc) = (8 + String.length acc)%nat.
Proof. reflexivity. Qed.

Lemma blocks_length fuel ws h :
  length h = 8%nat -> length (SHA256.blocks fuel ws h) = 8%nat.
Proof.
  revert ws h. induction fuel as [|fuel IH]; intros ws h Hh; simpl; [exact Hh|].
  destruct ws; [exact Hh|]. apply IH. reflexivity.
Qed.

(** The digest is always 64 hexadecimal characters long. *)
Lemma SHA256_hex_length msg : String.length (SHA256.hex msg) = 64%nat.
Proof.
  unfold SHA256.hex.
  assert (H : length (SHA256.digest (map (fun b => Z.of_N (Byte.to_N b)) msg)) = 8%nat)
    by (apply blocks_length; reflexivity).
  revert H. generalize (SHA256.digest (map (fun b => Z.of_N (Byte.to_N b)) msg)).
  intros l H.
  do 9 (destruct l as [|? l]; try discriminate).
  cbn [fold_right]. rewrite !hex_word_length. reflexivity.
Qed.

Lemma persist_extends env f imagePath jsonPath v w c w' :
  persist env f imagePath jsonPath v w = (c, w') ->
  exists evs, trace w' = trace w ++ evs.
Proof.
  rewrite persist_eq. cbv zeta.
  destruct (writeFile_error env (trace w) imagePath (buffer f)).
  - ended. eexists. reflexivity.
  - destruct (writeFile_error env _ jsonPath _);
      ended; simpl; rewrite <- app_assoc; eexists; reflexivity.
Qed.

Lemma processNewImage_extends env f imagePath jsonPath w c w' :
  processNewImage env f imagePath jsonPath w = (c, w') ->
  exists evs, trace w' = trace w ++ evs.
Proof.
  rewrite processNewImage_eq.
  destruct (obtainReply env f w) as [[llm|r|e] w1] eqn:Eo;
    destruct (Calm_obtainReply env f _ _ _ Eo) as [(_ & evs1 & Ht1 & _) _].
  - destruct (match llm with Some text => truthy text | None => false end) eqn:Et.
    + destruct llm as [text|]; [|discriminate].
      rewrite (respond_eq _ _ _ _ _ _ Et), validate_eq.
      destruct (JSON_parse env (clean text)) as [v|].
      * destruct (persist env f imagePath jsonPath v w1) as [[[]|r|e] w2] eqn:Ep;
          destruct (persist_extends _ _ _ _ _ _ _ _ Ep) as [evs2 Ht2];
          ended; exists (evs1 ++ evs2);
          rewrite Ht2, Ht1; symmetry; apply app_assoc.
      * ended. simpl. rewrite Ht1, <- app_assoc.
        eexists. reflexivity.
    + rewrite (respond_falsy _ _ _ _ _ _ Et). ended.
      exists evs1. exact Ht1.
  - ended. exists evs1. exact Ht1.
  - ended. exists evs1. exact Ht1.
Qed.

(** Whatever the file, the first thing a run does is to look its
    fingerprint up in the store. *)
Lemma extract_amounts_first_event env req f w :
  file req = Some f ->
  exists r evs,
    since w (snd (extract_amounts env req w))
    = EvReadFile (jsonPath_of (SHA256.hex (buffer f))) r :: evs.
Proof.
  intros Hf. rewrite (extract_amounts_eq _ _ _ _ Hf). cbv zeta. rewrite cached_eq.
  set (jsonPath := jsonPath_of (SHA256.hex (buffer f))).
  set (imagePath := imagePath_of (SHA256.hex (buffer f))).
  assert (Hrest : forall w0 r evs0,
             trace w0 = trace w ++ EvReadFile jsonPath r :: evs0 ->
             exists evs,
               since w (snd (match processNewImage env f imagePath jsonPath w0 with
                             | (Throw e, w1) =>
                                 (Return processingFailed, log (errorLogged e) w1)
                             | other => other
                             end))
               = EvReadFile jsonPath r :: evs).
  { intros w0 r evs0 H0.
    destruct (processNewImage env f imagePath jsonPath w0) as [[a|r'|e] w1] eqn:Ep;
      destruct (processNewImage_extends _ _ _ _ _ _ _ Ep) as [evs1 Ht1]; simpl.
    - eexists. apply since_app. rewrite Ht1, H0, <- app_assoc. reflexivity.
    - eexists. apply since_app. rewrite Ht1, H0, <- app_assoc. reflexivity.
    - eexists. apply since_app. simpl. rewrite Ht1, H0, <- !app_assoc. reflexivity. }
  destruct (files w !! jsonPath) as [bytes|].
  - cbv zeta. destruct (JSON_parse env (string_of_list_byte bytes)).
    + eexists _, _. apply since_app. simpl. rewrite <- app_assoc. reflexivity.
    + eexists. eapply Hrest. simpl. rewrite <- app_assoc. reflexivity.
  - eexists. eapply (Hrest _ _ []). reflexivity.
Qed.

(** C8.  The fingerprint is a function of the bytes alone.  Two uploads
    with the same bytes, whatever their names and types, whatever the
    environment and the state of the store, are looked up under the same
    path, made of the same 64-character digest. *)
Theorem C8_same_bytes_same_fingerprint env1 env2 req1 req2 f1 f2 w1 w2 :
  file req1 = Some f1 ->
  file req2 = Some f2 ->
  buffer f1 = buffer f2 ->
  SHA256.hex (buffer f1) = SHA256.hex (buffer f2)
  /\ String.length (SHA256.hex (buffer f1)) = 64%nat
  /\ exists r1 r2 evs1 evs2,
       since w1 (snd (extract_amounts env1 req1 w1))
       = EvReadFile (jsonPath_of (SHA256.hex (buffer f1))) r1 :: evs1
       /\ since w2 (snd (extract_amounts env2 req2 w2))
          = EvReadFile (jsonPath_of (SHA256.hex (buffer f1))) r2 :: evs2.
Proof.
  intros H1 H2 Hb. split; [rewrite Hb; reflexivity|].
  split; [apply SHA256_hex_length|].
  destruct (extract_amounts_first_event env1 _ _ w1 H1) as (r1 & evs1 & E1).
  destruct (extract_amounts_first_event env2 _ _ w2 H2) as (r2 & evs2 & E2).
  exists r1, r2, evs1, evs2. split; [exact E1|]. rewrite Hb. exact E2.
Qed.

Lemma C8_witness :
  SHA256.hex (list_byte_of_string "scan of a bill")
  = "56784639c034e4c3c00dc4342168fae472ae0c0e0891d5724abd59055fa32e63"
  /\ exists r1 r2 evs1 evs2,
       since Fixture.fresh (snd (extract_amounts Fixture.envOk Fixture.request Fixture.fresh))
       = EvReadFile (jsonPath_of (SHA256.hex (buffer Fixture.bill))) r1 :: evs1
       /\ since Fixture.fresh
            (snd (extract_amounts Fixture.envLimited
                    (mkRequest (Some (mkFile "copy.jpg" "image/jpeg" (buffer Fixture.bill))))
                    Fixture.fresh))
          = EvReadFile (jsonPath_of (SHA256.hex (buffer Fixture.bill))) r2 :: evs2.
Proof.
  split; [vm_compute; reflexivity|].
  apply (C8_same_bytes_same_fingerprint Fixture.envOk Fixture.envLimited
           Fixture.request
           (mkRequest (Some (mkFile "copy.jpg" "image/jpeg" (buffer Fixture.bill))))
           Fixture.bill (mkFile "copy.jpg" "image/jpeg" (buffer Fixture.bill))
           Fixture.fresh Fixture.fresh); reflexivity.
Defined.

(** C7, as the handler has it.  A request without a file is answered with
    400 "No file uploaded." and nothing else happens: no recognition, no
    call to a model, no access to the store.  The guard looks at the
    presence of the file, not at its length: for any uploaded file, also
    one of zero bytes, the run goes on to look the fingerprint up. *)
Theorem C7_missing_file_is_rejected env req w :
  (file req = None -> extract_amounts env req w = (Return noFile, w))
  /\ (forall f, file req = Some f ->
        exists r evs,
          since w (snd (extract_amounts env req w))
          = EvReadFile (jsonPath_of (SHA256.hex (buffer f))) r :: evs).
Proof.
  split.
  - intros H. unfold extract_amounts. rewrite H. reflexivity.
  - intros f Hf. apply extract_amounts_first_event, Hf.
Qed.

Lemma C7_witness :
  extract_amounts Fixture.envOk (mkRequest None) Fixture.fresh = (Return noFile, Fixture.fresh).
Proof.
  apply (C7_missing_file_is_rejected Fixture.envOk (mkRequest None) Fixture.fresh).
  reflexivity.
Defined.

(** C7 as stated fails: an upload of zero bytes is not answered with 400.
    Its fingerprint is looked up in the store and the image is handed to
    sharp, which refuses it; the answer is 500. *)
Lemma C7_empty_upload_is_processed :
  extract_amounts Fixture.envOk Fixture.emptyRequest Fixture.fresh
  = (Return (mkResponse 500 (Send "Failed to process image.")),
     mkWorld ∅
       [ EvReadFile
           "uploads/e3b0c44298fc1c149afbf4c8996fb92427ae41e4649b934ca495991b7852b855.json"
           (Rejected ENOENT);
         EvConsole LLog [AStr "Processing new image."];
         EvSharp [] (Rejected (mkError None None "Input Buffer is empty"));
         errorLogged (mkError None None "Input Buffer is empty") ])
  /\ buffer Fixture.emptyUpload = []
  /\ fst (extract_amounts Fixture.envOk Fixture.emptyRequest Fixture.fresh) <> Return noFile.
Proof.
  split; [vm_compute; reflexivity|]. split; [reflexivity|].
  vm_compute. discriminate.
Qed.


(** C9, as the handler has it.  A run that ends in an error either wrote
    nothing and tried no write, the store being as it was, or it had parsed
    the reply and failed in [persist]; the two files are written only by
    [persist], after the reply has parsed. *)
Theorem C9_errors_before_persist_leave_the_store env req f w r w' :
  file req = Some f ->
  extract_amounts env req w = (Return r, w') ->
  res_status r <> 200 ->
  (files w' = files w /\ List.filter is_write (since w w') = [])
  \/ (exists text v w1 e w2,
         files w1 = files w
         /\ List.filter is_write (since w w1) = []
         /\ JSON_parse env (clean text) = Some v
         /\ persist env f (imagePath_of (SHA256.hex (buffer f)))
                    (jsonPath_of (SHA256.hex (buffer f))) v w1 = (Throw e, w2)
         /\ r = processingFailed
         /\ w' = log (errorLogged e) w2).
Proof.
  intros Hf H Hr.
  assert (Hquiet : forall wa wb, quiet wa wb ->
             files wb = files wa /\ List.filter is_write (since wa wb) = []).
  { intros wa wb (Hfs & evs & Ht & Hall). split; [exact Hfs|].
    rewrite (since_app _ _ _ Ht). clear Ht.
    induction Hall as [|x l Hx _ IH]; [reflexivity|]. simpl. rewrite Hx. exact IH. }
  destruct (extract_amounts_outcomes _ _ _ _ _ _ Hf H)
    as [(bytes & v' & _ & _ & Hc & _)
       |[(r' & Hc & _ & Hq)
        |[(text & v' & w0 & _ & _ & _ & Hc)
         |(text & v' & w0 & e & w2 & Hq & Hv & Hp & Hc & Hw)]]].
  - injection Hc as ->. exfalso. apply Hr. reflexivity.
  - left. apply Hquiet, Hq.
  - injection Hc as ->. exfalso. apply Hr. reflexivity.
  - right. injection Hc as ->. exists text, v', w0, e, w2.
    destruct (Hquiet _ _ Hq) as [Hfs Hws]. repeat split; assumption.
Qed.

Lemma C9_witness :
  exists w',
    extract_amounts Fixture.envLimited Fixture.request Fixture.fresh
    = (Return (llmFailed 429 "Too Many Requests"), w')
    /\ files w' = ∅
    /\ List.filter is_write (since Fixture.fresh w') = [].
Proof.
  eexists. split; [vm_compute; reflexivity|].
  edestruct (C9_errors_before_persist_leave_the_store Fixture.envLimited Fixture.request
               Fixture.bill Fixture.fresh) as [H|H].
  - reflexivity.
  - vm_compute. reflexivity.
  - vm_compute. discriminate.
  - exact H.
  - exfalso. destruct H as (text & v & w1 & e & w2 & _ & _ & _ & _ & Hr & _).
    vm_compute in Hr. discriminate.
Defined.

(** C9 as stated fails on the error path of [persist] itself: on a cache
    miss, with a store that takes the image but refuses the JSON text, the
    request is answered with 500 and the image has been written. *)
Lemma C9_failed_write_leaves_the_image :
  exists w',
    extract_amounts Fixture.envJsonFails Fixture.request Fixture.fresh
    = (Return (mkResponse 500 (Send "Failed to process image.")), w')
    /\ files Fixture.fresh
         !! "uploads/56784639c034e4c3c00dc4342168fae472ae0c0e0891d5724abd59055fa32e63.json"
       = None
    /\ files w'
         !! "uploads/56784639c034e4c3c00dc4342168fae472ae0c0e0891d5724abd59055fa32e63.png"
       = Some (buffer Fixture.bill)
    /\ files w' <> files Fixture.fresh.
Proof.
  eexists. split; [vm_compute; reflexivity|].
  split; [reflexivity|]. split; [vm_compute; reflexivity|].
  intros H.
  apply (f_equal (fun m : gmap string (list byte) =>
           m !! "uploads/56784639c034e4c3c00dc4342168fae472ae0c0e0891d5724abd59055fa32e63.png"))
    in H.
  vm_compute in H. discriminate.
Qed.

(** * Further properties of the handler *)

(** ** Rules for [Emits] and [Answers] *)

Section EmitsRules.
Context {A B : Type}.
Variable P : Event -> bool.

Lemma Emits_ret (a : A) : Emits P (ret a).
Proof. intros w c w'. ended. exists []. split; [symmetry; apply app_nil_r|constructor]. Qed.

Lemma Emits_throw (e : JsError) : Emits P (@throw A e).
Proof. intros w c w'. ended. exists []. split; [symmetry; apply app_nil_r|constructor]. Qed.

Lemma Emits_return (r : Response) : Emits P (@return_ A r).
Proof. intros w c w'. ended. exists []. split; [symmetry; apply app_nil_r|constructor]. Qed.

Lemma Emits_lift (t : Try A) : Emits P (lift t).
Proof.
  intros w c w'. unfold lift. ended.
  exists []. split; [symmetry; apply app_nil_r|constructor].
Qed.

Lemma Emits_await (answer : list Event -> Try A) (ev : Try A -> Event) :
  (forall r, P (ev r) = true) -> Emits P (await answer ev).
Proof.
  intros Hev w c w'. unfold await. ended.
  eexists [_]. split; [reflexivity|]. constructor; [apply Hev|constructor].
Qed.

Lemma Emits_bind (m : M A) (k : A -> M B) :
  Emits P m -> (forall a, Emits P (k a)) -> Emits P (bind m k).
Proof.
  intros Hm Hk w c w' H. unfold bind in H.
  destruct (m w) as [[a|r|e] w1] eqn:Em; destruct (Hm _ _ _ Em) as (evs & Ht & Hall).
  - destruct (Hk a _ _ _ H) as (evs' & Ht' & Hall'). exists (evs ++ evs').
    split; [rewrite Ht', Ht; symmetry; apply app_assoc|].
    apply Forall_app; split; assumption.
  - injection H as <- <-. exists evs. split; assumption.
  - injection H as <- <-. exists evs. split; assumption.
Qed.

Lemma Emits_try_catch (m : M A) (h : JsError -> M A) :
  Emits P m -> (forall e, Emits P (h e)) -> Emits P (try_catch m h).
Proof.
  intros Hm Hh w c w' H. unfold try_catch in H.
  destruct (m w) as [[a|r|e] w1] eqn:Em; destruct (Hm _ _ _ Em) as (evs & Ht & Hall).
  - injection H as <- <-. exists evs. split; assumption.
  - injection H as <- <-. exists evs. split; assumption.
  - destruct (Hh e _ _ _ H) as (evs' & Ht' & Hall'). exists (evs ++ evs').
    split; [rewrite Ht', Ht; symmetry; apply app_assoc|].
    apply Forall_app; split; assumption.
Qed.

End EmitsRules.

Lemma Emits_emit (P : Event -> bool) (e : Event) : P e = true -> Emits P (emit e).
Proof.
  intros He w c w'. unfold emit. ended.
  exists [e]. split; [reflexivity|]. constructor; [exact He|constructor].
Qed.

Section AnswersRules.
Context {A B : Type}.
Variable P : Response -> Prop.

Lemma Answers_ret (a : A) : Answers P (ret a).
Proof. intros w c w'. ended. discriminate. Qed.

Lemma Answers_throw (e : JsError) : Answers P (@throw A e).
Proof. intros w c w'. ended. discriminate. Qed.

Lemma Answers_return (r : Response) : P r -> Answers P (@return_ A r).
Proof. intros Hr w c w'. ended. intros r' [= <-]. exact Hr. Qed.

Lemma Answers_lift (t : Try A) : Answers P (lift t).
Proof. intros w c w'. unfold lift. ended. destruct t; discriminate. Qed.

Lemma Answers_await (answer : list Event -> Try A) (ev : Try A -> Event) :
  Answers P (await answer ev).
Proof. intros w c w'. unfold await. ended. destruct (answer (trace w)); discriminate. Qed.

Lemma Answers_bind (m : M A) (k : A -> M B) :
  Answers P m -> (forall a, Answers P (k a)) -> Answers P (bind m k).
Proof.
  intros Hm Hk w c w' H. unfold bind in H.
  destruct (m w) as [[a|r|e] w1] eqn:Em.
  - exact (Hk a _ _ _ H).
  - injection H as <- <-. intros r' [= <-]. exact (Hm _ _ _ Em r eq_refl).
  - injection H as <- <-. discriminate.
Qed.

Lemma Answers_try_catch (m : M A) (h : JsError -> M A) :
  Answers P m -> (forall e, Answers P (h e)) -> Answers P (try_catch m h).
Proof.
  intros Hm Hh w c w' H. unfold try_catch in H.
  destruct (m w) as [[a|r|e] w1] eqn:Em.
  - injection H as <- <-. discriminate.
  - injection H as <- <-. exact (Hm _ _ _ Em).
  - exact (Hh e _ _ _ H).
Qed.

End AnswersRules.

Lemma Answers_emit (P : Response -> Prop) (e : Event) : Answers P (emit e).
Proof. intros w c w'. unfold emit. ended. discriminate. Qed.

(** ** More on the fallback loop *)

Lemma status_of_404 e : status_of e = 404 <-> err_status e = Some 404.
Proof.
  unfold status_of, num_or. destruct (err_status e) as [n|].
  - destruct (n =? 0) eqn:E.
    + apply Z.eqb_eq in E. subst. split; discriminate.
    + split; [intros ->; reflexivity|intros [= ->]; reflexivity].
  - split; discriminate.
Qed.

Lemma status_of_429 e : status_of e = 429 <-> err_status e = Some 429.
Proof.
  unfold status_of, num_or. destruct (err_status e) as [n|].
  - destruct (n =? 0) eqn:E.
    + apply Z.eqb_eq in E. subst. split; discriminate.
    + split; [intros ->; reflexivity|intros [= ->]; reflexivity].
  - split; discriminate.
Qed.

Lemma llmFailed_code status statusText :
  (res_status (llmFailed status statusText) = 429 <-> status = 429)
  /\ (res_status (llmFailed status statusText) = 429
      \/ res_status (llmFailed status statusText) = 502).
Proof.
  unfold llmFailed. simpl. destruct (status =? 429) eqn:E.
  - apply Z.eqb_eq in E. split; [tauto|left; reflexivity].
  - apply Z.eqb_neq in E. split; [split; [discriminate|tauto]|right; reflexivity].
Qed.

Section LoopMore.
Variable env : Env.
Variable prompt : string.

Lemma Answers_generateLoop names vars :
  Answers loopReply (generateLoop env prompt names vars).
Proof.
  induction names as [|name rest IH]; simpl; [apply Answers_ret|].
  apply Answers_bind.
  - apply Answers_try_catch.
    + apply Answers_bind; [|intros text; apply Answers_ret].
      unfold attempt.
      apply Answers_bind; [apply Answers_lift|intros m].
      apply Answers_bind; [apply Answers_await|intros result].
      apply Answers_bind; [apply Answers_lift|intros text].
      apply Answers_bind; [apply Answers_emit|intros _; apply Answers_ret].
    + intros llmErr. apply Answers_bind; [apply Answers_emit|intros _].
      destruct (status_of llmErr =? 404) eqn:E; [apply Answers_ret|].
      apply Answers_return. exists llmErr. split; [reflexivity|].
      apply Z.eqb_neq, E.
  - intros [vars'|]; [apply Answers_ret|exact IH].
Qed.

(** When every call is answered with a 404, the loop calls each name of
    the list once, in order. *)
Lemma generateLoop_all_404 names vars w :
  (forall h name, In name names ->
     exists m e, getGenerativeModel env name = Resolved m
                 /\ generateContent env h m prompt = Rejected e
                 /\ err_status e = Some 404) ->
  exists w' evs,
    generateLoop env prompt names vars w = (Normal vars, w')
    /\ advance env prompt names w = Some w'
    /\ files w' = files w
    /\ trace w' = trace w ++ evs
    /\ calls evs = names.
Proof.
  revert w. induction names as [|name rest IH]; intros w H.
  - exists w, []. repeat split. symmetry. apply app_nil_r.
  - destruct (H (trace w) name (or_introl eq_refl)) as (m & e & Hm & Hg & Hs).
    pose proof (attempt_rejected env prompt _ _ _ _ Hm Hg) as Ha.
    apply status_of_404 in Hs.
    destruct (IH (log (warnFailed name e) (log (EvGenerateContent name prompt (Rejected e)) w)))
      as (w' & evs & Hrun & Hadv & Hf & Ht & Hc).
    { intros h n Hn. apply H. right. exact Hn. }
    exists w', (EvGenerateContent name prompt (Rejected e) :: warnFailed name e :: evs).
    split; [rewrite (generateLoop_continue _ _ _ _ _ _ _ _ Ha Hs); exact Hrun|].
    split.
    { simpl. rewrite Ha. apply Z.eqb_eq in Hs. rewrite Hs. exact Hadv. }
    split; [exact Hf|]. split.
    { rewrite Ht. simpl. rewrite <- !app_assoc. reflexivity. }
    simpl. fold (calls evs). rewrite Hc. reflexivity.
Qed.

End LoopMore.

(** X1.  Of the failures of a candidate only the status 404 lets the loop go
    on.  At whatever position the loop has reached, a failure with another
    status, or with none, ends it at once: the reply carries the status
    taken for the failure, it is a 429 exactly for the status 429 and a 502
    otherwise, and what follows in the list is never tried. *)
Theorem X1_only_404_is_retried env prompt pre c post vars w w1 e w2 :
  advance env prompt pre w = Some w1 ->
  attempt env c prompt w1 = (Throw e, w2) ->
  (err_status e = Some 404 ->
     generateLoop env prompt (pre ++ c :: post) vars w
     = generateLoop env prompt post vars (log (warnFailed c e) w2))
  /\ (err_status e <> Some 404 ->
        generateLoop env prompt (pre ++ c :: post) vars w
        = (Return (llmFailed (status_of e) (statusText_of e)), log (warnFailed c e) w2)
        /\ (res_status (llmFailed (status_of e) (statusText_of e)) = 429
            <-> err_status e = Some 429)
        /\ (res_status (llmFailed (status_of e) (statusText_of e)) = 429
            \/ res_status (llmFailed (status_of e) (statusText_of e)) = 502)).
Proof.
  intros Hadv Ha. rewrite (generateLoop_advance _ _ _ _ _ _ _ Hadv). split.
  - intros Hs. apply status_of_404 in Hs.
    apply (generateLoop_continue _ _ _ _ _ _ _ _ Ha Hs).
  - intros Hs. assert (Hn : status_of e <> 404) by (rewrite status_of_404; exact Hs).
    split; [apply (generateLoop_stop _ _ _ _ _ _ _ _ Ha Hn)|].
    destruct (llmFailed_code (status_of e) (statusText_of e)) as [Hi Hc].
    split; [rewrite Hi; apply status_of_429|exact Hc].
Qed.

Lemma X1_witness :
  generateLoop Scenario.envServerError Fixture.p defaults
               (None, "gemini-1.5-flash-8b") Fixture.fresh
  = (Return (mkResponse 502 (Json (JObj
       [ ("error", JStr "LLM call failed"); ("status", JNum 500 0);
         ("statusText", JStr "Internal Server Error"); ("hint", JStr accessHint) ]))),
     mkWorld ∅
       [ EvGenerateContent "gemini-1.5-flash-8b" Fixture.p (Rejected Scenario.serverError);
         warnFailed "gemini-1.5-flash-8b" Scenario.serverError ]).
Proof.
  apply (X1_only_404_is_retried Scenario.envServerError Fixture.p [] "gemini-1.5-flash-8b"
           [ "gemini-1.5-flash-8b-latest"; "gemini-1.5-pro"; "gemini-1.5-pro-latest" ]
           _ Fixture.fresh Fixture.fresh Scenario.serverError
           (mkWorld ∅ [EvGenerateContent "gemini-1.5-flash-8b" Fixture.p
                                         (Rejected Scenario.serverError)])).
  - reflexivity.
  - vm_compute. reflexivity.
  - discriminate.
Defined.

(** X2.  Whatever the services do, a reply sent from inside the loop is the
    "LLM call failed" reply of a failure whose status is not 404, and its
    HTTP status is 429 or 502: the loop itself never answers 200, 404 or
    500. *)
Theorem X2_loop_replies_are_429_or_502 env prompt names vars w r w' :
  generateLoop env prompt names vars w = (Return r, w') ->
  (exists e, r = llmFailed (status_of e) (statusText_of e) /\ err_status e <> Some 404)
  /\ (res_status r = 429 \/ res_status r = 502).
Proof.
  intros H. destruct (Answers_generateLoop env prompt names vars _ _ _ H r eq_refl)
    as (e & -> & Hn).
  split.
  - exists e. split; [reflexivity|]. rewrite <- status_of_404. exact Hn.
  - apply llmFailed_code.
Qed.

Lemma X2_witness :
  (exists e, llmFailed 429 "Too Many Requests" = llmFailed (status_of e) (statusText_of e)
             /\ err_status e <> Some 404)
  /\ (res_status (llmFailed 429 "Too Many Requests") = 429
      \/ res_status (llmFailed 429 "Too Many Requests") = 502).
Proof.
  apply (X2_loop_replies_are_429_or_502 Fixture.envLimited Fixture.p defaults
           (None, "gemini-1.5-flash-8b") Fixture.fresh
           (llmFailed 429 "Too Many Requests")
           (mkWorld ∅ [ EvGenerateContent "gemini-1.5-flash-8b" Fixture.p
                                          (Rejected Fixture.tooMany);
                        warnFailed "gemini-1.5-flash-8b" Fixture.tooMany ])).
  vm_compute. reflexivity.
Defined.

(** X3.  When no candidate is reachable (each call is answered with a 404)
    the loop calls every name of the candidate list exactly once, in the
    order of the list: the override first when [GEMINI_MODEL] is set and not
    empty, then the four defaults, the override being called again if it is
    one of them.  The loop then ends without a reply. *)
Theorem X3_unreachable_models_are_each_called_once env prompt vars w :
  (forall h name, In name (modelCandidates env) ->
     exists m e, getGenerativeModel env name = Resolved m
                 /\ generateContent env h m prompt = Rejected e
                 /\ err_status e = Some 404) ->
  exists w',
    generateLoop env prompt (modelCandidates env) vars w = (Normal vars, w')
    /\ files w' = files w
    /\ calls (since w w') = modelCandidates env
    /\ (calls (since w w') = defaults
        \/ exists envModel, GEMINI_MODEL env = Some envModel
                            /\ envModel <> EmptyString
                            /\ calls (since w w') = envModel :: defaults).
Proof.
  intros H.
  destruct (generateLoop_all_404 env prompt _ vars w H) as (w' & evs & Hrun & _ & Hf & Ht & Hc).
  exists w'. split; [exact Hrun|]. split; [exact Hf|].
  rewrite (since_app _ _ _ Ht), Hc. split; [reflexivity|].
  unfold modelCandidates. destruct (GEMINI_MODEL env) as [envModel|]; [|left; reflexivity].
  unfold truthy. destruct (String.eqb envModel "") eqn:E; simpl; [left; reflexivity|].
  right. exists envModel. split; [reflexivity|]. split; [|reflexivity].
  apply String.eqb_neq, E.
Qed.

Lemma X3_witness :
  exists w',
    generateLoop Scenario.envOverride Fixture.p (modelCandidates Scenario.envOverride)
                 (None, "gemini-1.5-pro") Fixture.fresh
    = (Normal (None, "gemini-1.5-pro"), w')
    /\ calls (since Fixture.fresh w')
       = [ "gemini-1.5-pro"; "gemini-1.5-flash-8b"; "gemini-1.5-flash-8b-latest";
           "gemini-1.5-pro"; "gemini-1.5-pro-latest" ].
Proof.
  destruct (X3_unreachable_models_are_each_called_once Scenario.envOverride Fixture.p
              (None, "gemini-1.5-pro") Fixture.fresh) as (w' & Hrun & _ & Hc & _).
  - intros h name _. exists (mkModel ("models/" +:+ name)), Fixture.notFound.
    repeat split.
  - exists w'. split; [exact Hrun|exact Hc].
Defined.

(** ** Recognition and the choice of a model *)

Lemma recognizeText_eq env buf w :
  recognizeText env buf w
  = match sharp env (trace w) buf with
    | Rejected e => (Throw e, log (EvSharp buf (Rejected e)) w)
    | Resolved img =>
        let w1 := log (EvSharp buf (Resolved img)) w in
        match createWorker env (trace w1) "eng" with
        | Rejected e => (Throw e, log (EvCreateWorker "eng" (Rejected e)) w1)
        | Resolved u =>
            let w2 := log (EvCreateWorker "eng" (Resolved u)) w1 in
            match recognize env (trace w2) img with
            | Rejected e => (Throw e, log (EvRecognize img (Rejected e)) w2)
            | Resolved text =>
                let w3 := log (EvRecognize img (Resolved text)) w2 in
                match terminate env (trace w3) with
                | Rejected e => (Throw e, log (EvTerminate (Rejected e)) w3)
                | Resolved u' => (Normal text, log (EvTerminate (Resolved u')) w3)
                end
            end
        end
    end.
Proof.
  unfold recognizeText, bind, await, ret.
  destruct (sharp env (trace w) buf) as [img|e]; simpl; [|reflexivity].
  destruct (createWorker env _ "eng") as [u|e]; simpl; [|reflexivity].
  destruct (recognize env _ img) as [text|e]; simpl; [|reflexivity].
  destruct (terminate env _) as [u'|e]; reflexivity.
Qed.

Lemma Emits_recognizeText env buf : Emits quiet_line (recognizeText env buf).
Proof.
  unfold recognizeText.
  apply Emits_bind; [apply Emits_await; reflexivity|intros processed].
  apply Emits_bind; [apply Emits_await; reflexivity|intros _].
  apply Emits_bind; [apply Emits_await; reflexivity|intros ocrText].
  apply Emits_bind; [apply Emits_await; reflexivity|intros _].
  apply Emits_ret.
Qed.

Lemma Emits_chooseModel env candidates : Emits quiet_line (chooseModel env candidates).
Proof.
  unfold chooseModel. destruct (initModel env candidates None) as [[m|] lastInitError].
  - apply Emits_bind; [apply Emits_emit; reflexivity|intros _; apply Emits_ret].
  - apply Emits_bind; [apply Emits_emit; reflexivity|intros _; apply Emits_return].
Qed.

Lemma Emits_cached env jsonPath : Emits quiet_line (cached env jsonPath).
Proof.
  intros w c w'. rewrite cached_eq. destruct (files w !! jsonPath) as [bytes|].
  - cbv zeta. destruct (JSON_parse env (string_of_list_byte bytes)); ended;
      eexists [_; _]; (split; [simpl; rewrite <- app_assoc; reflexivity|]);
      repeat constructor.
  - ended. eexists [_]. split; [reflexivity|]. repeat constructor.
Qed.

Lemma quiet_line_no_calls evs :
  Forall (fun e => quiet_line e = true) evs ->
  List.filter is_invocation evs = [] /\ List.filter is_write evs = [].
Proof.
  induction 1 as [|e l He _ [IH1 IH2]]; [split; reflexivity|].
  unfold quiet_line in He. apply andb_true_iff in He. destruct He as [H1 H2].
  apply negb_true_iff in H1, H2. simpl. rewrite H1, H2. split; assumption.
Qed.

(** The first loop: with every name refused, no model and the error of
    the last name. *)
Lemma initModel_all_rejected env names lastInitError :
  (forall name, In name names -> exists e, getGenerativeModel env name = Rejected e) ->
  initModel env names lastInitError
  = (None, match names with
           | [] => lastInitError
           | _ => match getGenerativeModel env (List.last names EmptyString) with
                  | Rejected e => Some e
                  | Resolved _ => None
                  end
           end).
Proof.
  revert lastInitError. induction names as [|name rest IH]; intros lastInitError H.
  - reflexivity.
  - destruct (H name (or_introl eq_refl)) as [e He]. simpl initModel. rewrite He.
    rewrite IH by (intros n Hn; apply H; right; exact Hn).
    destruct rest as [|name' rest']; [simpl; rewrite He; reflexivity|reflexivity].
Qed.

(** The first loop: the first name the SDK accepts. *)
Lemma initModel_first_accepted env pre c post lastInitError m :
  (forall name, In name pre -> exists e, getGenerativeModel env name = Rejected e) ->
  getGenerativeModel env c = Resolved m ->
  fst (initModel env (pre ++ c :: post) lastInitError) = Some m.
Proof.
  revert lastInitError. induction pre as [|name pre IH]; intros lastInitError H Hc.
  - simpl. rewrite Hc. reflexivity.
  - destruct (H name (or_introl eq_refl)) as [e He]. simpl. rewrite He.
    apply IH; [|exact Hc]. intros n Hn. apply H. right. exact Hn.
Qed.

Lemma last_modelCandidates env :
  List.last (modelCandidates env) EmptyString = "gemini-1.5-pro-latest".
Proof.
  unfold modelCandidates. destruct (GEMINI_MODEL env) as [envModel|]; [|reflexivity].
  destruct (truthy envModel); reflexivity.
Qed.

(** The run up to the loop, on a miss. *)
Lemma extract_amounts_miss env req f w e0 w0 :
  file req = Some f ->
  cached env (jsonPath_of (SHA256.hex (buffer f))) w = (Throw e0, w0) ->
  extract_amounts env req w
  = match obtainReply env f w0 with
    | (Normal llmResponse, w1) =>
        match respond env f (imagePath_of (SHA256.hex (buffer f)))
                      (jsonPath_of (SHA256.hex (buffer f))) llmResponse w1 with
        | (Throw e, w2) => (Return processingFailed, log (errorLogged e) w2)
        | other => other
        end
    | (Return r, w1) => (Return r, w1)
    | (Throw e, w1) => (Return processingFailed, log (errorLogged e) w1)
    end.
Proof.
  intros Hf Hc. rewrite (extract_amounts_eq _ _ _ _ Hf). cbv zeta. rewrite Hc.
  rewrite processNewImage_eq.
  destruct (obtainReply env f w0) as [[llm|r|e] w1]; reflexivity.
Qed.

Lemma obtainReply_recognition_failed env f w e w1 :
  recognizeText env (buffer f) (log (EvConsole LLog [AStr "Processing new image."]) w)
  = (Throw e, w1) ->
  obtainReply env f w = (Throw e, w1).
Proof.
  intros Hr. unfold obtainReply.
  unfold bind at 1. unfold console at 1, emit at 1.
  unfold bind at 1. rewrite Hr. reflexivity.
Qed.

Lemma obtainReply_no_model env f w ocrText w1 r w2 :
  recognizeText env (buffer f) (log (EvConsole LLog [AStr "Processing new image."]) w)
  = (Normal ocrText, w1) ->
  chooseModel env (modelCandidates env) w1 = (Return r, w2) ->
  obtainReply env f w = (Return r, w2).
Proof.
  intros Hr Hc. unfold obtainReply.
  unfold bind at 1. unfold console at 1, emit at 1.
  unfold bind at 1. rewrite Hr. unfold bind at 1. rewrite Hc. reflexivity.
Qed.

(** What a run added, when it is known in two steps. *)
Lemma since_trans w w1 w2 evs1 evs2 :
  trace w1 = trace w ++ evs1 -> trace w2 = trace w1 ++ evs2 ->
  since w w2 = evs1 ++ evs2.
Proof. intros H1 H2. apply since_app. rewrite H2, H1. symmetry. apply app_assoc. Qed.

(** X4.  An empty answer is taken for no answer.  When the candidate the loop
    has reached answers with the empty text, the loop still ends on it, so
    no later candidate is asked, and the handler replies 404 "No accessible
    Gemini model found", the reply of an exhausted list; nothing is
    stored. *)
Theorem X4_empty_answer_is_answered_404 env req f w e0 w0 ocrText w1 m w2 pre c post w3 m' :
  file req = Some f ->
  cached env (jsonPath_of (SHA256.hex (buffer f))) w = (Throw e0, w0) ->
  recognizeText env (buffer f) (log (EvConsole LLog [AStr "Processing new image."]) w0)
  = (Normal ocrText, w1) ->
  chooseModel env (modelCandidates env) w1 = (Normal m, w2) ->
  modelCandidates env = pre ++ c :: post ->
  advance env (prompt ocrText) pre w2 = Some w3 ->
  getGenerativeModel env c = Resolved m' ->
  generateContent env (trace w3) m' (prompt ocrText)
  = Resolved (mkResult (Resolved EmptyString)) ->
  extract_amounts env req w
  = (Return noAccessibleModel,
     mkWorld (files w3)
       (trace w3 ++
        [ EvGenerateContent c (prompt ocrText) (Resolved (mkResult (Resolved EmptyString)));
          EvConsole LLog [AStr "Gemini generateContent succeeded with model:"; AStr c] ])).
Proof.
  intros Hf Hc Hr Hm Hl Ha Hg Ht.
  rewrite (extract_amounts_miss _ _ _ _ _ _ Hf Hc), (obtainReply_eq _ _ _ _ _ _ _ Hr Hm).
  rewrite Hl, (generateLoop_advance _ _ _ _ _ _ _ Ha).
  rewrite (generateLoop_break _ _ _ _ _ _ _ _ (attempt_answered _ _ _ _ _ _ Hg Ht)).
  simpl. unfold log. simpl. rewrite <- app_assoc. reflexivity.
Qed.

Lemma X4_witness :
  fst (extract_amounts Scenario.envEmptyReply Fixture.request Fixture.fresh)
  = Return noAccessibleModel
  /\ calls (trace (snd (extract_amounts Scenario.envEmptyReply Fixture.request Fixture.fresh)))
     = ["gemini-1.5-flash-8b"]
  /\ files (snd (extract_amounts Scenario.envEmptyReply Fixture.request Fixture.fresh)) = ∅.
Proof.
  eassert (H : extract_amounts Scenario.envEmptyReply Fixture.request Fixture.fresh = _).
  { eapply (X4_empty_answer_is_answered_404 Scenario.envEmptyReply Fixture.request
              Fixture.bill Fixture.fresh _ _ _ _ _ _ []).
    - reflexivity.
    - vm_compute. reflexivity.
    - vm_compute. reflexivity.
    - vm_compute. reflexivity.
    - reflexivity.
    - reflexivity.
    - reflexivity.
    - vm_compute. reflexivity. }
  rewrite H. repeat split; vm_compute; reflexivity.
Defined.

(** X5.  When reading the image fails, at sharp, at the creation of the
    worker, at the recognition or at the end of the worker, the request is
    answered with 500 "Failed to process image." after the error has been
    logged; no model has been called and the store is as it was. *)
Theorem X5_failed_recognition_is_answered_500 env req f w e0 w0 e w1 :
  file req = Some f ->
  cached env (jsonPath_of (SHA256.hex (buffer f))) w = (Throw e0, w0) ->
  recognizeText env (buffer f) (log (EvConsole LLog [AStr "Processing new image."]) w0)
  = (Throw e, w1) ->
  extract_amounts env req w = (Return processingFailed, log (errorLogged e) w1)
  /\ files w1 = files w
  /\ List.filter is_invocation (since w (log (errorLogged e) w1)) = []
  /\ List.filter is_write (since w (log (errorLogged e) w1)) = [].
Proof.
  intros Hf Hc Hr. split.
  - rewrite (extract_amounts_miss _ _ _ _ _ _ Hf Hc).
    rewrite (obtainReply_recognition_failed _ _ _ _ _ Hr). reflexivity.
  - destruct (quiet_cached _ _ _ _ _ Hc) as [Hf0 _].
    destruct (Calm_recognizeText _ _ _ _ _ Hr) as [[Hf1 _] _].
    split; [simpl in Hf1; congruence|].
    destruct (Emits_cached _ _ _ _ _ Hc) as (evs0 & Ht0 & Hq0).
    destruct (Emits_recognizeText _ _ _ _ _ Hr) as (evs1 & Ht1 & Hq1).
    apply quiet_line_no_calls.
    rewrite (since_app w _ (evs0 ++ [EvConsole LLog [AStr "Processing new image."]]
                                 ++ evs1 ++ [errorLogged e])).
    + repeat (apply Forall_app; split); try assumption; repeat constructor.
    + simpl. rewrite Ht1. simpl. rewrite Ht0. rewrite <- !app_assoc. reflexivity.
Qed.

Lemma X5_witness :
  extract_amounts Scenario.envNoOcr Fixture.request Fixture.fresh
  = (Return processingFailed,
     mkWorld ∅
       [ EvReadFile Scenario.billJson (Rejected ENOENT);
         EvConsole LLog [AStr "Processing new image."];
         EvSharp (buffer Fixture.bill) (Resolved (buffer Fixture.bill));
         EvCreateWorker "eng" (Resolved tt);
         EvRecognize (buffer Fixture.bill) (Rejected Scenario.ocrCrash);
         errorLogged Scenario.ocrCrash ]).
Proof.
  apply (X5_failed_recognition_is_answered_500 Scenario.envNoOcr Fixture.request
           Fixture.bill Fixture.fresh ENOENT
           (mkWorld ∅ [EvReadFile Scenario.billJson (Rejected ENOENT)])
           Scenario.ocrCrash
           (mkWorld ∅
              [ EvReadFile Scenario.billJson (Rejected ENOENT);
                EvConsole LLog [AStr "Processing new image."];
                EvSharp (buffer Fixture.bill) (Resolved (buffer Fixture.bill));
                EvCreateWorker "eng" (Resolved tt);
                EvRecognize (buffer Fixture.bill) (Rejected Scenario.ocrCrash) ])).
  - reflexivity.
  - vm_compute. reflexivity.
  - vm_compute. reflexivity.
Defined.

(** X6.  The worker is ended exactly when the recognition succeeded: in any
    run of the recognition step, [worker.terminate()] is called if and only
    if [worker.recognize] resolved.  A worker whose recognition is rejected
    is created and never terminated. *)
Theorem X6_worker_is_terminated_only_after_success env buf w :
  let evs := since w (snd (recognizeText env buf w)) in
  (exists r, In (EvTerminate r) evs)
  <-> (exists img text, In (EvRecognize img (Resolved text)) evs).
Proof.
  cbv zeta. rewrite recognizeText_eq.
  destruct (sharp env (trace w) buf) as [img|e]; cbv zeta.
  - destruct (createWorker env _ "eng") as [u|e].
    + destruct (recognize env _ img) as [text|e].
      * destruct (terminate env _) as [u'|e]; simpl;
          (erewrite since_app by (simpl; rewrite <- ?app_assoc; reflexivity));
          (split; [intros _; exists img, text; simpl; tauto
                  |intros _; eexists; simpl; right; right; right; left; reflexivity]).
      * simpl. erewrite since_app by (simpl; rewrite <- ?app_assoc; reflexivity).
        split.
        -- intros [r [H|[H|[H|[]]]]]; discriminate.
        -- intros (i & t & [H|[H|[H|[]]]]); discriminate.
    + simpl. erewrite since_app by (simpl; rewrite <- ?app_assoc; reflexivity).
      split.
      * intros [r [H|[H|[]]]]; discriminate.
      * intros (i & t & [H|[H|[]]]); discriminate.
  - simpl. erewrite since_app by (simpl; reflexivity).
    split.
    + intros [r [H|[]]]; discriminate.
    + intros (i & t & [H|[]]); discriminate.
Qed.

Lemma modelCandidates_cons env :
  exists c rest, modelCandidates env = c :: rest.
Proof.
  unfold modelCandidates. destruct (GEMINI_MODEL env) as [envModel|]; [|eexists _, _; reflexivity].
  destruct (truthy envModel); eexists _, _; reflexivity.
Qed.

Lemma chooseModel_all_rejected env w :
  (forall name, In name (modelCandidates env) ->
     exists e, getGenerativeModel env name = Rejected e) ->
  exists e,
    getGenerativeModel env "gemini-1.5-pro-latest" = Rejected e
    /\ chooseModel env (modelCandidates env) w
       = (Return initFailed,
          log (EvConsole LError [AStr "Failed to initialize any Gemini model"; AErr e]) w).
Proof.
  intros H. unfold chooseModel. rewrite (initModel_all_rejected _ _ _ H).
  rewrite last_modelCandidates.
  destruct (H "gemini-1.5-pro-latest") as [e He].
  { rewrite <- (last_modelCandidates env). destruct (modelCandidates_cons env) as (c & rest & ->).
    clear H. revert c. induction rest as [|c' rest IH]; intros c; [left; reflexivity|].
    right. apply IH. }
  exists e. split; [exact He|]. rewrite He.
  destruct (modelCandidates_cons env) as (c & rest & ->). reflexivity.
Qed.

Lemma chooseModel_first_accepted env pre c post m w :
  modelCandidates env = pre ++ c :: post ->
  (forall name, In name pre -> exists e, getGenerativeModel env name = Rejected e) ->
  getGenerativeModel env c = Resolved m ->
  chooseModel env (modelCandidates env) w
  = (Normal m,
     log (EvConsole LLog
            [ AStr "Using Gemini model:";
              if truthy (model m) then AStr (model m)
              else opt_str_arg (List.find truthy (modelCandidates env)) ]) w).
Proof.
  intros Hl Hpre Hc. unfold chooseModel.
  pose proof (initModel_first_accepted env pre c post None m Hpre Hc) as Hi.
  rewrite <- Hl in Hi.
  destruct (initModel env (modelCandidates env) None) as [o lastInitError].
  simpl in Hi. subst o. reflexivity.
Qed.

(** X7.  When the SDK refuses every candidate name, the request is answered
    with 502 "LLM initialization failed" before any model is called; what is
    logged is the error of the last name tried, which is always
    [gemini-1.5-pro-latest], and the store is as it was. *)
Theorem X7_no_model_initialised_is_answered_502 env req f w e0 w0 ocrText w1 :
  file req = Some f ->
  cached env (jsonPath_of (SHA256.hex (buffer f))) w = (Throw e0, w0) ->
  recognizeText env (buffer f) (log (EvConsole LLog [AStr "Processing new image."]) w0)
  = (Normal ocrText, w1) ->
  (forall name, In name (modelCandidates env) ->
     exists e, getGenerativeModel env name = Rejected e) ->
  exists e,
    getGenerativeModel env "gemini-1.5-pro-latest" = Rejected e
    /\ extract_amounts env req w
       = (Return initFailed,
          log (EvConsole LError [AStr "Failed to initialize any Gemini model"; AErr e]) w1)
    /\ res_status initFailed = 502
    /\ files w1 = files w
    /\ List.filter is_invocation (since w w1) = [].
Proof.
  intros Hf Hc Hr Hall.
  destruct (chooseModel_all_rejected env w1 Hall) as (e & He & Hm).
  exists e. split; [exact He|]. split.
  - rewrite (extract_amounts_miss _ _ _ _ _ _ Hf Hc).
    rewrite (obtainReply_no_model _ _ _ _ _ _ _ Hr Hm). reflexivity.
  - split; [reflexivity|].
    destruct (quiet_cached _ _ _ _ _ Hc) as [Hf0 _].
    destruct (Calm_recognizeText _ _ _ _ _ Hr) as [[Hf1 _] _].
    split; [simpl in Hf1; congruence|].
    destruct (Emits_cached _ _ _ _ _ Hc) as (evs0 & Ht0 & Hq0).
    destruct (Emits_recognizeText _ _ _ _ _ Hr) as (evs1 & Ht1 & Hq1).
    apply quiet_line_no_calls.
    rewrite (since_app w _ (evs0 ++ [EvConsole LLog [AStr "Processing new image."]] ++ evs1)).
    + repeat (apply Forall_app; split); try assumption; repeat constructor.
    + rewrite Ht1. simpl. rewrite Ht0. rewrite <- !app_assoc. reflexivity.
Qed.

Lemma X7_witness :
  exists w',
    extract_amounts Scenario.envNoSdk Fixture.request Fixture.fresh = (Return initFailed, w')
    /\ last (trace w')
       = Some (EvConsole LError [AStr "Failed to initialize any Gemini model";
                                 AErr Scenario.noKey])
    /\ calls (trace w') = [].
Proof.
  edestruct (X7_no_model_initialised_is_answered_502 Scenario.envNoSdk Fixture.request
               Fixture.bill Fixture.fresh) as (e & He & Hrun & _).
  - reflexivity.
  - vm_compute. reflexivity.
  - vm_compute. reflexivity.
  - intros name _. exists Scenario.noKey. reflexivity.
  - injection He as <-. eexists. split; [exact Hrun|]. split; vm_compute; reflexivity.
Defined.

(** X8.  The model found by the first loop is not the one the second loop
    starts with.  When the SDK refuses the first name of the list with an
    error whose status is not 404, the first loop moves on and settles on
    the first name it accepts, but the second loop starts again from the
    head of the list, fails on that first name and answers "LLM call
    failed" for it: the accepted model is never called. *)
Theorem X8_refused_head_ends_the_request env req f w e0 w0 ocrText w1 c1 pre c post e m :
  file req = Some f ->
  cached env (jsonPath_of (SHA256.hex (buffer f))) w = (Throw e0, w0) ->
  recognizeText env (buffer f) (log (EvConsole LLog [AStr "Processing new image."]) w0)
  = (Normal ocrText, w1) ->
  modelCandidates env = (c1 :: pre) ++ c :: post ->
  getGenerativeModel env c1 = Rejected e ->
  err_status e <> Some 404 ->
  (forall name, In name pre -> exists e', getGenerativeModel env name = Rejected e') ->
  getGenerativeModel env c = Resolved m ->
  let w2 := log (EvConsole LLog
                   [ AStr "Using Gemini model:";
                     if truthy (model m) then AStr (model m)
                     else opt_str_arg (List.find truthy (modelCandidates env)) ]) w1 in
  chooseModel env (modelCandidates env) w1 = (Normal m, w2)
  /\ extract_amounts env req w
     = (Return (llmFailed (status_of e) (statusText_of e)), log (warnFailed c1 e) w2)
  /\ List.filter is_invocation (since w (log (warnFailed c1 e) w2)) = [].
Proof.
  intros Hf Hc Hr Hl H1 Hs Hpre Hm w2.
  assert (Hch : chooseModel env (modelCandidates env) w1 = (Normal m, w2)).
  { apply (chooseModel_first_accepted env (c1 :: pre) c post m w1 Hl); [|exact Hm].
    intros name [<-|Hn]; [exists e; exact H1|apply Hpre, Hn]. }
  split; [exact Hch|]. split.
  - rewrite (extract_amounts_miss _ _ _ _ _ _ Hf Hc), (obtainReply_eq _ _ _ _ _ _ _ Hr Hch).
    rewrite Hl. change ((c1 :: pre) ++ c :: post) with (c1 :: (pre ++ c :: post)).
    assert (Ha : attempt env c1 (prompt ocrText) w2 = (Throw e, w2)).
    { unfold attempt, bind, lift. rewrite H1. reflexivity. }
    rewrite (generateLoop_stop _ _ _ _ _ _ _ _ Ha); [reflexivity|].
    rewrite status_of_404. exact Hs.
  - destruct (Emits_cached _ _ _ _ _ Hc) as (evs0 & Ht0 & Hq0).
    destruct (Emits_recognizeText _ _ _ _ _ Hr) as (evs1 & Ht1 & Hq1).
    apply quiet_line_no_calls.
    rewrite (since_app w _
               (evs0 ++ [EvConsole LLog [AStr "Processing new image."]] ++ evs1
                ++ [ EvConsole LLog
                       [ AStr "Using Gemini model:";
                         if truthy (model m) then AStr (model m)
                         else opt_str_arg (List.find truthy (modelCandidates env)) ];
                     warnFailed c1 e ])).
    + repeat (apply Forall_app; split); try assumption; repeat constructor.
    + unfold w2. simpl. rewrite Ht1. simpl. rewrite Ht0. rewrite <- !app_assoc. reflexivity.
Qed.

Lemma X8_witness :
  exists w',
    extract_amounts Scenario.envProOnly Fixture.request Fixture.fresh
    = (Return (llmFailed 502 "LLM error"), w')
    /\ In (EvConsole LLog [AStr "Using Gemini model:"; AStr "models/gemini-1.5-pro"]) (trace w')
    /\ calls (trace w') = [].
Proof.
  edestruct X8_refused_head_ends_the_request
    with (env := Scenario.envProOnly) (req := Fixture.request) (f := Fixture.bill)
         (w := Fixture.fresh) (c1 := "gemini-1.5-flash-8b")
         (pre := ["gemini-1.5-flash-8b-latest"]) (c := "gemini-1.5-pro")
         (post := ["gemini-1.5-pro-latest"]) (e := Scenario.noKey)
         (m := mkModel "models/gemini-1.5-pro")
    as (_ & Hrun & _).
  - reflexivity.
  - vm_compute. reflexivity.
  - vm_compute. reflexivity.
  - reflexivity.
  - reflexivity.
  - discriminate.
  - intros name [<-|[]]. exists Scenario.noKey. reflexivity.
  - reflexivity.
  - eexists. split; [exact Hrun|]. split; [vm_compute; tauto|vm_compute; reflexivity].
Defined.

(** ** The cache *)

(** X9.  A cache entry that does not parse is treated as a miss.  The line
    "Returning cached JSON result." is logged all the same, then the image
    is processed as a new one; when that run succeeds the broken entry is
    replaced by the new result. *)
Theorem X9_broken_cache_entry_is_recomputed env req f w bytes text w1 v w2 :
  let jsonPath := jsonPath_of (SHA256.hex (buffer f)) in
  let w0 := log (EvConsole LLog [AStr "Returning cached JSON result."])
                (log (EvReadFile jsonPath (Resolved (string_of_list_byte bytes))) w) in
  file req = Some f ->
  files w !! jsonPath = Some bytes ->
  JSON_parse env (string_of_list_byte bytes) = None ->
  obtainReply env f w0 = (Normal (Some text), w1) ->
  truthy text = true ->
  JSON_parse env (clean text) = Some v ->
  persist env f (imagePath_of (SHA256.hex (buffer f))) jsonPath v w1 = (Normal tt, w2) ->
  cached env jsonPath w = (Throw SyntaxError, w0)
  /\ extract_amounts env req w = (Return (mkResponse 200 (Json v)), w2)
  /\ files w2 !! jsonPath = Some (list_byte_of_string (JSON_stringify env v)).
Proof.
  intros jsonPath w0 Hf Hl Hp Ho Ht Hv Hw.
  assert (Hc : cached env jsonPath w = (Throw SyntaxError, w0)).
  { rewrite cached_eq, Hl. cbv zeta. rewrite Hp. reflexivity. }
  split; [exact Hc|]. split.
  - rewrite (extract_amounts_miss _ _ _ _ _ _ Hf Hc), Ho.
    rewrite (respond_eq _ _ _ _ _ _ Ht), validate_eq, Hv. fold jsonPath. rewrite Hw.
    reflexivity.
  - rewrite persist_eq in Hw. cbv zeta in Hw.
    destruct (writeFile_error env (trace w1) _ (buffer f)); [discriminate|].
    destruct (writeFile_error env _ jsonPath _); [discriminate|].
    injection Hw as <-. simpl. apply lookup_insert_eq.
Qed.

Lemma X9_witness :
  extract_amounts Fixture.envOk Fixture.request Scenario.stale
  = (Return (mkResponse 200 (Json Fixture.parsedOk)), Replay.healed)
  /\ files Replay.healed !! jsonPath_of (SHA256.hex (buffer Fixture.bill))
     = Some (list_byte_of_string (JSON_stringify Fixture.envOk Fixture.parsedOk)).
Proof.
  apply (X9_broken_cache_entry_is_recomputed Fixture.envOk Fixture.request Fixture.bill
           Scenario.stale (list_byte_of_string "{ currency: ") Fixture.replyOk
           Replay.staleReply Fixture.parsedOk Replay.healed).
  - reflexivity.
  - vm_compute. reflexivity.
  - vm_compute. reflexivity.
  - vm_compute. reflexivity.
  - vm_compute. reflexivity.
  - vm_compute. reflexivity.
  - vm_compute. reflexivity.
Defined.

(** X10.  On a hit the services are not consulted.  If the store holds, under
    the fingerprint of the upload, a text that parses, the request is
    answered with 200 and the parsed value as it is, whatever its shape; the
    run consists of the read and one log line, and the store is left
    alone.  Environments that parse alike answer alike, whatever their
    models, their OCR and their override. *)
Theorem X10_hit_does_not_consult_the_services env env' req f w bytes v :
  let jsonPath := jsonPath_of (SHA256.hex (buffer f)) in
  file req = Some f ->
  files w !! jsonPath = Some bytes ->
  JSON_parse env (string_of_list_byte bytes) = Some v ->
  JSON_parse env' (string_of_list_byte bytes) = Some v ->
  extract_amounts env req w
  = (Return (mkResponse 200 (Json v)),
     mkWorld (files w)
       (trace w ++ [ EvReadFile jsonPath (Resolved (string_of_list_byte bytes));
                     EvConsole LLog [AStr "Returning cached JSON result."] ]))
  /\ extract_amounts env' req w = extract_amounts env req w.
Proof.
  intros jsonPath Hf Hl Hp Hp'.
  assert (Hrun : forall en, JSON_parse en (string_of_list_byte bytes) = Some v ->
            extract_amounts en req w
            = (Return (mkResponse 200 (Json v)),
               mkWorld (files w)
                 (trace w ++ [ EvReadFile jsonPath (Resolved (string_of_list_byte bytes));
                               EvConsole LLog [AStr "Returning cached JSON result."] ]))).
  { intros en Hen. rewrite (extract_amounts_eq _ _ _ _ Hf). cbv zeta. fold jsonPath.
    rewrite cached_eq, Hl. cbv zeta. rewrite Hen. unfold log. simpl.
    rewrite <- app_assoc. reflexivity. }
  split; [apply Hrun, Hp|]. rewrite (Hrun env Hp), (Hrun env' Hp'). reflexivity.
Qed.

Lemma X10_witness :
  extract_amounts Scenario.envNoOcr Fixture.request Scenario.warm
  = (Return (mkResponse 200 (Json Scenario.parsedNoDue)),
     mkWorld (files Scenario.warm)
       (trace Scenario.warm ++
        [ EvReadFile (jsonPath_of (SHA256.hex (buffer Fixture.bill)))
            (Resolved (string_of_list_byte (list_byte_of_string Fixture.replyNoDue)));
          EvConsole LLog [AStr "Returning cached JSON result."] ]))
  /\ extract_amounts Scenario.envNoSdk Fixture.request Scenario.warm
     = extract_amounts Scenario.envNoOcr Fixture.request Scenario.warm.
Proof.
  apply (X10_hit_does_not_consult_the_services Scenario.envNoOcr Scenario.envNoSdk
           Fixture.request Fixture.bill Scenario.warm
           (list_byte_of_string Fixture.replyNoDue) Scenario.parsedNoDue).
  - reflexivity.
  - vm_compute. reflexivity.
  - vm_compute. reflexivity.
  - vm_compute. reflexivity.
Defined.

(** ** The store *)

Lemma string_app_length (a b : string) :
  String.length (a +:+ b) = (String.length a + String.length b)%nat.
Proof. induction a as [|c a IH]; simpl; [reflexivity|]. rewrite IH. reflexivity. Qed.

Lemma string_app_inv_tail (a b s : string) : a +:+ s = b +:+ s -> a = b.
Proof.
  revert b. induction a as [|c a IH]; intros [|d b] H.
  - reflexivity.
  - exfalso. apply (f_equal String.length) in H.
    rewrite !string_app_length in H. simpl in H. lia.
  - exfalso. apply (f_equal String.length) in H.
    rewrite !string_app_length in H. simpl in H. lia.
  - change (String c (a +:+ s) = String d (b +:+ s)) in H.
    injection H as -> H. f_equal. apply IH, H.
Qed.

Lemma jsonPath_of_inj h h' : jsonPath_of h = jsonPath_of h' -> h = h'.
Proof.
  unfold jsonPath_of. intros H.
  change ("uploads/" +:+ h +:+ ".json") with
    (String "u" (String "p" (String "l" (String "o" (String "a" (String "d" (String "s"
      (String "/" (h +:+ ".json"))))))))) in H.
  change ("uploads/" +:+ h' +:+ ".json") with
    (String "u" (String "p" (String "l" (String "o" (String "a" (String "d" (String "s"
      (String "/" (h' +:+ ".json"))))))))) in H.
  injection H as H. apply string_app_inv_tail in H. exact H.
Qed.

Lemma imagePath_of_inj h h' : imagePath_of h = imagePath_of h' -> h = h'.
Proof.
  unfold imagePath_of. intros H.
  change ("uploads/" +:+ h +:+ ".png") with
    (String "u" (String "p" (String "l" (String "o" (String "a" (String "d" (String "s"
      (String "/" (h +:+ ".png"))))))))) in H.
  change ("uploads/" +:+ h' +:+ ".png") with
    (String "u" (String "p" (String "l" (String "o" (String "a" (String "d" (String "s"
      (String "/" (h' +:+ ".png"))))))))) in H.
  injection H as H. apply string_app_inv_tail in H. exact H.
Qed.

Lemma path_lengths h :
  String.length (imagePath_of h) = (12 + String.length h)%nat
  /\ String.length (jsonPath_of h) = (13 + String.length h)%nat.
Proof.
  unfold imagePath_of, jsonPath_of. rewrite !string_app_length. simpl. lia.
Qed.

(** An image and a JSON text never share a path when the digests have the
    same length. *)
Lemma image_json_distinct h h' :
  String.length h = String.length h' -> imagePath_of h <> jsonPath_of h'.
Proof.
  intros Hl H. apply (f_equal String.length) in H.
  destruct (path_lengths h) as [Hi _]. destruct (path_lengths h') as [_ Hj].
  rewrite Hi, Hj in H. lia.
Qed.

Lemma persist_files env f imagePath jsonPath v w c w' :
  persist env f imagePath jsonPath v w = (c, w') ->
  (c = Normal tt
   /\ files w' = <[jsonPath := list_byte_of_string (JSON_stringify env v)]>
                   (<[imagePath := buffer f]> (files w)))
  \/ (exists e, c = Throw e
                /\ (files w' = files w \/ files w' = <[imagePath := buffer f]> (files w))).
Proof.
  rewrite persist_eq. cbv zeta.
  destruct (writeFile_error env (trace w) imagePath (buffer f)) as [e|].
  - ended. right. exists e. split; [reflexivity|left; reflexivity].
  - destruct (writeFile_error env _ jsonPath _) as [e|]; ended.
    + right. exists e. split; [reflexivity|right; reflexivity].
    + left. split; reflexivity.
Qed.

(** What a run does to the store. *)
Lemma extract_amounts_store env req f w c w' :
  file req = Some f ->
  extract_amounts env req w = (c, w') ->
  let imagePath := imagePath_of (SHA256.hex (buffer f)) in
  let jsonPath := jsonPath_of (SHA256.hex (buffer f)) in
  (files w' = files w
   /\ ((exists bytes v, files w !! jsonPath = Some bytes
                        /\ JSON_parse env (string_of_list_byte bytes) = Some v
                        /\ c = Return (mkResponse 200 (Json v)))
       \/ (exists r, c = Return r /\ res_status r <> 200)))
  \/ (exists v, c = Return (mkResponse 200 (Json v))
                /\ files w' = <[jsonPath := list_byte_of_string (JSON_stringify env v)]>
                                (<[imagePath := buffer f]> (files w)))
  \/ (c = Return processingFailed /\ files w' = <[imagePath := buffer f]> (files w)).
Proof.
  intros Hf H imagePath jsonPath.
  destruct (extract_amounts_outcomes _ _ _ _ _ _ Hf H)
    as [(bytes & v & Hl & Hp & Hc & Hw)
       |[(r & Hc & Hr & Hq)
        |[(text & v & w1 & Hq & _ & Hp & Hc)
         |(text & v & w1 & e & w2 & Hq & _ & Hp & Hc & Hw)]]].
  - left. subst w'. split; [reflexivity|]. left. exists bytes, v. repeat split; assumption.
  - left. destruct Hq as [Hfs _]. split; [exact Hfs|]. right. exists r. split; assumption.
  - right. left. exists v. split; [exact Hc|].
    destruct (persist_files _ _ _ _ _ _ _ _ Hp) as [[_ Hfs]|(e & He & _)]; [|discriminate].
    destruct Hq as [Hf1 _]. rewrite Hfs, Hf1. reflexivity.
  - destruct Hq as [Hf1 _].
    destruct (persist_files _ _ _ _ _ _ _ _ Hp) as [[He _]|(e' & _ & [Hfs|Hfs])];
      [discriminate| |].
    + left. subst w'. simpl. split; [congruence|]. right. exists processingFailed.
      split; [exact Hc|discriminate].
    + right. right. subst w'. simpl. split; [exact Hc|]. rewrite Hfs, Hf1. reflexivity.
Qed.

(** X11.  A run touches two paths at most, the image and the JSON text under
    the fingerprint of its upload: every other file of the store is after
    the run what it was before, whatever the outcome. *)
Theorem X11_other_files_are_left_alone env req f w c w' path :
  file req = Some f ->
  extract_amounts env req w = (c, w') ->
  path <> imagePath_of (SHA256.hex (buffer f)) ->
  path <> jsonPath_of (SHA256.hex (buffer f)) ->
  files w' !! path = files w !! path.
Proof.
  intros Hf H Hi Hj.
  destruct (extract_amounts_store _ _ _ _ _ _ Hf H) as [[-> _]|[(v & _ & ->)|[_ ->]]].
  - reflexivity.
  - rewrite lookup_insert_ne by congruence. apply lookup_insert_ne. congruence.
  - apply lookup_insert_ne. congruence.
Qed.

(** X12.  Uploads with different fingerprints do not disturb each other: a
    run on one upload leaves the cached result and the stored image of any
    upload with another digest untouched, so the image of one never takes
    the place of the result of another. *)
Theorem X12_other_fingerprints_are_left_alone env req f w c w' (bytes : list byte) :
  file req = Some f ->
  extract_amounts env req w = (c, w') ->
  SHA256.hex bytes <> SHA256.hex (buffer f) ->
  files w' !! jsonPath_of (SHA256.hex bytes) = files w !! jsonPath_of (SHA256.hex bytes)
  /\ files w' !! imagePath_of (SHA256.hex bytes) = files w !! imagePath_of (SHA256.hex bytes).
Proof.
  intros Hf H Hne.
  assert (Hlen : String.length (SHA256.hex bytes) = String.length (SHA256.hex (buffer f)))
    by (rewrite !SHA256_hex_length; reflexivity).
  assert (Hjj : jsonPath_of (SHA256.hex bytes) <> jsonPath_of (SHA256.hex (buffer f)))
    by (intros E; apply Hne, jsonPath_of_inj, E).
  assert (Hii : imagePath_of (SHA256.hex bytes) <> imagePath_of (SHA256.hex (buffer f)))
    by (intros E; apply Hne, imagePath_of_inj, E).
  assert (Hji : jsonPath_of (SHA256.hex bytes) <> imagePath_of (SHA256.hex (buffer f)))
    by (intros E; symmetry in E; revert E; apply image_json_distinct; congruence).
  assert (Hij : imagePath_of (SHA256.hex bytes) <> jsonPath_of (SHA256.hex (buffer f)))
    by (apply image_json_distinct, Hlen).
  destruct (extract_amounts_store _ _ _ _ _ _ Hf H) as [[-> _]|[(v & _ & ->)|[_ ->]]].
  - split; reflexivity.
  - split; (rewrite lookup_insert_ne by congruence; apply lookup_insert_ne; congruence).
  - split; apply lookup_insert_ne; congruence.
Qed.

(** X13.  A run never removes a file: every path of the store before the
    run is a path of the store after it. *)
Theorem X13_no_file_is_removed env req f w c w' path :
  file req = Some f ->
  extract_amounts env req w = (c, w') ->
  is_Some (files w !! path) ->
  is_Some (files w' !! path).
Proof.
  intros Hf H Hp.
  destruct (extract_amounts_store _ _ _ _ _ _ Hf H) as [[-> _]|[(v & _ & ->)|[_ ->]]].
  - exact Hp.
  - rewrite !lookup_insert. repeat case_decide; eauto.
  - rewrite lookup_insert. case_decide; eauto.
Qed.

(** X14.  The result is written after its image, and a written result is
    answered.  In any run, a write of the JSON text of the fingerprint is
    the second write of the run: the write of the uploaded bytes under the
    image path has resolved just before it.  When the write of the JSON
    text resolves too, the request is answered with 200, what was written
    is the printed form of the value sent, and the store holds it together
    with the uploaded bytes. *)
Theorem X14_result_is_stored_with_its_image env req f w c w' data t :
  let imagePath := imagePath_of (SHA256.hex (buffer f)) in
  let jsonPath := jsonPath_of (SHA256.hex (buffer f)) in
  file req = Some f ->
  extract_amounts env req w = (c, w') ->
  In (EvWriteFile jsonPath data t) (since w w') ->
  (exists before after,
      since w w' = before ++ EvWriteFile imagePath (buffer f) (Resolved tt)
                          :: EvWriteFile jsonPath data t :: after
      /\ List.filter is_write before = []
      /\ List.filter is_write after = [])
  /\ (t = Resolved tt ->
        exists v,
          c = Return (mkResponse 200 (Json v))
          /\ data = list_byte_of_string (JSON_stringify env v)
          /\ files w' !! jsonPath = Some data
          /\ files w' !! imagePath = Some (buffer f)).
Proof.
  intros imagePath jsonPath Hf H Hin.
  assert (Hne : imagePath <> jsonPath) by (apply image_json_distinct; reflexivity).
  assert (Hquiet : forall evs, Forall (fun e => is_write e = false) evs ->
                     List.filter is_write evs = []).
  { induction 1 as [|e l He _ IH]; [reflexivity|]. simpl. rewrite He. exact IH. }
  assert (Hnot : forall evs, Forall (fun e => is_write e = false) evs ->
                   ~ In (EvWriteFile jsonPath data t) evs).
  { intros evs Hall Hi. rewrite Forall_forall in Hall.
    specialize (Hall _ (proj2 (list_elem_of_In _ _) Hi)). discriminate. }
  assert (Hinj : forall p d r p' d' r',
             EvWriteFile p d r = EvWriteFile p' d' r' -> p = p' /\ d = d' /\ r = r')
    by (intros p d r p' d' r' E; split; [|split]; congruence).
  pose proof (extract_amounts_outcomes _ _ _ _ _ _ Hf H) as Ho.
  cbv zeta in Ho. fold imagePath jsonPath in Ho.
  destruct Ho
    as [(bytes & v & _ & _ & _ & Hw)
       |[(r & _ & _ & Hq)
        |[(text & v & w1 & Hq & _ & Hp & Hc)
         |(text & v & w1 & e & w2 & Hq & _ & Hp & Hc & Hw)]]].
  - exfalso. subst w'.
    erewrite (since_app w _ [_; _]) in Hin by (simpl; rewrite <- app_assoc; reflexivity).
    simpl in Hin. destruct Hin as [Hi|[Hi|[]]]; discriminate.
  - exfalso. destruct Hq as (_ & evs & Ht & Hall).
    rewrite (since_app _ _ _ Ht) in Hin. exact (Hnot _ Hall Hin).
  - destruct Hq as (Hfs & evs & Ht & Hall).
    rewrite persist_eq in Hp. cbv zeta in Hp.
    destruct (writeFile_error env (trace w1) imagePath (buffer f)); [discriminate|].
    destruct (writeFile_error env _ jsonPath _); [discriminate|].
    injection Hp as <-.
    rewrite (since_app w _ (evs ++ [EvWriteFile imagePath (buffer f) (Resolved tt);
                                    EvWriteFile jsonPath
                                      (list_byte_of_string (JSON_stringify env v))
                                      (Resolved tt)])) in Hin |- *
      by (simpl; rewrite Ht, <- !app_assoc; reflexivity).
    apply in_app_or in Hin. destruct Hin as [Hi|Hi]; [exfalso; exact (Hnot _ Hall Hi)|].
    simpl in Hi. destruct Hi as [Hi|[Hi|[]]].
    + exfalso. apply Hinj in Hi. exact (Hne (proj1 Hi)).
    + apply Hinj in Hi. destruct Hi as (_ & <- & <-). split.
      * exists evs, []. split; [reflexivity|]. split; [apply Hquiet, Hall|reflexivity].
      * intros _. exists v. split; [exact Hc|]. split; [reflexivity|]. simpl.
        split; [apply lookup_insert_eq|].
        rewrite lookup_insert_ne by congruence. apply lookup_insert_eq.
  - destruct Hq as (Hfs & evs & Ht & Hall).
    rewrite persist_eq in Hp. cbv zeta in Hp. subst w'.
    destruct (writeFile_error env (trace w1) imagePath (buffer f)) as [e1|].
    + exfalso. injection Hp as <- <-.
      rewrite (since_app w _ (evs ++ [EvWriteFile imagePath (buffer f) (Rejected e1);
                                      errorLogged e1])) in Hin
        by (simpl; rewrite Ht, <- !app_assoc; reflexivity).
      apply in_app_or in Hin. destruct Hin as [Hi|Hi]; [exact (Hnot _ Hall Hi)|].
      simpl in Hi. destruct Hi as [Hi|[Hi|[]]]; [|discriminate].
      apply Hinj in Hi. exact (Hne (proj1 Hi)).
    + destruct (writeFile_error env _ jsonPath _) as [e2|]; [|discriminate].
      injection Hp as <- <-.
      rewrite (since_app w _ (evs ++ [EvWriteFile imagePath (buffer f) (Resolved tt);
                                      EvWriteFile jsonPath
                                        (list_byte_of_string (JSON_stringify env v))
                                        (Rejected e2);
                                      errorLogged e2])) in Hin |- *
        by (simpl; rewrite Ht, <- !app_assoc; reflexivity).
      apply in_app_or in Hin. destruct Hin as [Hi|Hi]; [exfalso; exact (Hnot _ Hall Hi)|].
      simpl in Hi. destruct Hi as [Hi|[Hi|[Hi|[]]]]; [| |discriminate].
      * exfalso. apply Hinj in Hi. exact (Hne (proj1 Hi)).
      * apply Hinj in Hi. destruct Hi as (_ & <- & <-). split; [|discriminate].
        exists evs, [errorLogged e2].
        split; [reflexivity|]. split; [apply Hquiet, Hall|reflexivity].
Qed.

(** X15.  Every 200 is backed by the store: after a request answered with
    200 the store holds a text under the fingerprint, and that text is
    either the one that was read and parsed into the value sent, or the
    printed form of that value, just written. *)
Theorem X15_success_is_backed_by_the_store env req f w r w' :
  file req = Some f ->
  extract_amounts env req w = (Return r, w') ->
  res_status r = 200 ->
  exists v bytes,
    r = mkResponse 200 (Json v)
    /\ files w' !! jsonPath_of (SHA256.hex (buffer f)) = Some bytes
    /\ (JSON_parse env (string_of_list_byte bytes) = Some v
        \/ bytes = list_byte_of_string (JSON_stringify env v)).
Proof.
  intros Hf H Hr.
  destruct (extract_amounts_store _ _ _ _ _ _ Hf H)
    as [[Hs [(bytes & v & Hl & Hp & Hc)|(r' & Hc & Hn)]]|[(v & Hc & Hs)|[Hc _]]].
  - injection Hc as ->. exists v, bytes. split; [reflexivity|].
    split; [rewrite Hs; exact Hl|left; exact Hp].
  - injection Hc as <-. contradiction.
  - injection Hc as ->. exists v, (list_byte_of_string (JSON_stringify env v)).
    split; [reflexivity|]. split; [rewrite Hs; apply lookup_insert_eq|right; reflexivity].
  - injection Hc as ->. discriminate.
Qed.

(** X16.  Storing a result twice is the same as storing it once: when
    [persist] succeeds again for the same upload and value, the store is
    what the first success left. *)
Theorem X16_persist_is_idempotent env f imagePath jsonPath v w w1 w2 :
  persist env f imagePath jsonPath v w = (Normal tt, w1) ->
  persist env f imagePath jsonPath v w1 = (Normal tt, w2) ->
  files w2 = files w1
  /\ files w1 !! jsonPath = Some (list_byte_of_string (JSON_stringify env v)).
Proof.
  intros H1 H2.
  destruct (persist_files _ _ _ _ _ _ _ _ H1) as [[_ Hs1]|(e & He & _)]; [|discriminate].
  destruct (persist_files _ _ _ _ _ _ _ _ H2) as [[_ Hs2]|(e & He & _)]; [|discriminate].
  split; [|rewrite Hs1; apply lookup_insert_eq].
  rewrite Hs2, Hs1. apply map_eq. intros p.
  rewrite !lookup_insert. repeat case_decide; reflexivity.
Qed.

Lemma X11_witness :
  files (snd (extract_amounts Fixture.envOk Fixture.request Scenario.busy))
    !! Scenario.receiptJson
  = files Scenario.busy !! Scenario.receiptJson.
Proof.
  apply (X11_other_files_are_left_alone Fixture.envOk Fixture.request Fixture.bill
           Scenario.busy
           (fst (extract_amounts Fixture.envOk Fixture.request Scenario.busy))
           (snd (extract_amounts Fixture.envOk Fixture.request Scenario.busy))).
  - reflexivity.
  - vm_compute. reflexivity.
  - apply String.eqb_neq. vm_compute. reflexivity.
  - apply String.eqb_neq. vm_compute. reflexivity.
Defined.

Lemma X12_witness :
  files (snd (extract_amounts Fixture.envOk Fixture.request Scenario.busy))
    !! jsonPath_of (SHA256.hex (buffer Scenario.receipt))
  = files Scenario.busy !! jsonPath_of (SHA256.hex (buffer Scenario.receipt))
  /\ files (snd (extract_amounts Fixture.envOk Fixture.request Scenario.busy))
       !! imagePath_of (SHA256.hex (buffer Scenario.receipt))
     = files Scenario.busy !! imagePath_of (SHA256.hex (buffer Scenario.receipt)).
Proof.
  apply (X12_other_fingerprints_are_left_alone Fixture.envOk Fixture.request Fixture.bill
           Scenario.busy
           (fst (extract_amounts Fixture.envOk Fixture.request Scenario.busy))
           (snd (extract_amounts Fixture.envOk Fixture.request Scenario.busy))
           (buffer Scenario.receipt)).
  - reflexivity.
  - vm_compute. reflexivity.
  - apply String.eqb_neq. vm_compute. reflexivity.
Defined.

Lemma X13_witness :
  is_Some (files (snd (extract_amounts Fixture.envJsonFails Fixture.request Scenario.busy))
             !! Scenario.receiptJson).
Proof.
  apply (X13_no_file_is_removed Fixture.envJsonFails Fixture.request Fixture.bill
           Scenario.busy
           (fst (extract_amounts Fixture.envJsonFails Fixture.request Scenario.busy))
           (snd (extract_amounts Fixture.envJsonFails Fixture.request Scenario.busy))).
  - reflexivity.
  - vm_compute. reflexivity.
  - exists (list_byte_of_string Fixture.replyNoDue). vm_compute. reflexivity.
Defined.

Lemma X14_witness :
  (exists before after,
      since Fixture.fresh Fixture.afterOk
      = before ++ EvWriteFile (imagePath_of (SHA256.hex (buffer Fixture.bill)))
                              (buffer Fixture.bill) (Resolved tt)
               :: EvWriteFile (jsonPath_of (SHA256.hex (buffer Fixture.bill)))
                              (list_byte_of_string (JsonText.stringify Fixture.parsedOk))
                              (Resolved tt) :: after
      /\ List.filter is_write before = []
      /\ List.filter is_write after = [])
  /\ (Resolved tt = Resolved tt ->
        exists v,
          fst (extract_amounts Fixture.envOk Fixture.request Fixture.fresh)
          = Return (mkResponse 200 (Json v))
          /\ list_byte_of_string (JsonText.stringify Fixture.parsedOk)
             = list_byte_of_string (JSON_stringify Fixture.envOk v)
          /\ files Fixture.afterOk !! jsonPath_of (SHA256.hex (buffer Fixture.bill))
             = Some (list_byte_of_string (JsonText.stringify Fixture.parsedOk))
          /\ files Fixture.afterOk !! imagePath_of (SHA256.hex (buffer Fixture.bill))
             = Some (buffer Fixture.bill)).
Proof.
  apply (X14_result_is_stored_with_its_image Fixture.envOk Fixture.request Fixture.bill
           Fixture.fresh
           (fst (extract_amounts Fixture.envOk Fixture.request Fixture.fresh))
           Fixture.afterOk
           (list_byte_of_string (JsonText.stringify Fixture.parsedOk)) (Resolved tt)).
  - reflexivity.
  - vm_compute. reflexivity.
  - vm_compute. tauto.
Defined.

Lemma X15_witness :
  exists v bytes,
    mkResponse 200 (Json Fixture.parsedOk) = mkResponse 200 (Json v)
    /\ files Fixture.afterOk !! jsonPath_of (SHA256.hex (buffer Fixture.bill)) = Some bytes
    /\ (JSON_parse Fixture.envOk (string_of_list_byte bytes) = Some v
        \/ bytes = list_byte_of_string (JSON_stringify Fixture.envOk v)).
Proof.
  apply (X15_success_is_backed_by_the_store Fixture.envOk Fixture.request Fixture.bill
           Fixture.fresh (mkResponse 200 (Json Fixture.parsedOk)) Fixture.afterOk).
  - reflexivity.
  - vm_compute. reflexivity.
  - reflexivity.
Defined.

Lemma X16_witness :
  files (snd (persist Fixture.envOk Fixture.bill Scenario.billPng Scenario.billJson
                      Fixture.parsedOk Scenario.stored))
  = files Scenario.stored
  /\ files Scenario.stored !! Scenario.billJson
     = Some (list_byte_of_string (JSON_stringify Fixture.envOk Fixture.parsedOk)).
Proof.
  apply (X16_persist_is_idempotent Fixture.envOk Fixture.bill Scenario.billPng
           Scenario.billJson Fixture.parsedOk Fixture.fresh Scenario.stored
           (snd (persist Fixture.envOk Fixture.bill Scenario.billPng Scenario.billJson
                         Fixture.parsedOk Scenario.stored))).
  - vm_compute. reflexivity.
  - vm_compute. reflexivity.
Defined.

(** ** The answers of the route *)

Lemma Answers_weaken {A} (P Q : Response -> Prop) (m : M A) :
  (forall r, P r -> Q r) -> Answers P m -> Answers Q m.
Proof. intros HPQ Hm w c w' H r Hr. apply HPQ. exact (Hm _ _ _ H r Hr). Qed.

Lemma Answers_obtainReply env f :
  Answers (fun r => res_status r = 429 \/ res_status r = 502) (obtainReply env f).
Proof.
  unfold obtainReply.
  apply Answers_bind; [apply Answers_emit|intros _].
  apply Answers_bind.
  { unfold recognizeText.
    apply Answers_bind; [apply Answers_await|intros processed].
    apply Answers_bind; [apply Answers_await|intros _].
    apply Answers_bind; [apply Answers_await|intros ocrText].
    apply Answers_bind; [apply Answers_await|intros _; apply Answers_ret]. }
  intros ocrText. apply Answers_bind.
  { unfold chooseModel.
    destruct (initModel env (modelCandidates env) None) as [[m|] lastInitError].
    - apply Answers_bind; [apply Answers_emit|intros _; apply Answers_ret].
    - apply Answers_bind; [apply Answers_emit|intros _].
      apply Answers_return. right. reflexivity. }
  intros m. apply Answers_bind; [|intros vars; apply Answers_ret].
  apply (Answers_weaken loopReply); [|apply Answers_generateLoop].
  intros r (e & -> & _). apply llmFailed_code.
Qed.

(** X17.  No error escapes the handler.  A run that comes to its end, every
    awaited call having settled, ends with a reply and never with an
    uncaught error; the status of the reply is 200, 400, 404, 429, 500 or
    502, and it is 400 exactly when the request has no file.  (A call that
    never settles has no outcome here; the handler sets no timeout, so such
    a run sends nothing.) *)
Theorem X17_no_error_escapes_the_handler env req w c w' :
  extract_amounts env req w = (c, w') ->
  exists r,
    c = Return r
    /\ route_status (res_status r)
    /\ (res_status r = 400 <-> file req = None).
Proof.
  intros Hrun.
  assert (Hall : exists r w1,
            extract_amounts env req w = (Return r, w1)
            /\ route_status (res_status r)
            /\ (res_status r = 400 <-> file req = None)).
  { unfold route_status. destruct (file req) as [f|] eqn:Hf.
    - assert (Hcase : exists r w1,
                extract_amounts env req w = (Return r, w1)
                /\ (res_status r = 200 \/ res_status r = 404 \/ res_status r = 429
                    \/ res_status r = 500 \/ res_status r = 502)).
      { rewrite (extract_amounts_eq _ _ _ _ Hf). cbv zeta.
        rewrite cached_eq.
        assert (Hnew : forall w0, exists r w1,
                   match processNewImage env f (imagePath_of (SHA256.hex (buffer f)))
                           (jsonPath_of (SHA256.hex (buffer f))) w0 with
                   | (Throw e, w2) => (Return processingFailed, log (errorLogged e) w2)
                   | other => other
                   end = (Return r, w1)
                   /\ (res_status r = 200 \/ res_status r = 404 \/ res_status r = 429
                       \/ res_status r = 500 \/ res_status r = 502)).
        { intros w0. rewrite processNewImage_eq.
          destruct (obtainReply env f w0) as [[llm|r|e] w1] eqn:Eo.
          - destruct (match llm with Some text => truthy text | None => false end) eqn:Et.
            + destruct llm as [text|]; [|discriminate].
              rewrite (respond_eq _ _ _ _ _ _ Et), validate_eq.
              destruct (JSON_parse env (clean text)) as [v|].
              * destruct (persist env f _ _ v w1) as [[[]|r|e] w2] eqn:Ep.
                -- eexists _, _. split; [reflexivity|]. left. reflexivity.
                -- exfalso. exact (persist_no_return _ _ _ _ _ _ _ _ Ep).
                -- eexists _, _. split; [reflexivity|]. simpl. tauto.
              * eexists _, _. split; [reflexivity|]. simpl. tauto.
            + rewrite (respond_falsy _ _ _ _ _ _ Et).
              eexists _, _. split; [reflexivity|]. simpl. tauto.
          - eexists _, _. split; [reflexivity|].
            destruct (Answers_obtainReply env f _ _ _ Eo r eq_refl) as [H|H]; rewrite H; tauto.
          - eexists _, _. split; [reflexivity|]. simpl. tauto. }
        destruct (files w !! jsonPath_of (SHA256.hex (buffer f))) as [bytes|]; [|apply Hnew].
        cbv zeta. destruct (JSON_parse env (string_of_list_byte bytes)); [|apply Hnew].
        eexists _, _. split; [reflexivity|]. left. reflexivity. }
      destruct Hcase as (r & w1 & Hr & Hs). exists r, w1. split; [exact Hr|].
      split; [tauto|]. split; [|discriminate].
      intros H. rewrite H in Hs. destruct Hs as [Hs|[Hs|[Hs|[Hs|Hs]]]]; discriminate.
    - exists noFile, w. unfold extract_amounts. rewrite Hf.
      split; [reflexivity|]. split; [simpl; tauto|]. split; reflexivity. }
  destruct Hall as (r & w1 & Hr & Hs & H400).
  rewrite Hr in Hrun. injection Hrun as <- <-.
  exists r. split; [reflexivity|]. split; assumption.
Qed.

Lemma X17_witness :
  exists r,
    fst (extract_amounts Fixture.envReadonly Fixture.request Fixture.fresh) = Return r
    /\ route_status (res_status r)
    /\ (res_status r = 400 <-> file Fixture.request = None).
Proof.
  apply (X17_no_error_escapes_the_handler Fixture.envReadonly Fixture.request Fixture.fresh
           (fst (extract_amounts Fixture.envReadonly Fixture.request Fixture.fresh))
           (snd (extract_amounts Fixture.envReadonly Fixture.request Fixture.fresh))).
  vm_compute. reflexivity.
Defined.

(** ** Cleaning the reply *)

Lemma no_backtick_head c r :
  no_backtick (String c r) = true -> c <> "`"%char /\ no_backtick r = true.
Proof.
  simpl. intros H. apply andb_true_iff in H. destruct H as [Hc Hr]. split; [|exact Hr].
  intros ->. discriminate.
Qed.

(** A pattern that begins with a backtick does not match where there is
    none. *)
Lemma remove_all_no_backtick pat' a b :
  no_backtick a = true ->
  remove_all_from (String "`" pat') O (a +:+ b)
  = a +:+ remove_all_from (String "`" pat') O b.
Proof.
  induction a as [|c a IH]; intros H; [reflexivity|].
  apply no_backtick_head in H. destruct H as [Hc Ha].
  change (String c a +:+ b) with (String c (a +:+ b)).
  change (String c a +:+ remove_all_from (String "`" pat') 0 b)
    with (String c (a +:+ remove_all_from (String "`" pat') 0 b)).
  cbn [remove_all_from String.prefix].
  destruct (ascii_dec "`" c) as [E|_]; [exfalso; apply Hc; symmetry; exact E|].
  rewrite (IH Ha). reflexivity.
Qed.

Lemma string_app_nil_r (s : string) : s +:+ EmptyString = s.
Proof.
  induction s as [|c s IH]; [reflexivity|].
  change (String c (s +:+ EmptyString) = String c s). rewrite IH. reflexivity.
Qed.

Lemma string_app_assoc (a b c : string) : (a +:+ b) +:+ c = a +:+ (b +:+ c).
Proof.
  induction a as [|x a IH]; [reflexivity|].
  change (String x ((a +:+ b) +:+ c) = String x (a +:+ (b +:+ c))). rewrite IH. reflexivity.
Qed.

(** Without a backtick there is nothing to remove. *)
Lemma remove_all_id pat' s :
  no_backtick s = true -> remove_all (String "`" pat') s = s.
Proof.
  intros H. unfold remove_all.
  pose proof (remove_all_no_backtick pat' s EmptyString H) as E.
  cbn [remove_all_from] in E. rewrite !string_app_nil_r in E. exact E.
Qed.

Lemma rev_app_app (a b acc : string) :
  String.rev_app (a +:+ b) acc = String.rev_app b (String.rev_app a acc).
Proof.
  revert acc. induction a as [|c a IH]; intros acc; [reflexivity|].
  change (String.rev_app (a +:+ b) (String c acc)
          = String.rev_app b (String.rev_app a (String c acc))).
  apply IH.
Qed.

(** A line feed at the end is trimmed away. *)
Lemma trimEnd_newline t : trimEnd (t +:+ nl) = trimEnd t.
Proof. unfold trimEnd, String.rev. rewrite rev_app_app. reflexivity. Qed.

Lemma nl_eq : nl = String "010" EmptyString.
Proof. reflexivity. Qed.

Lemma space3_newline a b : space3 a b "010" = false.
Proof.
  unfold space3. cbn.
  rewrite ?andb_false_r, ?orb_false_r. reflexivity.
Qed.

Lemma space2_newline a : space2 a "010" = false.
Proof. unfold space2. cbn. apply andb_false_r. Qed.

(** [trimStart], case by case. *)
Lemma trimStart_space a r :
  ascii_space a = true -> trimStart (String a r) = trimStart r.
Proof. intros H. cbn [trimStart]. rewrite H. reflexivity. Qed.

Lemma trimStart_one a :
  ascii_space a = false -> trimStart (String a EmptyString) = String a EmptyString.
Proof. intros H. cbn [trimStart]. rewrite H. reflexivity. Qed.

Lemma trimStart_space2 a b r :
  ascii_space a = false -> space2 a b = true ->
  trimStart (String a (String b r)) = trimStart r.
Proof. intros H1 H2. cbn [trimStart]. rewrite H1, H2. reflexivity. Qed.

Lemma trimStart_two a b :
  ascii_space a = false -> space2 a b = false ->
  trimStart (String a (String b EmptyString)) = String a (String b EmptyString).
Proof. intros H1 H2. cbn [trimStart]. rewrite H1, H2. reflexivity. Qed.

Lemma trimStart_space3 a b c r :
  ascii_space a = false -> space2 a b = false -> space3 a b c = true ->
  trimStart (String a (String b (String c r))) = trimStart r.
Proof. intros H1 H2 H3. cbn [trimStart]. rewrite H1, H2, H3. reflexivity. Qed.

Lemma trimStart_three a b c r :
  ascii_space a = false -> space2 a b = false -> space3 a b c = false ->
  trimStart (String a (String b (String c r))) = String a (String b (String c r)).
Proof. intros H1 H2 H3. cbn [trimStart]. rewrite H1, H2, H3. reflexivity. Qed.

(** The same holds in front of the text, and a line feed after the text
    stays with it unless the text is white space only. *)
Lemma trimStart_newline n s :
  (String.length s <= n)%nat ->
  trimStart (s +:+ nl)
  = match trimStart s with
    | EmptyString => EmptyString
    | t => t +:+ nl
    end.
Proof.
  revert s. induction n as [|n IH]; intros s Hn.
  - destruct s; [reflexivity|simpl in Hn; lia].
  - destruct s as [|a r1]; [reflexivity|]. simpl in Hn.
    destruct (ascii_space a) eqn:Ea.
    { change (String a r1 +:+ nl) with (String a (r1 +:+ nl)).
      rewrite !(trimStart_space _ _ Ea). apply IH. lia. }
    destruct r1 as [|b r2].
    { change (String a EmptyString +:+ nl) with (String a (String "010" EmptyString)).
      rewrite (trimStart_two _ _ Ea (space2_newline a)), (trimStart_one _ Ea). reflexivity. }
    simpl in Hn. destruct (space2 a b) eqn:E2.
    { change (String a (String b r2) +:+ nl) with (String a (String b (r2 +:+ nl))).
      rewrite !(trimStart_space2 _ _ _ Ea E2). apply IH. lia. }
    destruct r2 as [|c r3].
    { change (String a (String b EmptyString) +:+ nl)
        with (String a (String b (String "010" EmptyString))).
      rewrite (trimStart_three _ _ _ _ Ea E2 (space3_newline a b)), (trimStart_two _ _ Ea E2).
      reflexivity. }
    simpl in Hn. destruct (space3 a b c) eqn:E3.
    { change (String a (String b (String c r3)) +:+ nl)
        with (String a (String b (String c (r3 +:+ nl)))).
      rewrite !(trimStart_space3 _ _ _ _ Ea E2 E3). apply IH. lia. }
    change (String a (String b (String c r3)) +:+ nl)
      with (String a (String b (String c (r3 +:+ nl)))).
    rewrite !(trimStart_three _ _ _ _ Ea E2 E3). reflexivity.
Qed.

Lemma trim_newline s : trim (s +:+ nl) = trim s.
Proof.
  unfold trim. rewrite (trimStart_newline (String.length s) s (le_n _)).
  destruct (trimStart s) as [|c t]; [reflexivity|]. apply trimEnd_newline.
Qed.

Lemma clean_fenced body :
  no_backtick body = true -> clean (fenced body) = trim body.
Proof.
  intros H. unfold clean, fenced, remove_all.
  change (remove_all_from "```json" 0 ("```json" +:+ nl +:+ body +:+ nl +:+ "```"))
    with (nl +:+ remove_all_from "```json" 0 (body +:+ nl +:+ "```")).
  rewrite (remove_all_no_backtick "``json" _ _ H).
  change (remove_all_from "```json" 0 (nl +:+ "```")) with (nl +:+ "```").
  change (remove_all_from "```" 0 (nl +:+ body +:+ nl +:+ "```"))
    with (nl +:+ remove_all_from "```" 0 (body +:+ nl +:+ "```")).
  rewrite (remove_all_no_backtick "``" _ _ H).
  change (remove_all_from "```" 0 (nl +:+ "```")) with nl.
  change (trim (nl +:+ body +:+ nl)) with (trim (body +:+ nl)).
  apply trim_newline.
Qed.

Lemma clean_bare body : no_backtick body = true -> clean body = trim body.
Proof.
  intros H. unfold clean. rewrite (remove_all_id "``json" _ H), (remove_all_id "``" _ H).
  reflexivity.
Qed.

(** X18.  The fence is taken off and nothing else.  A reply without
    backticks is only trimmed, and the same reply wrapped in a Markdown
    fence with the word json cleans to the very same text, so both are
    handed to the parser alike. *)
Theorem X18_fence_is_stripped body :
  no_backtick body = true ->
  clean (fenced body) = trim body
  /\ clean body = trim body
  /\ clean (fenced body) = clean body.
Proof.
  intros H. rewrite (clean_fenced _ H), (clean_bare _ H). repeat split.
Qed.

Lemma X18_witness :
  clean (fenced Fixture.replyOk) = trim Fixture.replyOk
  /\ clean Fixture.replyOk = trim Fixture.replyOk
  /\ clean (fenced Fixture.replyOk) = clean Fixture.replyOk.
Proof.
  apply (X18_fence_is_stripped Fixture.replyOk). vm_compute. reflexivity.
Defined.

(** X19.  A fenced reply is validated like the bare one: for a reply without
    backticks the validator yields the same value, or the same rejection
    with 500, whether or not the reply came wrapped in a fence. *)
Theorem X19_fenced_reply_validates_alike env body w :
  no_backtick body = true ->
  fst (validate env (fenced body) w) = fst (validate env body w)
  /\ (forall v, validate env body w = (Normal v, w) ->
        validate env (fenced body) w = (Normal v, w)).
Proof.
  intros H. rewrite !validate_eq, (clean_fenced _ H), (clean_bare _ H).
  destruct (JSON_parse env (trim body)); split; try reflexivity.
  - intros v0 Hv. exact Hv.
  - intros v Hv. discriminate.
Qed.

Lemma X19_witness :
  fst (validate Fixture.envOk (fenced Fixture.replyOk) Fixture.fresh)
  = fst (validate Fixture.envOk Fixture.replyOk Fixture.fresh).
Proof.
  apply (X19_fenced_reply_validates_alike Fixture.envOk Fixture.replyOk Fixture.fresh).
  vm_compute. reflexivity.
Defined.

(** ** No fence is left in the cleaned reply *)

Lemma contains_tail p c r : contains p (String c r) = false -> contains p r = false.
Proof. cbn [contains]. intros H. apply orb_false_iff in H. apply H. Qed.

Lemma contains_suffix p u x : contains p (u +:+ x) = false -> contains p x = false.
Proof.
  induction u as [|c u IH]; intros H; [exact H|].
  change (String c u +:+ x) with (String c (u +:+ x)) in H.
  apply IH, (contains_tail _ _ _ H).
Qed.

Lemma prefix_app p x u : String.prefix p x = true -> String.prefix p (x +:+ u) = true.
Proof.
  revert x. induction p as [|a p IH]; intros x H; [destruct (x +:+ u); reflexivity|].
  destruct x as [|b x]; [discriminate|].
  change (String b x +:+ u) with (String b (x +:+ u)).
  cbn [String.prefix] in *. destruct (ascii_dec a b); [apply IH, H|discriminate].
Qed.

Lemma contains_prefix p x u : contains p (x +:+ u) = false -> contains p x = false.
Proof.
  induction x as [|c x IH]; intros H.
  - destruct p as [|a p]; [|reflexivity].
    change (EmptyString +:+ u) with u in H. destruct u; discriminate.
  - change (String c x +:+ u) with (String c (x +:+ u)) in H.
    cbn [contains] in *. apply orb_false_iff in H. destruct H as [H1 H2].
    rewrite (IH H2), orb_false_r.
    destruct (String.prefix p (String c x)) eqn:E; [|reflexivity].
    apply (prefix_app _ _ u) in E.
    change (String c x +:+ u) with (String c (x +:+ u)) in E. congruence.
Qed.

Lemma trimStart_suffix n s :
  (String.length s <= n)%nat -> exists u, s = u +:+ trimStart s.
Proof.
  revert s. induction n as [|n IH]; intros s Hn.
  - destruct s; [exists EmptyString; reflexivity|simpl in Hn; lia].
  - destruct s as [|a r1]; [exists EmptyString; reflexivity|]. simpl in Hn.
    destruct (ascii_space a) eqn:Ea.
    { rewrite (trimStart_space _ _ Ea). destruct (IH r1) as [u Hu]; [lia|].
      exists (String a u). rewrite Hu at 1. reflexivity. }
    destruct r1 as [|b r2].
    { rewrite (trimStart_one _ Ea). exists EmptyString. reflexivity. }
    simpl in Hn. destruct (space2 a b) eqn:E2.
    { rewrite (trimStart_space2 _ _ _ Ea E2). destruct (IH r2) as [u Hu]; [lia|].
      exists (String a (String b u)). rewrite Hu at 1. reflexivity. }
    destruct r2 as [|c r3].
    { rewrite (trimStart_two _ _ Ea E2). exists EmptyString. reflexivity. }
    simpl in Hn. destruct (space3 a b c) eqn:E3.
    { rewrite (trimStart_space3 _ _ _ _ Ea E2 E3). destruct (IH r3) as [u Hu]; [lia|].
      exists (String a (String b (String c u))). rewrite Hu at 1. reflexivity. }
    rewrite (trimStart_three _ _ _ _ Ea E2 E3). exists EmptyString. reflexivity.
Qed.

Lemma trimStart_rev_suffix n s :
  (String.length s <= n)%nat -> exists u, s = u +:+ trimStart_rev s.
Proof.
  revert s. induction n as [|n IH]; intros s Hn.
  - destruct s; [exists EmptyString; reflexivity|simpl in Hn; lia].
  - destruct s as [|a r1]; [exists EmptyString; reflexivity|]. simpl in Hn.
    cbn [trimStart_rev]. destruct (ascii_space a).
    { destruct (IH r1) as [u Hu]; [lia|].
      exists (String a u). rewrite Hu at 1. reflexivity. }
    destruct r1 as [|b r2]; [exists EmptyString; reflexivity|].
    simpl in Hn. destruct (space2 b a).
    { destruct (IH r2) as [u Hu]; [lia|].
      exists (String a (String b u)). rewrite Hu at 1. reflexivity. }
    destruct r2 as [|c r3]; [exists EmptyString; reflexivity|].
    simpl in Hn. destruct (space3 c b a).
    { destruct (IH r3) as [u Hu]; [lia|].
      exists (String a (String b (String c u))). rewrite Hu at 1. reflexivity. }
    exists EmptyString. reflexivity.
Qed.

Lemma rev_app_acc a acc : String.rev_app a acc = String.rev_app a EmptyString +:+ acc.
Proof.
  revert acc. induction a as [|c a IH]; intros acc; [reflexivity|].
  change (String.rev_app a (String c acc)
          = String.rev_app a (String c EmptyString) +:+ acc).
  rewrite (IH (String c acc)), (IH (String c EmptyString)).
  rewrite string_app_assoc. reflexivity.
Qed.

Lemma rev_app_distr a b : String.rev (a +:+ b) = String.rev b +:+ String.rev a.
Proof. unfold String.rev. rewrite rev_app_app. apply rev_app_acc. Qed.

Lemma rev_involutive a : String.rev (String.rev a) = a.
Proof.
  induction a as [|c a IH]; [reflexivity|].
  change (String.rev (String c a)) with (String.rev_app a (String c EmptyString)).
  rewrite rev_app_acc. fold (String.rev a). rewrite rev_app_distr, IH. reflexivity.
Qed.

Lemma trimEnd_prefix t : exists u, t = trimEnd t +:+ u.
Proof.
  unfold trimEnd.
  destruct (trimStart_rev_suffix _ (String.rev t) (le_n _)) as [u Hu].
  exists (String.rev u). rewrite <- rev_app_distr, <- Hu. symmetry. apply rev_involutive.
Qed.

(** What the text did not contain, the trimmed text does not contain. *)
Lemma contains_trim p s : contains p s = false -> contains p (trim s) = false.
Proof.
  intros H. unfold trim.
  destruct (trimStart_suffix _ s (le_n _)) as [u Hu]. rewrite Hu in H.
  apply contains_suffix in H.
  destruct (trimEnd_prefix (trimStart s)) as [u' Hu']. rewrite Hu' in H.
  apply contains_prefix in H. exact H.
Qed.

(** The removal of the fences, case by case on the backticks in front. *)
Lemma fence_other c r :
  c <> "`"%char ->
  remove_all_from "```" O (String c r) = String c (remove_all_from "```" O r).
Proof.
  intros Hc. cbn [remove_all_from String.prefix].
  destruct (ascii_dec "`" c) as [E|_]; [exfalso; apply Hc; symmetry; exact E|reflexivity].
Qed.

Lemma fence_one d r :
  d <> "`"%char ->
  remove_all_from "```" O (String "`" (String d r))
  = String "`" (remove_all_from "```" O (String d r)).
Proof.
  intros Hd. cbn [remove_all_from String.prefix].
  destruct (ascii_dec "`" "`") as [_|N]; [|exfalso; apply N; reflexivity].
  destruct (ascii_dec "`" d) as [E|_]; [exfalso; apply Hd; symmetry; exact E|reflexivity].
Qed.

Lemma fence_two e r :
  e <> "`"%char ->
  remove_all_from "```" O (String "`" (String "`" (String e r)))
  = String "`" (String "`" (remove_all_from "```" O (String e r))).
Proof.
  intros He. cbn [remove_all_from String.prefix].
  destruct (ascii_dec "`" "`") as [_|N]; [|exfalso; apply N; reflexivity].
  destruct (ascii_dec "`" e) as [E|_]; [exfalso; apply He; symmetry; exact E|reflexivity].
Qed.

Lemma fence_three r :
  remove_all_from "```" O (String "`" (String "`" (String "`" r)))
  = remove_all_from "```" O r.
Proof.
  cbn [remove_all_from String.prefix].
  destruct (ascii_dec "`" "`") as [_|N]; [|exfalso; apply N; reflexivity].
  destruct r; reflexivity.
Qed.

Lemma no_fence_other c x :
  c <> "`"%char -> contains "```" (String c x) = contains "```" x.
Proof.
  intros Hc. cbn [contains String.prefix].
  destruct (ascii_dec "`" c) as [E|_]; [exfalso; apply Hc; symmetry; exact E|reflexivity].
Qed.

Lemma no_fence_one d x :
  d <> "`"%char -> contains "```" (String "`" (String d x)) = contains "```" x.
Proof.
  intros Hd. rewrite <- (no_fence_other d x Hd). cbn [contains String.prefix].
  destruct (ascii_dec "`" "`") as [_|N]; [|exfalso; apply N; reflexivity].
  destruct (ascii_dec "`" d) as [E|_]; [exfalso; apply Hd; symmetry; exact E|reflexivity].
Qed.

Lemma no_fence_two e x :
  e <> "`"%char -> contains "```" (String "`" (String "`" (String e x))) = contains "```" x.
Proof.
  intros He. rewrite <- (no_fence_one e x He). cbn [contains String.prefix].
  destruct (ascii_dec "`" "`") as [_|N]; [|exfalso; apply N; reflexivity].
  destruct (ascii_dec "`" e) as [E|_]; [exfalso; apply He; symmetry; exact E|reflexivity].
Qed.

Lemma remove_all_leaves_no_fence n s :
  (String.length s <= n)%nat -> contains "```" (remove_all "```" s) = false.
Proof.
  unfold remove_all. revert s. induction n as [|n IH]; intros s Hn.
  - destruct s; [reflexivity|simpl in Hn; lia].
  - destruct s as [|c r]; [reflexivity|]. simpl in Hn.
    destruct (ascii_dec c "`") as [->|Hc].
    2:{ rewrite (fence_other _ _ Hc), (no_fence_other _ _ Hc). apply IH. lia. }
    destruct r as [|d r]; [reflexivity|]. simpl in Hn.
    destruct (ascii_dec d "`") as [->|Hd].
    2:{ rewrite (fence_one _ _ Hd), (fence_other _ _ Hd), (no_fence_one _ _ Hd).
        apply IH. lia. }
    destruct r as [|e r]; [reflexivity|]. simpl in Hn.
    destruct (ascii_dec e "`") as [->|He].
    2:{ rewrite (fence_two _ _ He), (fence_other _ _ He), (no_fence_two _ _ He).
        apply IH. lia. }
    rewrite fence_three. apply IH. lia.
Qed.

(** X20.  Whatever the model sent, the text handed to [JSON.parse] contains
    no Markdown fence: after the cleaning no three backticks in a row are
    left, at the ends or inside. *)
Theorem X20_cleaned_reply_has_no_fence llmResponse :
  contains "```" (clean llmResponse) = false.
Proof.
  unfold clean. apply contains_trim. apply (remove_all_leaves_no_fence _ _ (le_n _)).
Qed.

(** ** Cleaning twice *)

Lemma remove_all_absent p s : contains p s = false -> remove_all p s = s.
Proof.
  unfold remove_all. induction s as [|c r IH]; intros H; [reflexivity|].
  cbn [contains] in H. apply orb_false_iff in H. destruct H as [H1 H2].
  cbn [remove_all_from]. rewrite H1, (IH H2). reflexivity.
Qed.

Lemma prefix_app_l p q s : String.prefix (p +:+ q) s = true -> String.prefix p s = true.
Proof.
  revert s. induction p as [|a p IH]; intros s H; [destruct s; reflexivity|].
  change (String a p +:+ q) with (String a (p +:+ q)) in H.
  destruct s as [|b s]; [discriminate|].
  cbn [String.prefix] in *. destruct (ascii_dec a b); [apply IH, H|discriminate].
Qed.

Lemma contains_app_l p q s : contains p s = false -> contains (p +:+ q) s = false.
Proof.
  induction s as [|c r IH]; intros H.
  - cbn [contains] in *. apply orb_false_iff in H. destruct H as [H1 _].
    destruct (String.prefix (p +:+ q) EmptyString) eqn:E; [|reflexivity].
    apply prefix_app_l in E. congruence.
  - cbn [contains] in *. apply orb_false_iff in H. destruct H as [H1 H2].
    rewrite (IH H2), orb_false_r.
    destruct (String.prefix (p +:+ q) (String c r)) eqn:E; [|reflexivity].
    apply prefix_app_l in E. congruence.
Qed.

Lemma trimStart_length s : (String.length (trimStart s) <= String.length s)%nat.
Proof.
  destruct (trimStart_suffix _ s (le_n _)) as [u Hu].
  rewrite Hu at 2. rewrite string_app_length. lia.
Qed.

Lemma trimStart_idem n s :
  (String.length s <= n)%nat -> trimStart (trimStart s) = trimStart s.
Proof.
  revert s. induction n as [|n IH]; intros s Hn.
  - destruct s; [reflexivity|simpl in Hn; lia].
  - destruct s as [|a r1]; [reflexivity|]. simpl in Hn.
    destruct (ascii_space a) eqn:Ea.
    { rewrite (trimStart_space _ _ Ea). apply IH. lia. }
    destruct r1 as [|b r2].
    { rewrite !(trimStart_one _ Ea). reflexivity. }
    simpl in Hn. destruct (space2 a b) eqn:E2.
    { rewrite (trimStart_space2 _ _ _ Ea E2). apply IH. lia. }
    destruct r2 as [|c r3].
    { rewrite !(trimStart_two _ _ Ea E2). reflexivity. }
    simpl in Hn. destruct (space3 a b c) eqn:E3.
    { rewrite (trimStart_space3 _ _ _ _ Ea E2 E3). apply IH. lia. }
    rewrite !(trimStart_three _ _ _ _ Ea E2 E3). reflexivity.
Qed.

Lemma trimStart_rev_idem n s :
  (String.length s <= n)%nat -> trimStart_rev (trimStart_rev s) = trimStart_rev s.
Proof.
  revert s. induction n as [|n IH]; intros s Hn.
  - destruct s; [reflexivity|simpl in Hn; lia].
  - destruct s as [|a r1]; [reflexivity|]. simpl in Hn.
    cbn [trimStart_rev]. destruct (ascii_space a) eqn:Ea.
    { apply IH. lia. }
    destruct r1 as [|b r2].
    { cbn [trimStart_rev]. rewrite Ea. reflexivity. }
    simpl in Hn. destruct (space2 b a) eqn:E2.
    { apply IH. lia. }
    destruct r2 as [|c r3].
    { cbn [trimStart_rev]. rewrite Ea, E2. reflexivity. }
    simpl in Hn. destruct (space3 c b a) eqn:E3.
    { apply IH. lia. }
    cbn [trimStart_rev]. rewrite Ea, E2, E3. reflexivity.
Qed.

Lemma trimEnd_idem t : trimEnd (trimEnd t) = trimEnd t.
Proof.
  unfold trimEnd. rewrite rev_involutive.
  rewrite (trimStart_rev_idem _ _ (le_n _)). reflexivity.
Qed.

(** A text that does not begin with white space keeps that when it is cut
    at the end. *)
Lemma trimStart_fixed_prefix t y u :
  trimStart t = t -> t = y +:+ u -> trimStart y = y.
Proof.
  intros Ht ->.
  assert (Hshort : forall r : string, trimStart (y +:+ u) = trimStart r ->
            (String.length r < String.length (y +:+ u))%nat -> False).
  { intros r E Hr. pose proof (trimStart_length r) as Hl. rewrite <- E, Ht in Hl. lia. }
  destruct y as [|a y1]; [reflexivity|].
  change (String a y1 +:+ u) with (String a (y1 +:+ u)) in *.
  destruct (ascii_space a) eqn:Ea.
  { exfalso. apply (Hshort (y1 +:+ u)); [apply (trimStart_space _ _ Ea)|simpl; lia]. }
  destruct y1 as [|b y2]; [apply (trimStart_one _ Ea)|].
  change (String b y2 +:+ u) with (String b (y2 +:+ u)) in *.
  destruct (space2 a b) eqn:E2.
  { exfalso. apply (Hshort (y2 +:+ u)); [apply (trimStart_space2 _ _ _ Ea E2)|simpl; lia]. }
  destruct y2 as [|c y3]; [apply (trimStart_two _ _ Ea E2)|].
  change (String c y3 +:+ u) with (String c (y3 +:+ u)) in *.
  destruct (space3 a b c) eqn:E3.
  { exfalso. apply (Hshort (y3 +:+ u)); [apply (trimStart_space3 _ _ _ _ Ea E2 E3)|simpl; lia]. }
  apply (trimStart_three _ _ _ _ Ea E2 E3).
Qed.

Lemma trim_idem s : trim (trim s) = trim s.
Proof.
  unfold trim at 1.
  assert (Hs : trimStart (trim s) = trim s).
  { unfold trim. destruct (trimEnd_prefix (trimStart s)) as [u Hu].
    apply (trimStart_fixed_prefix (trimStart s) _ u); [|exact Hu].
    apply (trimStart_idem _ _ (le_n _)). }
  rewrite Hs. unfold trim. apply trimEnd_idem.
Qed.

(** X21.  Cleaning is done once and for all: the cleaned reply is a fixed
    point of the cleaning, so a text that went through it is not changed by
    going through it again. *)
Theorem X21_clean_is_idempotent llmResponse :
  clean (clean llmResponse) = clean llmResponse.
Proof.
  assert (Hno : contains "```" (clean llmResponse) = false).
  { unfold clean. apply contains_trim. apply (remove_all_leaves_no_fence _ _ (le_n _)). }
  unfold clean at 1.
  rewrite (remove_all_absent "```json" _ (contains_app_l "```" "json" _ Hno)).
  rewrite (remove_all_absent "```" _ Hno).
  unfold clean. apply trim_idem.
Qed.

(** ** From the upload to the call *)

Lemma Emits_weaken {A} (P Q : Event -> bool) (m : M A) :
  (forall e, P e = true -> Q e = true) -> Emits P m -> Emits Q m.
Proof.
  intros HPQ Hm w c w' H. destruct (Hm _ _ _ H) as (evs & Ht & Hall).
  exists evs. split; [exact Ht|]. eapply Forall_impl; [exact Hall|]. exact HPQ.
Qed.

Lemma loop_line_cons prompt name rest e :
  loop_line prompt rest e = true -> loop_line prompt (name :: rest) e = true.
Proof.
  destruct e; simpl; try (intros H; exact H).
  intros H. apply andb_true_iff in H. destruct H as [H1 H2].
  rewrite H1, H2. simpl. apply orb_true_r.
Qed.

Lemma Emits_generateLoop env prompt names vars :
  Emits (loop_line prompt names) (generateLoop env prompt names vars).
Proof.
  induction names as [|name rest IH]; simpl; [apply Emits_ret|].
  apply Emits_bind.
  - apply Emits_try_catch.
    + apply Emits_bind; [|intros text; apply Emits_ret].
      unfold attempt.
      apply Emits_bind; [apply Emits_lift|intros m].
      apply Emits_bind.
      { apply Emits_await. intros r. simpl.
        rewrite !String.eqb_refl. reflexivity. }
      intros result.
      apply Emits_bind; [apply Emits_lift|intros text].
      apply Emits_bind; [apply Emits_emit; reflexivity|intros _; apply Emits_ret].
    + intros llmErr. apply Emits_bind; [apply Emits_emit; reflexivity|intros _].
      destruct (status_of llmErr =? 404); [apply Emits_ret|apply Emits_return].
  - intros [vars'|]; [apply Emits_ret|].
    apply (Emits_weaken (loop_line prompt rest)); [|exact IH].
    intros e. apply loop_line_cons.
Qed.

Lemma existsb_eqb_In name names :
  existsb (String.eqb name) names = true -> In name names.
Proof.
  intros H. apply existsb_exists in H. destruct H as (x & Hx & E).
  apply String.eqb_eq in E. subst. exact Hx.
Qed.

(** What the miss path adds to the history up to the reply of a model:
    either nothing that is a call, or the four steps of the recognition
    followed by log lines and calls made with the prompt of the recognised
    text. *)
Lemma obtainReply_history env f w c w' :
  obtainReply env f w = (c, w') ->
  (exists evs, trace w' = trace w ++ evs /\ Forall (fun e => quiet_line e = true) evs)
  \/ (exists img u ocrText u' evs,
         trace w' = trace w ++ [ EvConsole LLog [AStr "Processing new image."];
                                 EvSharp (buffer f) (Resolved img);
                                 EvCreateWorker "eng" (Resolved u);
                                 EvRecognize img (Resolved ocrText);
                                 EvTerminate (Resolved u') ] ++ evs
         /\ Forall (fun e => quiet_line e = true
                             \/ loop_line (prompt ocrText) (modelCandidates env) e = true)
                   evs).
Proof.
  unfold obtainReply.
  unfold bind at 1. unfold console at 1, emit at 1.
  set (w0 := log (EvConsole LLog [AStr "Processing new image."]) w).
  unfold bind at 1.
  destruct (recognizeText env (buffer f) w0) as [[ocrText|r0|e0] w1] eqn:Er.
  - intros H. right.
    pose proof Er as Er'. rewrite recognizeText_eq in Er'.
    destruct (sharp env (trace w0) (buffer f)) as [img|]; [|discriminate].
    cbv zeta in Er'. destruct (createWorker env _ "eng") as [u|]; [|discriminate].
    destruct (recognize env _ img) as [text|]; [|discriminate].
    destruct (terminate env _) as [u'|]; [|discriminate].
    injection Er' as -> <-.
    set (w1 := log (EvTerminate (Resolved u'))
                 (log (EvRecognize img (Resolved ocrText))
                    (log (EvCreateWorker "eng" (Resolved u))
                       (log (EvSharp (buffer f) (Resolved img)) w0)))) in *.
    assert (Ht1 : trace w1
                  = trace w ++ [ EvConsole LLog [AStr "Processing new image."];
                                 EvSharp (buffer f) (Resolved img);
                                 EvCreateWorker "eng" (Resolved u);
                                 EvRecognize img (Resolved ocrText);
                                 EvTerminate (Resolved u') ]).
    { unfold w1, w0. simpl. rewrite <- !app_assoc. reflexivity. }
    exists img, u, ocrText, u'.
    unfold bind at 1 in H.
    destruct (chooseModel env (modelCandidates env) w1) as [[m|r1|e1] w2] eqn:Ec;
      destruct (Emits_chooseModel _ _ _ _ _ Ec) as (evs2 & Ht2 & Hq2).
    + unfold bind, ret in H.
      destruct (generateLoop env (prompt ocrText) (modelCandidates env) _ w2)
        as [[vars|r2|e2] w3] eqn:El;
        destruct (Emits_generateLoop _ _ _ _ _ _ _ El) as (evs3 & Ht3 & Hq3);
        injection H as <- <-; exists (evs2 ++ evs3);
        (split;
         [ rewrite Ht3, Ht2, Ht1, <- !app_assoc; reflexivity
         | apply Forall_app; split;
           [eapply Forall_impl; [exact Hq2|intros; left; assumption]
           |eapply Forall_impl; [exact Hq3|intros; right; assumption]] ]).
    + injection H as <- <-. exists evs2.
      split; [rewrite Ht2, Ht1, <- !app_assoc; reflexivity|].
      eapply Forall_impl; [exact Hq2|intros; left; assumption].
    + injection H as <- <-. exists evs2.
      split; [rewrite Ht2, Ht1, <- !app_assoc; reflexivity|].
      eapply Forall_impl; [exact Hq2|intros; left; assumption].
  - intros H. injection H as <- <-. left.
    destruct (Emits_recognizeText _ _ _ _ _ Er) as (evs1 & Ht1 & Hq1).
    exists (EvConsole LLog [AStr "Processing new image."] :: evs1).
    split; [rewrite Ht1; unfold w0; simpl; rewrite <- app_assoc; reflexivity|].
    constructor; [reflexivity|exact Hq1].
  - intros H. injection H as <- <-. left.
    destruct (Emits_recognizeText _ _ _ _ _ Er) as (evs1 & Ht1 & Hq1).
    exists (EvConsole LLog [AStr "Processing new image."] :: evs1).
    split; [rewrite Ht1; unfold w0; simpl; rewrite <- app_assoc; reflexivity|].
    constructor; [reflexivity|exact Hq1].
Qed.

(** X22.  Every call to a model is made for the upload at hand.  In any run
    of the miss path, a call of [generateContent] is made for a name of the
    candidate list and with the prompt built from the text that the
    recognition returned in this run, for the image that sharp returned for
    the uploaded bytes. *)
Theorem X22_calls_carry_the_recognised_text env f w name p r :
  let evs := since w (snd (obtainReply env f w)) in
  In (EvGenerateContent name p r) evs ->
  exists img ocrText,
    In (EvSharp (buffer f) (Resolved img)) evs
    /\ In (EvRecognize img (Resolved ocrText)) evs
    /\ p = prompt ocrText
    /\ In name (modelCandidates env).
Proof.
  cbv zeta. destruct (obtainReply env f w) as [c w'] eqn:Eo. cbn [snd].
  destruct (obtainReply_history _ _ _ _ _ Eo)
    as [(evs & Ht & Hq)|(img & u & ocrText & u' & evs & Ht & Hq)];
    rewrite (since_app _ _ _ Ht); intros Hin.
  - exfalso. rewrite Forall_forall in Hq.
    specialize (Hq _ (proj2 (list_elem_of_In _ _) Hin)). discriminate.
  - exists img, ocrText.
    split; [simpl; tauto|]. split; [simpl; tauto|].
    apply in_app_or in Hin. destruct Hin as [Hin|Hin].
    { simpl in Hin. exfalso. destruct Hin as [H|[H|[H|[H|[H|[]]]]]]; discriminate. }
    rewrite Forall_forall in Hq.
    destruct (Hq _ (proj2 (list_elem_of_In _ _) Hin)) as [H|H]; [discriminate|].
    simpl in H. apply andb_true_iff in H. destruct H as [H1 H2].
    apply String.eqb_eq in H1. split; [exact H1|]. apply existsb_eqb_In, H2.
Qed.

Lemma X22_witness :
  exists img ocrText,
    In (EvSharp (buffer Fixture.bill) (Resolved img))
       (since Fixture.fresh (snd (obtainReply Fixture.envOk Fixture.bill Fixture.fresh)))
    /\ In (EvRecognize img (Resolved ocrText))
          (since Fixture.fresh (snd (obtainReply Fixture.envOk Fixture.bill Fixture.fresh)))
    /\ Fixture.p = prompt ocrText
    /\ In "gemini-1.5-flash-8b" (modelCandidates Fixture.envOk).
Proof.
  apply (X22_calls_carry_the_recognised_text Fixture.envOk Fixture.bill Fixture.fresh
           "gemini-1.5-flash-8b" Fixture.p (Fixture.answers Fixture.replyOk)).
  vm_compute. tauto.
Defined.

(** ** The calls of one request *)

Lemma quiet_line_calls evs :
  Forall (fun e => quiet_line e = true) evs -> calls evs = [].
Proof.
  induction 1 as [|e l He _ IH]; [reflexivity|].
  destruct e; try discriminate He; simpl; exact IH.
Qed.

Lemma no_invocation_calls evs :
  Forall (fun e => negb (is_invocation e) = true) evs -> calls evs = [].
Proof.
  induction 1 as [|e l He _ IH]; [reflexivity|].
  destruct e; try discriminate He; simpl; exact IH.
Qed.

Lemma Emits_writeFile env path data :
  Emits (fun e => negb (is_invocation e)) (writeFile env path data).
Proof.
  intros w c w'. unfold writeFile.
  destruct (writeFile_error env (trace w) path data); ended;
    eexists [_]; (split; [reflexivity|]); repeat constructor.
Qed.

Lemma Emits_respond env f imagePath jsonPath llmResponse :
  Emits (fun e => negb (is_invocation e)) (respond env f imagePath jsonPath llmResponse).
Proof.
  unfold respond. destruct llmResponse as [text|]; [|apply Emits_return].
  destruct (truthy text); [|apply Emits_return].
  apply Emits_bind.
  - unfold validate. apply Emits_try_catch.
    + unfold parse. destruct (JSON_parse env (clean text)); [apply Emits_ret|apply Emits_throw].
    + intros e. apply Emits_bind; [apply Emits_emit; reflexivity|].
      intros _. apply Emits_return.
  - intros v. apply Emits_bind; [|intros _; apply Emits_return].
    unfold persist. apply Emits_bind; [apply Emits_writeFile|].
    intros _. apply Emits_writeFile.
Qed.

(** The calls of the miss path, up to the reply of a model. *)
Lemma obtainReply_calls env f w c w' :
  obtainReply env f w = (c, w') ->
  exists evs, trace w' = trace w ++ evs /\ calls evs `sublist_of` modelCandidates env.
Proof.
  intros H. unfold obtainReply in H.
  unfold bind at 1 in H. unfold console at 1, emit at 1 in H.
  set (w0 := log (EvConsole LLog [AStr "Processing new image."]) w) in H.
  assert (Ht0 : trace w0 = trace w ++ [EvConsole LLog [AStr "Processing new image."]])
    by reflexivity.
  unfold bind at 1 in H.
  destruct (recognizeText env (buffer f) w0) as [[ocrText|r0|e0] w1] eqn:Er;
    destruct (Emits_recognizeText _ _ _ _ _ Er) as (evs1 & Ht1 & Hq1).
  - unfold bind at 1 in H.
    destruct (chooseModel env (modelCandidates env) w1) as [[m|r1|e1] w2] eqn:Ec;
      destruct (Emits_chooseModel _ _ _ _ _ Ec) as (evs2 & Ht2 & Hq2).
    + unfold bind, ret in H.
      destruct (generateLoop env (prompt ocrText) (modelCandidates env) _ w2)
        as [[vars|r2|e2] w3] eqn:El;
        destruct (generateLoop_events _ _ _ _ _ _ _ El) as (_ & evs3 & Ht3 & _ & Hc3);
        injection H as <- <-;
        exists ([EvConsole LLog [AStr "Processing new image."]] ++ evs1 ++ evs2 ++ evs3);
        (split; [rewrite Ht3, Ht2, Ht1, Ht0, <- !app_assoc; reflexivity|]);
        rewrite !calls_app, (quiet_line_calls _ Hq1), (quiet_line_calls _ Hq2);
        exact Hc3.
    + injection H as <- <-.
      exists ([EvConsole LLog [AStr "Processing new image."]] ++ evs1 ++ evs2).
      split; [rewrite Ht2, Ht1, Ht0, <- !app_assoc; reflexivity|].
      rewrite !calls_app, (quiet_line_calls _ Hq1), (quiet_line_calls _ Hq2).
      apply sublist_nil_l.
    + injection H as <- <-.
      exists ([EvConsole LLog [AStr "Processing new image."]] ++ evs1 ++ evs2).
      split; [rewrite Ht2, Ht1, Ht0, <- !app_assoc; reflexivity|].
      rewrite !calls_app, (quiet_line_calls _ Hq1), (quiet_line_calls _ Hq2).
      apply sublist_nil_l.
  - injection H as <- <-.
    exists ([EvConsole LLog [AStr "Processing new image."]] ++ evs1).
    split; [rewrite Ht1, Ht0, <- !app_assoc; reflexivity|].
    rewrite !calls_app, (quiet_line_calls _ Hq1). apply sublist_nil_l.
  - injection H as <- <-.
    exists ([EvConsole LLog [AStr "Processing new image."]] ++ evs1).
    split; [rewrite Ht1, Ht0, <- !app_assoc; reflexivity|].
    rewrite !calls_app, (quiet_line_calls _ Hq1). apply sublist_nil_l.
Qed.

(** The calls of a whole request. *)
Lemma extract_amounts_calls env req w c w' :
  extract_amounts env req w = (c, w') ->
  exists evs, trace w' = trace w ++ evs /\ calls evs `sublist_of` modelCandidates env.
Proof.
  destruct (file req) as [f|] eqn:Hf.
  - rewrite (extract_amounts_eq _ _ _ _ Hf). cbv zeta.
    destruct (cached env _ w) as [[r|r|e0] w0] eqn:Ec;
      destruct (Emits_cached _ _ _ _ _ Ec) as (evs0 & Ht0 & Hq0).
    + ended. exists evs0. split; [exact Ht0|].
      rewrite (quiet_line_calls _ Hq0). apply sublist_nil_l.
    + ended. exists evs0. split; [exact Ht0|].
      rewrite (quiet_line_calls _ Hq0). apply sublist_nil_l.
    + rewrite processNewImage_eq.
      destruct (obtainReply env f w0) as [[llm|r1|e1] w1] eqn:Eo;
        destruct (obtainReply_calls _ _ _ _ _ Eo) as (evs1 & Ht1 & Hc1).
      * destruct (respond env f _ _ llm w1) as [[r2|r2|e2] w2] eqn:Er;
          destruct (Emits_respond _ _ _ _ _ _ _ _ Er) as (evs2 & Ht2 & Hq2).
        -- ended. exists (evs0 ++ evs1 ++ evs2).
           split; [rewrite Ht2, Ht1, Ht0, <- !app_assoc; reflexivity|].
           rewrite !calls_app, (quiet_line_calls _ Hq0), (no_invocation_calls _ Hq2), app_nil_r.
           exact Hc1.
        -- ended. exists (evs0 ++ evs1 ++ evs2).
           split; [rewrite Ht2, Ht1, Ht0, <- !app_assoc; reflexivity|].
           rewrite !calls_app, (quiet_line_calls _ Hq0), (no_invocation_calls _ Hq2), app_nil_r.
           exact Hc1.
        -- ended.
           exists (evs0 ++ evs1 ++ evs2 ++ [EvConsole LError [AStr "Error processing image:"; AErr e2]]).
           split; [simpl; rewrite Ht2, Ht1, Ht0, <- !app_assoc; reflexivity|].
           rewrite !calls_app, (quiet_line_calls _ Hq0), (no_invocation_calls _ Hq2).
           simpl. rewrite app_nil_r. exact Hc1.
      * ended. exists (evs0 ++ evs1).
        split; [rewrite Ht1, Ht0, <- !app_assoc; reflexivity|].
        rewrite !calls_app, (quiet_line_calls _ Hq0). exact Hc1.
      * ended.
        exists (evs0 ++ evs1 ++ [EvConsole LError [AStr "Error processing image:"; AErr e1]]).
        split; [simpl; rewrite Ht1, Ht0, <- !app_assoc; reflexivity|].
        rewrite !calls_app, (quiet_line_calls _ Hq0). simpl. rewrite app_nil_r. exact Hc1.
  - unfold extract_amounts. rewrite Hf. ended.
    exists []. split; [symmetry; apply app_nil_r|apply sublist_nil_l].
Qed.

(** X23.  One request costs at most five calls to a model.  Whatever the
    services answer and whatever the store holds, the names for which a
    request calls [generateContent] are taken from the candidate list in its
    order, each position at most once; the list has four names, or five with
    an override. *)
Theorem X23_a_request_makes_at_most_five_calls env req w :
  let made := calls (since w (snd (extract_amounts env req w))) in
  made `sublist_of` modelCandidates env /\ (length made <= 5)%nat.
Proof.
  cbv zeta. destruct (extract_amounts env req w) as [c w'] eqn:E. cbn [snd].
  destruct (extract_amounts_calls _ _ _ _ _ E) as (evs & Ht & Hc).
  rewrite (since_app _ _ _ Ht). split; [exact Hc|].
  apply sublist_length in Hc. etransitivity; [exact Hc|].
  unfold modelCandidates. destruct (GEMINI_MODEL env) as [envModel|]; [|simpl; lia].
  destruct (truthy envModel); simpl; lia.
Qed.

(** ** Two calls with the same bytes *)

Lemma same_value_refl : forall v, same_value v v = true.
Proof.
  fix IH 1. intros [|b|m e|s|xs|ms]; simpl.
  - reflexivity.
  - destruct b; reflexivity.
  - unfold num_eq. apply Z.eqb_refl.
  - apply String.eqb_refl.
  - induction xs as [|x r IHr]; [reflexivity|]. rewrite (IH x). exact IHr.
  - induction ms as [|[k x] r IHr]; [reflexivity|].
    rewrite String.eqb_refl, (IH x). exact IHr.
Qed.

Lemma no_recognize_filter evs :
  Forall (fun e => negb (is_recognize e) = true) evs -> List.filter is_recognize evs = [].
Proof.
  induction 1 as [|e l He _ IH]; [reflexivity|].
  simpl. apply negb_true_iff in He. rewrite He. exact IH.
Qed.

Lemma Emits_cached_no_recognize env jsonPath :
  Emits (fun e => negb (is_recognize e)) (cached env jsonPath).
Proof.
  intros w c w'. rewrite cached_eq. destruct (files w !! jsonPath) as [bytes|].
  - cbv zeta. destruct (JSON_parse env (string_of_list_byte bytes)); ended;
      eexists [_; _]; (split; [simpl; rewrite <- app_assoc; reflexivity|]);
      repeat constructor.
  - ended. eexists [_]. split; [reflexivity|]. repeat constructor.
Qed.

Lemma Emits_chooseModel_no_recognize env candidates :
  Emits (fun e => negb (is_recognize e)) (chooseModel env candidates).
Proof.
  unfold chooseModel. destruct (initModel env candidates None) as [[m|] lastInitError].
  - apply Emits_bind; [apply Emits_emit; reflexivity|intros _; apply Emits_ret].
  - apply Emits_bind; [apply Emits_emit; reflexivity|intros _; apply Emits_return].
Qed.

Lemma Emits_generateLoop_no_recognize env prompt names vars :
  Emits (fun e => negb (is_recognize e)) (generateLoop env prompt names vars).
Proof.
  apply (Emits_weaken (loop_line prompt names)); [|apply Emits_generateLoop].
  intros [] H; try reflexivity; discriminate H.
Qed.

Lemma Emits_respond_no_recognize env f imagePath jsonPath llmResponse :
  Emits (fun e => negb (is_recognize e)) (respond env f imagePath jsonPath llmResponse).
Proof.
  unfold respond. destruct llmResponse as [text|]; [|apply Emits_return].
  destruct (truthy text); [|apply Emits_return].
  apply Emits_bind.
  - unfold validate. apply Emits_try_catch.
    + unfold parse. destruct (JSON_parse env (clean text)); [apply Emits_ret|apply Emits_throw].
    + intros e. apply Emits_bind; [apply Emits_emit; reflexivity|].
      intros _. apply Emits_return.
  - intros v. apply Emits_bind; [|intros _; apply Emits_return].
    assert (Hw : forall path data,
               Emits (fun e => negb (is_recognize e)) (writeFile env path data)).
    { intros path data w c w'. unfold writeFile.
      destruct (writeFile_error env (trace w) path data); ended;
        eexists [_]; (split; [reflexivity|]); repeat constructor. }
    unfold persist. apply Emits_bind; [apply Hw|intros _; apply Hw].
Qed.

(** The recognition step calls [worker.recognize] once at most. *)
Lemma recognizeText_once env buf w c w' :
  recognizeText env buf w = (c, w') ->
  exists evs, trace w' = trace w ++ evs
              /\ (length (List.filter is_recognize evs) <= 1)%nat.
Proof.
  rewrite recognizeText_eq.
  destruct (sharp env (trace w) buf) as [img|e].
  - cbv zeta. destruct (createWorker env _ "eng") as [u|e].
    + destruct (recognize env _ img) as [text|e].
      * destruct (terminate env _) as [u'|e]; ended;
          eexists [_; _; _; _];
          (split; [simpl; rewrite <- !app_assoc; reflexivity|simpl; lia]).
      * ended. eexists [_; _; _].
        split; [simpl; rewrite <- !app_assoc; reflexivity|simpl; lia].
    + ended. eexists [_; _].
      split; [simpl; rewrite <- !app_assoc; reflexivity|simpl; lia].
  - ended. eexists [_]. split; [reflexivity|simpl; lia].
Qed.

Lemma filter_app_length (P : Event -> bool) l1 l2 :
  length (List.filter P (l1 ++ l2))
  = (length (List.filter P l1) + length (List.filter P l2))%nat.
Proof. rewrite List.filter_app. apply length_app. Qed.

Lemma obtainReply_recognitions env f w c w' :
  obtainReply env f w = (c, w') ->
  exists evs, trace w' = trace w ++ evs
              /\ (length (List.filter is_recognize evs) <= 1)%nat.
Proof.
  intros H. unfold obtainReply in H.
  unfold bind at 1 in H. unfold console at 1, emit at 1 in H.
  set (w0 := log (EvConsole LLog [AStr "Processing new image."]) w) in H.
  assert (Ht0 : trace w0 = trace w ++ [EvConsole LLog [AStr "Processing new image."]])
    by reflexivity.
  unfold bind at 1 in H.
  destruct (recognizeText env (buffer f) w0) as [[ocrText|r0|e0] w1] eqn:Er;
    destruct (recognizeText_once _ _ _ _ _ Er) as (evs1 & Ht1 & Hn1).
  - unfold bind at 1 in H.
    destruct (chooseModel env (modelCandidates env) w1) as [[m|r1|e1] w2] eqn:Ec;
      destruct (Emits_chooseModel_no_recognize _ _ _ _ _ Ec) as (evs2 & Ht2 & Hq2);
      apply no_recognize_filter in Hq2.
    + unfold bind, ret in H.
      destruct (generateLoop env (prompt ocrText) (modelCandidates env) _ w2)
        as [[vars|r2|e2] w3] eqn:El;
        destruct (Emits_generateLoop_no_recognize _ _ _ _ _ _ _ El) as (evs3 & Ht3 & Hq3);
        apply no_recognize_filter in Hq3;
        injection H as <- <-;
        exists ([EvConsole LLog [AStr "Processing new image."]] ++ evs1 ++ evs2 ++ evs3);
        (split; [rewrite Ht3, Ht2, Ht1, Ht0, <- !app_assoc; reflexivity|]);
        rewrite !filter_app_length, Hq2, Hq3; simpl; lia.
    + injection H as <- <-.
      exists ([EvConsole LLog [AStr "Processing new image."]] ++ evs1 ++ evs2).
      split; [rewrite Ht2, Ht1, Ht0, <- !app_assoc; reflexivity|].
      rewrite !filter_app_length, Hq2. simpl. lia.
    + injection H as <- <-.
      exists ([EvConsole LLog [AStr "Processing new image."]] ++ evs1 ++ evs2).
      split; [rewrite Ht2, Ht1, Ht0, <- !app_assoc; reflexivity|].
      rewrite !filter_app_length, Hq2. simpl. lia.
  - injection H as <- <-.
    exists ([EvConsole LLog [AStr "Processing new image."]] ++ evs1).
    split; [rewrite Ht1, Ht0, <- !app_assoc; reflexivity|].
    rewrite !filter_app_length. simpl. lia.
  - injection H as <- <-.
    exists ([EvConsole LLog [AStr "Processing new image."]] ++ evs1).
    split; [rewrite Ht1, Ht0, <- !app_assoc; reflexivity|].
    rewrite !filter_app_length. simpl. lia.
Qed.

Lemma extract_amounts_recognitions env req w c w' :
  extract_amounts env req w = (c, w') ->
  exists evs, trace w' = trace w ++ evs
              /\ (length (List.filter is_recognize evs) <= 1)%nat.
Proof.
  destruct (file req) as [f|] eqn:Hf.
  - rewrite (extract_amounts_eq _ _ _ _ Hf). cbv zeta.
    destruct (cached env _ w) as [[r|r|e0] w0] eqn:Ec;
      destruct (Emits_cached_no_recognize _ _ _ _ _ Ec) as (evs0 & Ht0 & Hq0);
      apply no_recognize_filter in Hq0.
    + ended. exists evs0. split; [exact Ht0|]. rewrite Hq0. simpl. lia.
    + ended. exists evs0. split; [exact Ht0|]. rewrite Hq0. simpl. lia.
    + rewrite processNewImage_eq.
      destruct (obtainReply env f w0) as [[llm|r1|e1] w1] eqn:Eo;
        destruct (obtainReply_recognitions _ _ _ _ _ Eo) as (evs1 & Ht1 & Hn1).
      * destruct (respond env f _ _ llm w1) as [[r2|r2|e2] w2] eqn:Er;
          destruct (Emits_respond_no_recognize _ _ _ _ _ _ _ _ Er) as (evs2 & Ht2 & Hq2);
          apply no_recognize_filter in Hq2.
        -- ended. exists (evs0 ++ evs1 ++ evs2).
           split; [rewrite Ht2, Ht1, Ht0, <- !app_assoc; reflexivity|].
           rewrite !filter_app_length, Hq0, Hq2. simpl. lia.
        -- ended. exists (evs0 ++ evs1 ++ evs2).
           split; [rewrite Ht2, Ht1, Ht0, <- !app_assoc; reflexivity|].
           rewrite !filter_app_length, Hq0, Hq2. simpl. lia.
        -- ended.
           exists (evs0 ++ evs1 ++ evs2
                   ++ [EvConsole LError [AStr "Error processing image:"; AErr e2]]).
           split; [simpl; rewrite Ht2, Ht1, Ht0, <- !app_assoc; reflexivity|].
           rewrite !filter_app_length, Hq0, Hq2. simpl. lia.
      * ended. exists (evs0 ++ evs1).
        split; [rewrite Ht1, Ht0, <- !app_assoc; reflexivity|].
        rewrite !filter_app_length, Hq0. simpl. lia.
      * ended.
        exists (evs0 ++ evs1 ++ [EvConsole LError [AStr "Error processing image:"; AErr e1]]).
        split; [simpl; rewrite Ht1, Ht0, <- !app_assoc; reflexivity|].
        rewrite !filter_app_length, Hq0. simpl. lia.
  - unfold extract_amounts. rewrite Hf. ended.
    exists []. split; [symmetry; apply app_nil_r|simpl; lia].
Qed.

(** C6.  After a call that returned a result (it was answered with 200), a
    second call with the same bytes, under whatever file name, is served
    from the store: it reads the text stored under the fingerprint and
    answers 200 with the same value, [JSON.parse] reading back what
    [JSON.stringify] printed.  The second run consists of the read and one
    log line, with no recognition, no call to a model and no write, and the
    store is unchanged; over the two calls together [worker.recognize] is
    called once at most and the calls to the models are one pass through
    the candidate list at most. *)
Theorem C6_second_call_is_served_from_the_store env req f req' f' w v w1 :
  file req = Some f ->
  file req' = Some f' ->
  buffer f' = buffer f ->
  extract_amounts env req w = (Return (mkResponse 200 (Json v)), w1) ->
  round_trips env v = true ->
  exists cachedJson v2,
    let w2 := mkWorld (files w1)
                (trace w1 ++
                 [ EvReadFile (jsonPath_of (SHA256.hex (buffer f))) (Resolved cachedJson);
                   EvConsole LLog [AStr "Returning cached JSON result."] ]) in
    extract_amounts env req' w1 = (Return (mkResponse 200 (Json v2)), w2)
    /\ same_value v v2 = true
    /\ (length (List.filter is_recognize (since w w2)) <= 1)%nat
    /\ calls (since w w2) `sublist_of` modelCandidates env.
Proof.
  intros Hf Hf' Hb H1 Hrt.
  assert (Hhit : forall bytes v2,
             files w1 !! jsonPath_of (SHA256.hex (buffer f)) = Some bytes ->
             JSON_parse env (string_of_list_byte bytes) = Some v2 ->
             extract_amounts env req' w1
             = (Return (mkResponse 200 (Json v2)),
                mkWorld (files w1)
                  (trace w1 ++
                   [ EvReadFile (jsonPath_of (SHA256.hex (buffer f)))
                                (Resolved (string_of_list_byte bytes));
                     EvConsole LLog [AStr "Returning cached JSON result."] ]))).
  { intros bytes v2 Hl Hp. rewrite (extract_amounts_eq _ _ _ _ Hf'). cbv zeta.
    rewrite Hb, cached_eq, Hl. cbv zeta. rewrite Hp.
    unfold log. simpl. rewrite <- app_assoc. reflexivity. }
  assert (Hboth : forall cachedJson,
             let w2 := mkWorld (files w1)
                         (trace w1 ++
                          [ EvReadFile (jsonPath_of (SHA256.hex (buffer f)))
                                       (Resolved cachedJson);
                            EvConsole LLog [AStr "Returning cached JSON result."] ]) in
             (length (List.filter is_recognize (since w w2)) <= 1)%nat
             /\ calls (since w w2) `sublist_of` modelCandidates env).
  { intros cachedJson w2.
    destruct (extract_amounts_recognitions _ _ _ _ _ H1) as (evs & Ht & Hn).
    destruct (extract_amounts_calls _ _ _ _ _ H1) as (evs' & Ht' & Hc).
    assert (evs' = evs) by (rewrite Ht in Ht'; apply app_inv_head in Ht'; congruence).
    subst evs'.
    erewrite since_app by (unfold w2; simpl; rewrite Ht, <- app_assoc; reflexivity).
    rewrite filter_app_length, calls_app. simpl. rewrite app_nil_r.
    split; [lia|exact Hc]. }
  destruct (extract_amounts_outcomes _ _ _ _ _ _ Hf H1)
    as [(bytes & v' & Hl & Hp & Hc & Hw)
       |[(r & Hc & Hr & _)
        |[(text & v' & w0 & _ & _ & Hp & Hc)
         |(text & v' & w0 & e & w2 & _ & _ & _ & Hc & _)]]].
  - injection Hc as ->. exists (string_of_list_byte bytes), v'. cbv zeta.
    split; [apply Hhit; [rewrite Hw; exact Hl|exact Hp]|].
    split; [apply same_value_refl|apply Hboth].
  - injection Hc as <-. exfalso. apply Hr. reflexivity.
  - injection Hc as ->. rewrite persist_eq in Hp. cbv zeta in Hp.
    destruct (writeFile_error env (trace w0) _ (buffer f)); [discriminate|].
    destruct (writeFile_error env _ _ _); [discriminate|].
    injection Hp as <-.
    unfold round_trips in Hrt.
    destruct (JSON_parse env (JSON_stringify env v')) as [v2|] eqn:Ep; [|discriminate].
    exists (string_of_list_byte (list_byte_of_string (JSON_stringify env v'))), v2.
    cbv zeta. split.
    + apply Hhit; [simpl; apply lookup_insert_eq|].
      rewrite string_of_list_byte_of_string. exact Ep.
    + split; [exact Hrt|apply Hboth].
  - discriminate.
Qed.

Lemma C6_witness :
  exists cachedJson v2,
    let w2 := mkWorld (files Decimal.after)
                (trace Decimal.after ++
                 [ EvReadFile (jsonPath_of (SHA256.hex (buffer Fixture.bill)))
                              (Resolved cachedJson);
                   EvConsole LLog [AStr "Returning cached JSON result."] ]) in
    extract_amounts Decimal.env Decimal.again Decimal.after
    = (Return (mkResponse 200 (Json v2)), w2)
    /\ same_value Decimal.parsed v2 = true
    /\ (length (List.filter is_recognize (since Fixture.fresh w2)) <= 1)%nat
    /\ calls (since Fixture.fresh w2) `sublist_of` modelCandidates Decimal.env.
Proof.
  apply (C6_second_call_is_served_from_the_store Decimal.env Fixture.request
           Fixture.bill Decimal.again Decimal.copy Fixture.fresh Decimal.parsed
           Decimal.after).
  - reflexivity.
  - reflexivity.
  - reflexivity.
  - vm_compute. reflexivity.
  - vm_compute. reflexivity.
Defined.
